(** * AutoAnswer content script: field index, answer matcher, document mutator

    A shallow embedding of [ChromeExtension/extension/content.js].

    Conventions of the embedding.
    - A JavaScript string is a [string] of 8-bit code units read as Latin-1;
      the whitespace class and the case mapping below are the restrictions of
      the ECMAScript ones to that range.
    - A value received from the answer provider is a [JSON] tree; [None] of
      type [option JSON] stands for [undefined].
    - The document is a flat arena of elements in tree order with parent
      pointers; what the layout engine reports ([innerText], visibility,
      position) is stored on the element and is not recomputed after a
      write. The [value] of a control is the string last assigned to it: the
      sanitization a browser applies per input type is not modelled.
    - Every write to the document and every dispatched event is appended to a
      trace, so that the order of effects can be stated.
    - Page scripts listening to the dispatched events are not modelled.
    - An asynchronous function is the computation it performs when nothing
      else runs in between; a rejected promise is an exception. The stored
      settings and the replies of the background page are parameters.
    - The only operations that may raise are those the claims speak of: a
      selector string the host rejects, a refused or failed request, and a
      write of a checked state on an element flagged [checkedFault]. *)

From Stdlib Require Import Ascii String DecimalString.
From Stdlib Require DecimalNat.
From stdpp Require Import base option list strings gmap.

Set Warnings "-register-all,-abstract-large-number".

Open Scope string_scope.
Open Scope nat_scope.

(** ** Strings *)

Module Str.

Definition code (c : ascii) : nat := nat_of_ascii c.

(** The class [\s] (also what [trim] strips) below U+0100. *)
Definition isSpace (c : ascii) : bool :=
  let n := code c in
  ((9 <=? n) && (n <=? 13)) || (n =? 32) || (n =? 160).

Definition isUpperAZ (c : ascii) : bool :=
  let n := code c in (65 <=? n) && (n <=? 90).

Definition isLowerAlnum (c : ascii) : bool :=
  let n := code c in
  ((97 <=? n) && (n <=? 122)) || ((48 <=? n) && (n <=? 57)).

Definition toLowerChar (c : ascii) : ascii :=
  let n := code c in
  if isUpperAZ c then ascii_of_nat (n + 32)
  else if (192 <=? n) && (n <=? 222) && negb (n =? 215)
       then ascii_of_nat (n + 32)
       else c.

Fixpoint toLowerCase (s : string) : string :=
  match s with
  | EmptyString => EmptyString
  | String c s' => String (toLowerChar c) (toLowerCase s')
  end.

(** [s.replace(/P+/g, " ")]: every maximal run of characters of class [p]
    becomes one space. *)
Fixpoint replaceRuns (p : ascii -> bool) (inRun : bool) (s : string) : string :=
  match s with
  | EmptyString => EmptyString
  | String c s' =>
      if p c
      then if inRun then replaceRuns p true s'
           else String " " (replaceRuns p true s')
      else String c (replaceRuns p false s')
  end.

Definition collapseSpaces (s : string) : string := replaceRuns isSpace false s.

Definition squashNonAlnum (s : string) : string :=
  replaceRuns (fun c => negb (isLowerAlnum c)) false s.

Fixpoint trimStart (s : string) : string :=
  match s with
  | EmptyString => EmptyString
  | String c s' => if isSpace c then trimStart s' else s
  end.

Fixpoint trimEnd (s : string) : string :=
  match s with
  | EmptyString => EmptyString
  | String c s' =>
      match trimEnd s' with
      | EmptyString => if isSpace c then EmptyString else String c EmptyString
      | t => String c t
      end
  end.

Definition trim (s : string) : string := trimEnd (trimStart s).

Definition isEmpty (s : string) : bool :=
  match s with EmptyString => true | _ => false end.

(** [hay.includes(needle)] *)
Fixpoint includes (hay needle : string) : bool :=
  String.prefix needle hay
  || match hay with
     | EmptyString => false
     | String _ hay' => includes hay' needle
     end.

(** [/^[A-Z]/.test(s)] *)
Definition startsUpper (s : string) : bool :=
  match s with
  | EmptyString => false
  | String c _ => isUpperAZ c
  end.

Definition eqb (a b : string) : bool := bool_decide (a = b).

Fixpoint join (sep : string) (l : list string) : string :=
  match l with
  | [] => ""
  | [x] => x
  | x :: rest => x ++ sep ++ join sep rest
  end.

(** [s.split(/\s+/)] without the empty pieces. *)
Fixpoint wordsAux (cur : string) (s : string) : list string :=
  match s with
  | EmptyString => if isEmpty cur then [] else [cur]
  | String c s' =>
      if isSpace c
      then if isEmpty cur then wordsAux "" s' else cur :: wordsAux "" s'
      else wordsAux (cur ++ String c "") s'
  end.

Definition words (s : string) : list string := wordsAux "" s.

Definition ofNat (n : nat) : string := NilZero.string_of_uint (Nat.to_uint n).

End Str.

(** ** Values of the answer payload *)

(** A number carries its canonical rendering, the one both [String(n)] and
    [JSON.stringify(n)] return; an object lists its own properties in the
    order [Object.entries] reports them. *)
Inductive JSON : Type :=
| JNull
| JBool (b : bool)
| JNum (lit : string)
| JStr (s : string)
| JArr (items : list JSON)
| JObj (props : list (string * JSON)).

Module Js.

(** [!!v] *)
Definition truthy (v : JSON) : bool :=
  match v with
  | JNull => false
  | JBool b => b
  | JNum lit => negb (Str.eqb lit "0")
  | JStr s => negb (Str.isEmpty s)
  | JArr _ | JObj _ => true
  end.

Definition truthy' (v : option JSON) : bool :=
  match v with Some j => truthy j | None => false end.

(** [a || b] *)
Definition or_ (a b : option JSON) : option JSON :=
  if truthy' a then a else b.

(** [a ?? b] *)
Definition coalesce (a b : option JSON) : option JSON :=
  match a with
  | None | Some JNull => b
  | _ => a
  end.

(** [String(v)] *)
Fixpoint toString (v : JSON) : string :=
  match v with
  | JNull => "null"
  | JBool true => "true"
  | JBool false => "false"
  | JNum lit => lit
  | JStr s => s
  | JArr items =>
      Str.join ","
        ((fix each (l : list JSON) : list string :=
            match l with
            | [] => []
            | JNull :: l' => "" :: each l'
            | x :: l' => toString x :: each l'
            end) items)
  | JObj _ => "[object Object]"
  end.

Definition hexDigit (n : nat) : ascii :=
  if n <? 10 then ascii_of_nat (48 + n) else ascii_of_nat (87 + n).

Definition escapeChar (c : ascii) : string :=
  let n := Str.code c in
  if n =? 34 then "\" ++ String c ""
  else if n =? 92 then "\\"
  else if n =? 8 then "\b"
  else if n =? 12 then "\f"
  else if n =? 10 then "\n"
  else if n =? 13 then "\r"
  else if n =? 9 then "\t"
  else if n <? 32
       then "\u00" ++ String (hexDigit (n / 16)) (String (hexDigit (n mod 16)) "")
       else String c "".

Fixpoint escape (s : string) : string :=
  match s with
  | EmptyString => EmptyString
  | String c s' => escapeChar c ++ escape s'
  end.

Definition quote (s : string) : string :=
  String (ascii_of_nat 34) (escape s) ++ String (ascii_of_nat 34) "".

(** [JSON.stringify(v)] of a defined value *)
Fixpoint stringify (v : JSON) : string :=
  match v with
  | JNull => "null"
  | JBool true => "true"
  | JBool false => "false"
  | JNum lit => lit
  | JStr s => quote s
  | JArr items =>
      "[" ++ Str.join ","
               ((fix each (l : list JSON) : list string :=
                   match l with
                   | [] => []
                   | x :: l' => stringify x :: each l'
                   end) items) ++ "]"
  | JObj props =>
      "{" ++ Str.join ","
               ((fix each (l : list (string * JSON)) : list string :=
                   match l with
                   | [] => []
                   | (k, x) :: l' => (quote k ++ ":" ++ stringify x) :: each l'
                   end) props) ++ "}"
  end.

Fixpoint assoc (k : string) (l : list (string * JSON)) : option JSON :=
  match l with
  | [] => None
  | (k', v) :: l' => if Str.eqb k k' then Some v else assoc k l'
  end.

(** [v.k] for the property names the script reads; none of them is
    inherited, so only an object's own properties answer. *)
Definition prop (v : JSON) (k : string) : option JSON :=
  match v with
  | JObj props => assoc k props
  | _ => None
  end.

Fixpoint indexed (i : nat) (l : list JSON) : list (string * JSON) :=
  match l with
  | [] => []
  | x :: l' => (Str.ofNat i, x) :: indexed (S i) l'
  end.

(** [Object.entries(v)] for [typeof v === "object"], [v] not null *)
Definition entries (v : JSON) : list (string * JSON) :=
  match v with
  | JObj props => props
  | JArr items => indexed 0 items
  | _ => []
  end.

(** [typeof v === "object"] *)
Definition isObjectType (v : JSON) : bool :=
  match v with
  | JNull | JArr _ | JObj _ => true
  | _ => false
  end.

End Js.

(** [normalizeKey] on a string. *)
Definition normalizeKeyStr (s : string) : string :=
  Str.trim (Str.collapseSpaces (Str.squashNonAlnum (Str.toLowerCase s))).

(** [normalizeKey(s)]: falsy arguments give the empty key. *)
Definition normalizeKey (s : option JSON) : string :=
  match s with
  | Some v => if Js.truthy v then normalizeKeyStr (Js.toString v) else ""
  | None => ""
  end.

(** ** The document *)

(** What the script does to the page, in the order it does it. *)
Inductive Effect : Type :=
| SetAttribute (n : nat) (k v : string)
| SetChecked (n : nat) (b : bool)
| SetValue (n : nat) (s : string)
| SetTextContent (n : nat) (s : string)
| DispatchEvent (n : nat) (ev : string)
| Click (n : nat)
| Submit (n : nat).

(** One element. [tagName] is kept in lower case (the script only reads it
    through [toLowerCase]). [displayed] is the outcome of the computed-style
    and bounding-box test of [isVisible]; [midline] is the vertical middle of
    the bounding box, in layout units. [checkedFault] marks a control on
    which the host raises when its checked state ([checked] or
    [aria-checked]) is written. *)
Record Element : Type := mkElement {
  tagName : string;
  attributes : list (string * string);
  parentElement : option nat;
  innerText : string;
  textContent : string;
  value : string;
  checked : bool;
  displayed : bool;
  midline : Z;
  checkedFault : bool
}.

(** The document and its window: elements in tree order, [document.body],
    the focused element, the element that contains the selection (the parent
    for a selection inside a text node; none without a range), the vertical
    middle of the viewport, and the trace. *)
Record Page : Type := mkPage {
  nodes : list Element;
  body : nat;
  activeElement : option nat;
  selectionContainer : option nat;
  viewportCenter : Z;
  trace : list Effect
}.

Module Dom.

Fixpoint assoc (k : string) (l : list (string * string)) : option string :=
  match l with
  | [] => None
  | (k', v) :: l' => if Str.eqb k k' then Some v else assoc k l'
  end.

Fixpoint assocSet (k v : string) (l : list (string * string)) : list (string * string) :=
  match l with
  | [] => [(k, v)]
  | (k', v') :: l' => if Str.eqb k k' then (k, v) :: l' else (k', v') :: assocSet k v l'
  end.

Definition getAttr (e : Element) (k : string) : option string := assoc k (attributes e).

Definition hasAttr (e : Element) (k : string) : bool :=
  match getAttr e k with Some _ => true | None => false end.

(** [el.getAttribute(k) || ""] *)
Definition attrOr (e : Element) (k : string) : string := default "" (getAttr e k).

Definition withAttr (k v : string) (e : Element) : Element :=
  mkElement (tagName e) (assocSet k v (attributes e)) (parentElement e)
    (innerText e) (textContent e) (value e) (checked e) (displayed e) (midline e) (checkedFault e).

Definition withChecked (b : bool) (e : Element) : Element :=
  mkElement (tagName e) (attributes e) (parentElement e)
    (innerText e) (textContent e) (value e) b (displayed e) (midline e) (checkedFault e).

Definition withValue (s : string) (e : Element) : Element :=
  mkElement (tagName e) (attributes e) (parentElement e)
    (innerText e) (textContent e) s (checked e) (displayed e) (midline e) (checkedFault e).

Definition withTextContent (s : string) (e : Element) : Element :=
  mkElement (tagName e) (attributes e) (parentElement e)
    (innerText e) s (value e) (checked e) (displayed e) (midline e) (checkedFault e).

Definition node (p : Page) (n : nat) : option Element := nodes p !! n.

(** Apply [f] to element [n] and record the effect. *)
Definition touch (f : Element -> Element) (n : nat) (ev : Effect) (p : Page) : Page :=
  mkPage (alter f n (nodes p)) (body p) (activeElement p) (selectionContainer p)
    (viewportCenter p) (trace p ++ [ev]).

Definition setAttribute (n : nat) (k v : string) (p : Page) : Page :=
  touch (withAttr k v) n (SetAttribute n k v) p.

Definition setChecked (n : nat) (b : bool) (p : Page) : Page :=
  touch (withChecked b) n (SetChecked n b) p.

Definition setValue (n : nat) (s : string) (p : Page) : Page :=
  touch (withValue s) n (SetValue n s) p.

Definition setTextContent (n : nat) (s : string) (p : Page) : Page :=
  touch (withTextContent s) n (SetTextContent n s) p.

Definition emit (ev : Effect) (p : Page) : Page :=
  mkPage (nodes p) (body p) (activeElement p) (selectionContainer p)
    (viewportCenter p) (trace p ++ [ev]).

Definition dispatchEvent (n : nat) (ev : string) (p : Page) : Page :=
  emit (DispatchEvent n ev) p.

(** *** Selectors

    A selector is its matching predicate; the ones below are those the
    script writes as literals. Attribute values compare exactly, except
    [type], which HTML matches case-insensitively. *)
Definition Selector : Type := Element -> bool.

Definition tagIn (tags : list string) : Selector :=
  fun e => existsb (Str.eqb (tagName e)) tags.

Definition attrEq (k v : string) : Selector :=
  fun e => match getAttr e k with Some x => Str.eqb x v | None => false end.

Definition typeEq (v : string) : Selector :=
  fun e => match getAttr e "type" with
           | Some x => Str.eqb (Str.toLowerCase x) v
           | None => false
           end.

Definition both (a b : Selector) : Selector := fun e => a e && b e.
Definition either (a b : Selector) : Selector := fun e => a e || b e.

Definition selLabel : Selector := tagIn ["label"].
Definition selLabelFor (id : string) : Selector := both selLabel (attrEq "for" id).
Definition selSpan : Selector := tagIn ["span"].
Definition selBlock : Selector := tagIn ["div"; "section"; "td"; "th"; "li"; "p"; "form"].
Definition selHeading : Selector := tagIn ["h1"; "h2"; "h3"; "h4"; "strong"; "b"].
Definition selFieldset : Selector := tagIn ["fieldset"].
Definition selLegend : Selector := tagIn ["legend"].
Definition selContainer : Selector := tagIn ["section"; "div"; "form"; "table"].
Definition selForm : Selector := tagIn ["form"].
Definition selRadiogroup : Selector := attrEq "role" "radiogroup".
Definition selRoleRadio : Selector := attrEq "role" "radio".
Definition selNamedRadio (name : string) : Selector :=
  both (tagIn ["input"]) (both (typeEq "radio") (attrEq "name" name)).
Definition selTagged : Selector := fun e => hasAttr e "data-autoanswer-id".

(** *** Tree navigation *)

Fixpoint closestFrom (fuel : nat) (p : Page) (sel : Selector) (n : nat) : option nat :=
  match fuel with
  | O => None
  | S fuel' =>
      match node p n with
      | None => None
      | Some e =>
          if sel e then Some n
          else match parentElement e with
               | Some m => closestFrom fuel' p sel m
               | None => None
               end
      end
  end.

(** [el.closest(sel)]; an element has fewer ancestors than the page has
    nodes. *)
Definition closest (p : Page) (sel : Selector) (n : nat) : option nat :=
  closestFrom (length (nodes p)) p sel n.

Fixpoint reaches (fuel : nat) (p : Page) (anc : nat) (n : nat) : bool :=
  match fuel with
  | O => false
  | S fuel' =>
      (n =? anc)
      || match node p n with
         | Some e => match parentElement e with
                     | Some m => reaches fuel' p anc m
                     | None => false
                     end
         | None => false
         end
  end.

(** [n] lies strictly below [anc]. *)
Definition isDescendant (p : Page) (anc n : nat) : bool :=
  negb (n =? anc) && reaches (length (nodes p)) p anc n.

Definition matches (p : Page) (sel : Selector) (n : nat) : bool :=
  match node p n with Some e => sel e | None => false end.

Definition allIndices (p : Page) : list nat := seq 0 (length (nodes p)).

(** [document.querySelectorAll(sel)] *)
Definition docQueryAll (p : Page) (sel : Selector) : list nat :=
  List.filter (matches p sel) (allIndices p).

Definition docQuery (p : Page) (sel : Selector) : option nat :=
  head (docQueryAll p sel).

(** [root.querySelectorAll(sel)] *)
Definition queryAll (p : Page) (root : nat) (sel : Selector) : list nat :=
  List.filter (fun n => isDescendant p root n && matches p sel n) (allIndices p).

Definition query (p : Page) (root : nat) (sel : Selector) : option nat :=
  head (queryAll p root sel).

Definition getElementById (p : Page) (id : string) : option nat :=
  if Str.isEmpty id then None else docQuery p (attrEq "id" id).

Definition parentOf (p : Page) (n : nat) : option nat :=
  match node p n with Some e => parentElement e | None => None end.

(** [el.previousElementSibling] *)
Definition previousElementSibling (p : Page) (n : nat) : option nat :=
  last (List.filter (fun m => (m <? n) && bool_decide (parentOf p m = parentOf p n))
          (allIndices p)).

Definition innerTextOf (p : Page) (n : nat) : string :=
  match node p n with Some e => innerText e | None => "" end.

(** [x?.innerText?.trim()], with [undefined] read as the empty string *)
Definition trimmedText (p : Page) (o : option nat) : string :=
  match o with Some n => Str.trim (innerTextOf p n) | None => "" end.

(** Tags whose elements expose a [name] property. *)
Definition hasNameProperty (e : Element) : bool :=
  tagIn ["input"; "textarea"; "button"; "select"; "form"; "fieldset"; "output";
         "object"; "iframe"; "img"; "a"; "map"; "meta"; "param"; "slot";
         "embed"; "frame"] e.

(** [el.name], read as empty where the property does not exist *)
Definition nameProp (e : Element) : string :=
  if hasNameProperty e then attrOr e "name" else "".

End Dom.

(** ** Label resolver *)

Definition nonEmpty (s : string) : bool := negb (Str.isEmpty s).

(** [n.innerText || n.textContent || ""] *)
Definition visibleOrRawText (p : Page) (n : nat) : string :=
  match Dom.node p n with
  | Some e => if nonEmpty (innerText e) then innerText e else textContent e
  | None => ""
  end.

(** Text of the elements an [aria-labelledby] list points to. *)
Definition labelledByText (p : Page) (ids : string) : string :=
  Str.trim
    (Str.join " " (map (visibleOrRawText p) (omap (Dom.getElementById p) (Str.words ids)))).

(** First non-empty trimmed [innerText] among [spans]. *)
Fixpoint firstSpanText (p : Page) (spans : list nat) : string :=
  match spans with
  | [] => ""
  | s :: rest =>
      let t := Str.trim (Dom.innerTextOf p s) in
      if nonEmpty t then t else firstSpanText p rest
  end.

(** [getLabelForElement(el)] *)
Definition getLabelForElement (p : Page) (n : nat) : string :=
  match Dom.node p n with
  | None => ""
  | Some e =>
      let id := Dom.attrOr e "id" in
      let byFor :=
        if nonEmpty id then Dom.trimmedText p (Dom.docQuery p (Dom.selLabelFor id)) else "" in
      if nonEmpty byFor then byFor else
      let wrapperLabel := Dom.closest p Dom.selLabel n in
      if nonEmpty (Dom.trimmedText p wrapperLabel) then Dom.trimmedText p wrapperLabel else
      let aria := Dom.attrOr e "aria-label" in
      if nonEmpty aria then Str.trim aria else
      let ariaLabelledBy := Dom.attrOr e "aria-labelledby" in
      let text := if nonEmpty ariaLabelledBy then labelledByText p ariaLabelledBy else "" in
      if nonEmpty text then text else
      let ph := Dom.attrOr e "placeholder" in
      if nonEmpty ph then Str.trim ph else
      let prev := Dom.trimmedText p (Dom.previousElementSibling p n) in
      if nonEmpty prev then prev else
      let span :=
        match wrapperLabel with
        | Some l => firstSpanText p (Dom.queryAll p l Dom.selSpan)
        | None => ""
        end in
      if nonEmpty span then span else
      let heading :=
        match Dom.closest p Dom.selBlock n with
        | Some c => Dom.trimmedText p (Dom.query p c Dom.selHeading)
        | None => ""
        end in
      if nonEmpty heading then heading else
      if nonEmpty (Dom.nameProp e) then Dom.nameProp e else
      if nonEmpty id then id else tagName e
  end.

(** [deriveGroupQuestionFromElement(el)] *)
Definition deriveGroupQuestionFromElement (p : Page) (n : nat) : string :=
  let legend :=
    match Dom.closest p Dom.selFieldset n with
    | Some f => Dom.trimmedText p (Dom.query p f Dom.selLegend)
    | None => ""
    end in
  if nonEmpty legend then legend else
  let container := default (body p) (Dom.closest p Dom.selContainer n) in
  let heading := Dom.trimmedText p (Dom.query p container Dom.selHeading) in
  if nonEmpty heading then heading else getLabelForElement p n.

(** ** Field index *)

Record ChoiceOption : Type := mkOption {
  optEl : nat;
  optLabel : string;
  optId : string
}.

Record ChoiceGroup : Type := mkGroup {
  groupType : string;
  groupQuestion : string;
  groupOptions : list ChoiceOption
}.

Record FieldIndex : Type := mkIndex {
  byId : gmap string nat;
  byLabel : gmap string nat;
  byName : gmap string nat;
  byHtmlId : gmap string nat;
  byPlaceholder : gmap string nat;
  byGroup : gmap string ChoiceGroup;
  byGroupQuestion : gmap string string
}.

Definition emptyIndex : FieldIndex := mkIndex ∅ ∅ ∅ ∅ ∅ ∅ ∅.

(** [if (k && !m.has(k)) m.set(k, v)]: the first claimant keeps the key. *)
Definition claim {V : Type} (k : string) (v : V) (m : gmap string V) : gmap string V :=
  if nonEmpty k
  then match m !! k with Some _ => m | None => <[k := v]> m end
  else m.

Definition normalizeAttr (a : option string) : string := normalizeKey (JStr <$> a).

Definition pushOption (o : ChoiceOption) (g : ChoiceGroup) : ChoiceGroup :=
  mkGroup (groupType g) (groupQuestion g) (groupOptions g ++ [o]).

(** One turn of the loop of [buildFieldIndex]. *)
Definition indexElement (n : nat) (st : FieldIndex * Page) : FieldIndex * Page :=
  let '(ix, p) := st in
  match Dom.node p n with
  | None => st
  | Some e =>
      let fieldId := Dom.attrOr e "data-autoanswer-id" in
      let ids := if nonEmpty fieldId then <[fieldId := n]> (byId ix) else byId ix in
      let label := normalizeKey (Some (JStr (getLabelForElement p n))) in
      let labels := claim label n (byLabel ix) in
      let names := claim (normalizeAttr (Dom.getAttr e "name")) n (byName ix) in
      let htmlIds := claim (normalizeAttr (Dom.getAttr e "id")) n (byHtmlId ix) in
      let placeholders :=
        claim (normalizeAttr (Dom.getAttr e "placeholder")) n (byPlaceholder ix) in
      let p1 :=
        if nonEmpty label then Dom.setAttribute n "data-autoanswer-label" label p else p in
      let groupId := Dom.attrOr e "data-autoanswer-group" in
      if nonEmpty groupId then
        let '(groups, questions) :=
          match byGroup ix !! groupId with
          | Some _ => (byGroup ix, byGroupQuestion ix)
          | None =>
              let type := Str.toLowerCase (Dom.attrOr e "type") in
              let question := deriveGroupQuestionFromElement p1 n in
              let qNorm := normalizeKey (Some (JStr question)) in
              (<[groupId := mkGroup type question []]> (byGroup ix),
               claim qNorm groupId (byGroupQuestion ix))
          end in
        let opt := mkOption n (getLabelForElement p1 n) fieldId in
        (mkIndex ids labels names htmlIds placeholders
           (alter (pushOption opt) groupId groups) questions, p1)
      else
        (mkIndex ids labels names htmlIds placeholders (byGroup ix) (byGroupQuestion ix), p1)
  end.

(** [buildFieldIndex()]: the tagged elements are listed once, then visited
    in document order. *)
Definition buildFieldIndex (p : Page) : FieldIndex * Page :=
  fold_left (fun st n => indexElement n st) (Dom.docQueryAll p Dom.selTagged) (emptyIndex, p).

(** ** Answer matcher for choice groups *)

(** [String(s || "").toLowerCase().replace(/\s+/g, " ").trim()] *)
Definition keepPunctLower (s : option JSON) : string :=
  let raw := match s with
             | Some v => if Js.truthy v then Js.toString v else ""
             | None => ""
             end in
  Str.trim (Str.collapseSpaces (Str.toLowerCase raw)).

(** [(labelNode?.innerText || o.el.parentElement?.innerText || "").trim()] *)
Definition aroundText (p : Page) (o : ChoiceOption) : string :=
  let fromLabel :=
    match Dom.closest p Dom.selLabel (optEl o) with
    | Some l => Dom.innerTextOf p l
    | None => ""
    end in
  let fromParent :=
    match Dom.parentOf p (optEl o) with
    | Some m => Dom.innerTextOf p m
    | None => ""
    end in
  Str.trim (if nonEmpty fromLabel then fromLabel else fromParent).

Definition eitherIncludes (a b : string) : bool := Str.includes a b || Str.includes b a.

(** The tier score one option gets for [val] in the loop of [selectBy]. *)
Definition scoreOf (p : Page) (val : JSON) (o : ChoiceOption) : Z :=
  let exact := Str.trim (Js.toString val) in
  let rawLower := keepPunctLower (Some val) in
  let norm := normalizeKey (Some val) in
  let labelLower := keepPunctLower (Some (JStr (optLabel o))) in
  let lNorm := normalizeKey (Some (JStr (optLabel o))) in
  let around := aroundText p o in
  let aroundLower := keepPunctLower (Some (JStr around)) in
  let aroundNorm := normalizeKey (Some (JStr around)) in
  (if Str.eqb labelLower rawLower then 90
   else if nonEmpty labelLower && eitherIncludes labelLower rawLower then 80
   else if Str.eqb around exact then 78
   else if Str.eqb aroundLower rawLower then 75
   else if Str.eqb lNorm norm then 60
   else if nonEmpty lNorm && eitherIncludes lNorm norm then 50
   else if nonEmpty aroundNorm && eitherIncludes aroundNorm norm then 40
   else 0)%Z.

(** [o.id === val] *)
Definition idIs (val : JSON) (o : ChoiceOption) : bool :=
  match val with
  | JStr s => Str.eqb (optId o) s
  | _ => false
  end.

(** [(o.label || "").trim() === exact] *)
Definition labelIs (val : JSON) (o : ChoiceOption) : bool :=
  Str.eqb (Str.trim (optLabel o)) (Str.trim (Js.toString val)).

(** The [for] loop of [selectBy], with its two early returns. *)
Fixpoint scanOptions (p : Page) (val : JSON) (opts : list ChoiceOption)
    (best : option ChoiceOption) (bestScore : Z) : option ChoiceOption :=
  match opts with
  | [] => best
  | o :: rest =>
      if idIs val o then Some o
      else if labelIs val o then Some o
      else
        let score := scoreOf p val o in
        if (bestScore <? score)%Z
        then scanOptions p val rest (Some o) score
        else scanOptions p val rest best bestScore
  end.

(** The options whose label equals the value up to case and spacing. *)
Definition csCandidates (val : JSON) (opts : list ChoiceOption) : list ChoiceOption :=
  List.filter
    (fun o => Str.eqb (keepPunctLower (Some (JStr (optLabel o)))) (keepPunctLower (Some val)))
    opts.

(** The case-sensitive tie-break that opens [selectBy]. *)
Definition tieBreak (val : JSON) (opts : list ChoiceOption) : option ChoiceOption :=
  let cs := csCandidates val opts in
  if 2 <=? length cs then
    match List.find (labelIs val) cs with
    | Some o => Some o
    | None => List.find (fun o => Str.startsUpper (Str.trim (optLabel o))) cs
    end
  else None.

(** [selectBy(val)] for the options of one group *)
Definition selectBy (p : Page) (opts : list ChoiceOption) (val : JSON) : option ChoiceOption :=
  match val with
  | JNull => None
  | _ =>
      match tieBreak val opts with
      | Some o => Some o
      | None => scanOptions p val opts None (-1)%Z
      end
  end.

(** ** Effects *)

Inductive Outcome (S A : Type) : Type :=
| Returned (s : S) (a : A)
| Threw (s : S) (err : string).

Arguments Returned {S A} s a.
Arguments Threw {S A} s err.

Definition Eff (S A : Type) : Type := S -> Outcome S A.

Definition ret {S A : Type} (a : A) : Eff S A := fun s => Returned s a.

Definition bind {S A B : Type} (m : Eff S A) (k : A -> Eff S B) : Eff S B :=
  fun s => match m s with
           | Returned s' a => k a s'
           | Threw s' err => Threw s' err
           end.

Definition throw {S A : Type} (err : string) : Eff S A := fun s => Threw s err.

Definition gets {S A : Type} (f : S -> A) : Eff S A := fun s => Returned s (f s).

Definition modify {S : Type} (f : S -> S) : Eff S unit := fun s => Returned (f s) tt.

(** [try { m } catch (e) { h(e) }] *)
Definition tryCatch {S A : Type} (m : Eff S A) (h : string -> Eff S A) : Eff S A :=
  fun s => match m s with
           | Returned s' a => Returned s' a
           | Threw s' err => h err s'
           end.

Declare Scope eff_scope.
Delimit Scope eff_scope with eff.
Notation "x <- m ;; k" := (bind m (fun x => k))
  (at level 100, m at next level, right associativity) : eff_scope.
Notation "m ;; k" := (bind m (fun _ => k))
  (at level 100, right associativity) : eff_scope.
Open Scope eff_scope.

(** [l.forEach(f)] and [for (const x of l) f(x)] *)
Fixpoint forEach {S A : Type} (l : list A) (f : A -> Eff S unit) : Eff S unit :=
  match l with
  | [] => ret tt
  | x :: rest => f x ;; forEach rest f
  end.

Definition when {S : Type} (b : bool) (m : Eff S unit) : Eff S unit :=
  if b then m else ret tt.

(** ** Document mutator *)

(** [typeof value === "string" ? value : JSON.stringify(value)];
    [JSON.stringify(undefined)] is [undefined]. *)
Definition renderValue (value : option JSON) : option string :=
  match value with
  | Some (JStr s) => Some s
  | Some v => Some (Js.stringify v)
  | None => None
  end.

(** [setElementValue(el, value, { suppressSubmit })]. Assigning [undefined]
    to [value] stores the text of that word; to [textContent], nothing. *)
Definition setElementValue (el : nat) (value : option JSON) (suppressSubmit : bool)
    (p : Page) : Page :=
  match Dom.node p el with
  | None => p
  | Some e =>
      let v := renderValue value in
      if Dom.tagIn ["textarea"; "input"] e then
        let p1 := Dom.setValue el (default "undefined" v) p in
        let p2 := Dom.dispatchEvent el "input" p1 in
        if negb suppressSubmit then Dom.dispatchEvent el "change" p2 else p2
      else if Dom.hasAttr e "contenteditable" then
        let p1 := Dom.setTextContent el (default "" v) p in
        Dom.dispatchEvent el "input" p1
      else p
  end.

Definition faulty (p : Page) (n : nat) : bool :=
  match Dom.node p n with Some e => checkedFault e | None => false end.

Definition hostFault : string := "Error: checked state rejected".

(** [n.setAttribute("aria-checked", v)] *)
Definition writeAriaChecked (n : nat) (v : string) : Eff Page unit :=
  fun p => if faulty p n then Threw p hostFault
           else Returned (Dom.setAttribute n "aria-checked" v p) tt.

(** [n.checked = b] *)
Definition writeChecked (n : nat) (b : bool) : Eff Page unit :=
  fun p => if faulty p n then Threw p hostFault
           else Returned (Dom.setChecked n b p) tt.

Definition dispatch (n : nat) (ev : string) : Eff Page unit :=
  modify (Dom.dispatchEvent n ev).

Definition isChecked (p : Page) (n : nat) : bool :=
  match Dom.node p n with Some e => checked e | None => false end.

Definition hasRole (p : Page) (n : nat) : bool := Dom.matches p (fun e => Dom.hasAttr e "role") n.

(** The [kind] computed at the head of [ensureChecked]. *)
Definition kindOf (e : Element) : string :=
  let role := Str.toLowerCase (Dom.attrOr e "role") in
  if Str.eqb role "radio" || Str.eqb role "checkbox" then role
  else Str.toLowerCase (Dom.attrOr e "type").

(** The node list [group] of [ensureChecked]: the radios of the same name if
    the target has a name, else the role radios of the closest radiogroup. *)
Definition exclusivitySet (p : Page) (el : nat) : option (list nat) :=
  match Dom.node p el with
  | None => None
  | Some e =>
      let name := Dom.attrOr e "name" in
      if nonEmpty name then Some (Dom.docQueryAll p (Dom.selNamedRadio name))
      else match Dom.closest p Dom.selRadiogroup el with
           | Some g => Some (Dom.queryAll p g Dom.selRoleRadio)
           | None => None
           end
  end.

(** The body of [group.forEach]. *)
Definition clearSibling (el node : nat) : Eff Page unit :=
  if node =? el then ret tt
  else
    role <- gets (fun p => hasRole p node) ;;
    if role then writeAriaChecked node "false" else writeChecked node false.

(** The branch of [ensureChecked] for a control without a [role]. *)
Definition ensureCheckedNative (el : nat) (suppressSubmit : bool) : Eff Page unit :=
  willChange <- gets (fun p => negb (isChecked p el)) ;;
  writeChecked el true ;;
  dispatch el "input" ;;
  if negb suppressSubmit then
    if negb willChange then dispatch el "change"
    else if negb suppressSubmit then dispatch el "change"
    else ret tt
  else ret tt.

(** The branch of [ensureChecked] for a control with a [role]. *)
Definition ensureCheckedRole (el : nat) (suppressSubmit : bool) : Eff Page unit :=
  writeAriaChecked el "true" ;;
  if negb suppressSubmit then dispatch el "click" ;; dispatch el "change"
  else ret tt.

(** [ensureChecked(el, isRadio, { suppressSubmit })] *)
Definition ensureChecked (el : nat) (isRadio suppressSubmit : bool) : Eff Page unit :=
  kind <- gets (fun p => match Dom.node p el with Some e => kindOf e | None => "" end) ;;
  when (Str.eqb kind "radio" || isRadio)
    (group <- gets (fun p => exclusivitySet p el) ;;
     match group with
     | Some g => forEach g (clearSibling el)
     | None => ret tt
     end) ;;
  role <- gets (fun p => hasRole p el) ;;
  if role then ensureCheckedRole el suppressSubmit
  else ensureCheckedNative el suppressSubmit.

(** The observable contract of the native branch, in the spec's words:
    always notify "input"; notify "change" unless suppressed. *)
Definition nativeContract (el : nat) (suppressSubmit : bool) : Eff Page unit :=
  writeChecked el true ;;
  dispatch el "input" ;;
  when (negb suppressSubmit) (dispatch el "change").

(** ** Filling answers *)

(** What [document.querySelector] answers for a selector string supplied
    from outside: no element, an element, or a [SyntaxError]. *)
Inductive QueryResult : Type :=
| NoMatch
| Match (n : nat)
| BadSelector (err : string).

Record FillResult : Type := mkResult {
  filled : nat;
  submitted : bool
}.

(** The variables [fillAnswers] closes over. *)
Record FillState : Type := mkFill {
  page : Page;
  filledCount : nat;
  touchedForms : list nat
}.

Definition liftPage {A : Type} (m : Eff Page A) : Eff FillState A :=
  fun s => match m (page s) with
           | Returned p a => Returned (mkFill p (filledCount s) (touchedForms s)) a
           | Threw p err => Threw (mkFill p (filledCount s) (touchedForms s)) err
           end.

Definition countFilled : Eff FillState unit :=
  modify (fun s => mkFill (page s) (S (filledCount s)) (touchedForms s)).

(** [touchedForms.add(form)]: a set that remembers insertion order. *)
Definition addForm (f : nat) (l : list nat) : list nat :=
  if existsb (Nat.eqb f) l then l else l ++ [f].

(** [const form = el.closest("form"); if (form) touchedForms.add(form)] *)
Definition noteForm (el : nat) : Eff FillState unit :=
  modify (fun s => match Dom.closest (page s) Dom.selForm el with
                   | Some f => mkFill (page s) (filledCount s) (addForm f (touchedForms s))
                   | None => s
                   end).

(** [m.get(k)] on a map with string keys, for any key value *)
Definition mapGet {V : Type} (m : gmap string V) (k : option JSON) : option V :=
  match k with
  | Some (JStr s) => m !! s
  | _ => None
  end.

(** The lookup chain of the object shapes:
    [byId.get(key) || byLabel.get(nk) || byName.get(nk) || byHtmlId.get(nk)
     || byPlaceholder.get(nk)] *)
Definition resolveKey (ix : FieldIndex) (key : string) : option nat :=
  let nk := normalizeKey (Some (JStr key)) in
  match byId ix !! key with
  | Some el => Some el
  | None =>
      match byLabel ix !! nk with
      | Some el => Some el
      | None =>
          match byName ix !! nk with
          | Some el => Some el
          | None =>
              match byHtmlId ix !! nk with
              | Some el => Some el
              | None => byPlaceholder ix !! nk
              end
          end
      end
  end.

(** The group a key of [choices] names: by group id, else by question. *)
Definition resolveGroup (ix : FieldIndex) (groupKey : string) : option ChoiceGroup :=
  match byGroup ix !! groupKey with
  | Some g => Some g
  | None =>
      match byGroupQuestion ix !! normalizeKey (Some (JStr groupKey)) with
      | Some alt => if nonEmpty alt then byGroup ix !! alt else None
      | None => None
      end
  end.

Section Fill.

(** The host's selector engine, for selectors that arrive in the payload. *)
Variable hostQuery : string -> Page -> QueryResult.

(** [options.skipSubmit], already coerced to a boolean. *)
Variable skipSubmit : bool.

Variable ix : FieldIndex.

(** [applyTo(el, value)] *)
Definition applyTo (el : option nat) (value : option JSON) : Eff FillState bool :=
  match el with
  | None => ret false
  | Some n =>
      liftPage (modify (setElementValue n value skipSubmit)) ;;
      countFilled ;;
      noteForm n ;;
      ret true
  end.

(** [document.querySelector(item.selector)] *)
Definition querySelectorExt (sel : JSON) : Eff FillState (option nat) :=
  fun s => match hostQuery (Js.toString sel) (page s) with
           | NoMatch => Returned s None
           | Match n => Returned s (Some n)
           | BadSelector err => Threw s err
           end.

(** One turn of the loop over an ordered list of answers. *)
Definition fillItem (item : JSON) : Eff FillState unit :=
  if negb (Js.truthy item) then ret tt
  else
    let value :=
      Js.coalesce (Js.coalesce (Js.prop item "answer") (Js.prop item "value"))
        (Js.prop item "text") in
    let idKey := Js.or_ (Js.prop item "id") (Js.prop item "fieldId") in
    hitId <- (if Js.truthy' idKey then applyTo (mapGet (byId ix) idKey) value
              else ret false) ;;
    if hitId then ret tt else
    hitSelector <- (match Js.prop item "selector" with
                    | Some sel =>
                        if Js.truthy sel
                        then el <- querySelectorExt sel ;; applyTo el value
                        else ret false
                    | None => ret false
                    end) ;;
    if hitSelector then ret tt else
    let keyLabel := normalizeKey (Js.prop item "label") in
    hitLabel <- (if nonEmpty keyLabel then applyTo (byLabel ix !! keyLabel) value
                 else ret false) ;;
    if hitLabel then ret tt else
    let keyName := normalizeKey (Js.prop item "name") in
    hitName <- (if nonEmpty keyName then applyTo (byName ix !! keyName) value
                else ret false) ;;
    if hitName then ret tt else
    let keyHtmlId := normalizeKey (Js.or_ (Js.prop item "htmlId") (Js.prop item "idAttr")) in
    hitHtmlId <- (if nonEmpty keyHtmlId then applyTo (byHtmlId ix !! keyHtmlId) value
                  else ret false) ;;
    ret tt.

(** Select one option of [g] for [v] and mark it. *)
Definition chooseOption (g : ChoiceGroup) (isRadio : bool) (v : JSON) : Eff FillState unit :=
  opt <- gets (fun s => selectBy (page s) (groupOptions g) v) ;;
  match opt with
  | Some o =>
      liftPage (ensureChecked (optEl o) isRadio skipSubmit) ;;
      countFilled ;;
      noteForm (optEl o)
  | None => ret tt
  end.

(** One turn of the loop over [Object.entries(answers.choices)]. *)
Definition fillChoice (entry : string * JSON) : Eff FillState unit :=
  let '(groupKey, value) := entry in
  match resolveGroup ix groupKey with
  | None => ret tt
  | Some g =>
      match value with
      | JArr vs => forEach vs (chooseOption g false)
      | JStr _ => chooseOption g true value
      | _ => ret tt
      end
  end.

(** One turn of the loops over [answers.fields] and over the flat map. *)
Definition fillEntry (entry : string * JSON) : Eff FillState unit :=
  let '(key, value) := entry in
  match resolveKey ix key with
  | Some el => applyTo (Some el) (Some value) ;; ret tt
  | None => ret tt
  end.

(** [v && typeof v === "object"] *)
Definition isObjectValue (v : option JSON) : bool :=
  match v with
  | Some j => Js.truthy j && Js.isObjectType j
  | None => false
  end.

(** The dispatch of [fillAnswers] on the shape of the payload. *)
Definition fillShapes (answers : JSON) : Eff FillState unit :=
  match answers with
  | JArr items => forEach items fillItem
  | JObj _ =>
      when (isObjectValue (Js.prop answers "choices"))
        (forEach (Js.entries (default JNull (Js.prop answers "choices"))) fillChoice) ;;
      if isObjectValue (Js.prop answers "fields")
      then forEach (Js.entries (default JNull (Js.prop answers "fields"))) fillEntry
      else forEach (Js.entries answers) fillEntry
  | _ => ret tt
  end.

End Fill.

Definition selSubmitType : Dom.Selector := Dom.typeEq "submit".
Definition selButtonLike : Dom.Selector :=
  Dom.either (Dom.tagIn ["button"]) (Dom.both (Dom.tagIn ["input"]) (Dom.typeEq "submit")).

(** [typeof form.submit === "function"]: a control of the form that is named
    [submit] hides the method. *)
Definition submitCallable (p : Page) (form : nat) : bool :=
  match Dom.queryAll p form
          (Dom.both (Dom.tagIn ["input"; "select"; "textarea"; "fieldset"; "object"; "output"])
             (Dom.either (Dom.attrEq "name" "submit") (Dom.attrEq "id" "submit"))) with
  | [] => true
  | _ => false
  end.

(** The submission step that closes [fillAnswers]; nothing in it raises in
    this model, so its [try] never reaches the handler. *)
Definition submitTouched (autoSubmit : option JSON) (skipSubmit : bool) : Eff FillState bool :=
  forms <- gets touchedForms ;;
  if Js.truthy' autoSubmit && negb skipSubmit then
    match forms with
    | form :: _ =>
        p <- gets page ;;
        match Dom.query p form selSubmitType, Dom.query p form selButtonLike with
        | Some b, _ => liftPage (modify (Dom.emit (Click b))) ;; ret true
        | None, Some b => liftPage (modify (Dom.emit (Click b))) ;; ret true
        | None, None =>
            when (submitCallable p form) (liftPage (modify (Dom.emit (Submit form)))) ;;
            ret true
        end
    | [] => ret false
    end
  else ret false.

(** [fillAnswers(answers, { skipSubmit })]; [autoSubmit] is the stored
    setting the function reads. A rejected promise is a [Threw]. *)
Definition fillAnswers (hostQuery : string -> Page -> QueryResult) (autoSubmit : option JSON)
    (answers : option JSON) (skipSubmit : bool) : Eff Page FillResult :=
  fun p =>
    match answers with
    | None => Returned p (mkResult 0 false)
    | Some a =>
        if negb (Js.truthy a) then Returned p (mkResult 0 false)
        else
          let '(ix, p1) := buildFieldIndex p in
          match (fillShapes hostQuery skipSubmit ix a ;;
                 submitTouched autoSubmit skipSubmit) (mkFill p1 0 []) with
          | Returned s sub => Returned (page s) (mkResult (filledCount s) sub)
          | Threw s err => Threw (page s) err
          end
    end.

(** ** Schema builder *)

(** [isVisible(el)] *)
Definition isVisible (p : Page) (n : nat) : bool :=
  match Dom.node p n with Some e => displayed e | None => false end.

(** [isChoiceElementVisible(el)] *)
Definition isChoiceElementVisible (p : Page) (n : nat) : bool :=
  isVisible p n
  || match Dom.closest p Dom.selLabel n with Some l => isVisible p l | None => false end
  || match Dom.parentOf p n with Some c => isVisible p c | None => false end.

(** [text.replace(/\s+/g, " ").trim().slice(0, cap)] *)
Definition squeeze (cap : nat) (text : string) : string :=
  String.substring 0 cap (Str.trim (Str.collapseSpaces text)).

(** [collectPageText()] *)
Definition collectPageText (p : Page) : string :=
  squeeze 20000 (Dom.innerTextOf p (body p)).

(** [a || b] on strings *)
Definition orStr (a b : string) : string := if nonEmpty a then a else b.

(** [generateFieldId(element, index)] *)
Definition generateFieldId (e : Element) (index : nat) : string :=
  let part (tag v : string) := if nonEmpty v then [tag ++ v] else [] in
  Str.join "|"
    (part "id:" (Dom.attrOr e "id")
     ++ part "name:" (Dom.nameProp e)
     ++ part "aria:" (Dom.attrOr e "aria-label")
     ++ part "ph:" (Dom.attrOr e "placeholder")
     ++ ["type:" ++ orStr (Dom.attrOr e "type") (tagName e)]
     ++ ["idx:" ++ Str.ofNat index]).

Record FieldDescriptor : Type := mkField {
  fdId : string;
  fdLabel : string;
  fdName : string;
  fdHtmlId : string;
  fdPlaceholder : string;
  fdType : string
}.

Record OptionDescriptor : Type := mkOptionDescriptor {
  odId : string;
  odLabel : string
}.

Record GroupDescriptor : Type := mkGroupDescriptor {
  gdGroupId : string;
  gdGroupType : string;
  gdQuestion : string;
  gdOptions : list OptionDescriptor
}.

Definition selTextLike : Dom.Selector :=
  Dom.either (Dom.tagIn ["input"; "textarea"])
    (Dom.either (Dom.attrEq "contenteditable" "") (Dom.attrEq "contenteditable" "true")).

Definition allowedTextTypes : list string :=
  ["text"; "search"; "email"; "url"; "password"; "tel"; "number"].

(** The filter that keeps the text candidates of [collectSchema]. *)
Definition isTextCandidate (p : Page) (n : nat) : bool :=
  match Dom.node p n with
  | None => false
  | Some e =>
      if Str.eqb (tagName e) "input" then
        existsb (Str.eqb (Str.toLowerCase (orStr (Dom.attrOr e "type") "text"))) allowedTextTypes
        && displayed e
      else if Str.eqb (tagName e) "textarea" || Dom.hasAttr e "contenteditable"
           then displayed e
           else false
  end.

(** The descriptor of a text control, read after it was tagged. *)
Definition describeField (p : Page) (n : nat) (fieldId : string) : FieldDescriptor :=
  match Dom.node p n with
  | None => mkField fieldId "" "" "" "" ""
  | Some e =>
      mkField fieldId (getLabelForElement p n) (Dom.attrOr e "name") (Dom.attrOr e "id")
        (Dom.attrOr e "placeholder")
        (Str.toLowerCase (orStr (Dom.attrOr e "type") (tagName e)))
  end.

(** [textCandidates.forEach((el, idx) => ...)] *)
Fixpoint tagTextFields (els : list nat) (idx : nat) (p : Page)
    : list FieldDescriptor * Page :=
  match els with
  | [] => ([], p)
  | n :: rest =>
      let fieldId :=
        match Dom.node p n with Some e => generateFieldId e idx | None => "" end in
      let p1 := Dom.setAttribute n "data-autoanswer-id" fieldId p in
      let d := describeField p1 n fieldId in
      let '(ds, p2) := tagTextFields rest (S idx) p1 in
      (d :: ds, p2)
  end.

Definition selChoiceInput : Dom.Selector :=
  Dom.both (Dom.tagIn ["input"]) (Dom.either (Dom.typeEq "radio") (Dom.typeEq "checkbox")).

Definition selChoiceRole : Dom.Selector :=
  Dom.either (Dom.attrEq "role" "radio") (Dom.attrEq "role" "checkbox").

Definition legendOf (p : Page) (n : nat) : string :=
  match Dom.closest p Dom.selFieldset n with
  | Some f => Dom.trimmedText p (Dom.query p f Dom.selLegend)
  | None => ""
  end.

(** Heading of the closest section, div, form or table, or of [fallback]
    ([None] for the document itself) when there is none. *)
Definition headingNear (p : Page) (fallback : option nat) (n : nat) : string :=
  match Dom.closest p Dom.selContainer n, fallback with
  | Some c, _ => Dom.trimmedText p (Dom.query p c Dom.selHeading)
  | None, Some c => Dom.trimmedText p (Dom.query p c Dom.selHeading)
  | None, None => Dom.trimmedText p (Dom.docQuery p Dom.selHeading)
  end.

(** [findGroupKey(el)] of [collectSchema] *)
Definition findGroupKey (p : Page) (n : nat) : string :=
  match Dom.node p n with
  | None => ":group"
  | Some e =>
      let ariaGroupLabel :=
        match Dom.closest p Dom.selRadiogroup n with
        | Some rg =>
            match Dom.node p rg with
            | Some r => orStr (Dom.attrOr r "aria-label") (Dom.attrOr r "aria-labelledby")
            | None => ""
            end
        | None => ""
        end in
      let base :=
        orStr (Dom.attrOr e "name")
          (orStr ariaGroupLabel
             (orStr (legendOf p n)
                (orStr (headingNear p (Some (body p)) n)
                   (orStr (getLabelForElement p n) "group")))) in
      kindOf e ++ ":" ++ base
  end.

(** [findGroupKey(el)] of [fillSelectionChoicesIfAny] *)
Definition findSelectionGroupKey (p : Page) (n : nat) : string :=
  match Dom.node p n with
  | None => ":group"
  | Some e =>
      let base :=
        orStr (Dom.attrOr e "name")
          (orStr (legendOf p n)
             (orStr (headingNear p (Some (body p)) n)
                (orStr (getLabelForElement p n) "group"))) in
      Str.toLowerCase (Dom.attrOr e "type") ++ ":" ++ base
  end.

(** [if (!m.has(key)) m.set(key, []); m.get(key).push(el)] on a map that
    keeps insertion order *)
Fixpoint groupPush (key : string) (n : nat) (m : list (string * list nat))
    : list (string * list nat) :=
  match m with
  | [] => [(key, [n])]
  | (k, els) :: rest =>
      if Str.eqb k key then (k, (els ++ [n])%list) :: rest else (k, els) :: groupPush key n rest
  end.

Definition groupElements (keyOf : nat -> string) (els : list nat) : list (string * list nat) :=
  fold_left (fun m n => groupPush (keyOf n) n m) els [].

(** [key.split(":")[0]] *)
Fixpoint beforeColon (s : string) : string :=
  match s with
  | EmptyString => EmptyString
  | String c s' => if Str.code c =? 58 then EmptyString else String c (beforeColon s')
  end.

Definition valueOf (p : Page) (n : nat) : string :=
  match Dom.node p n with Some e => value e | None => "" end.

(** The label of an option in [collectSchema]. *)
Definition schemaOptionLabel (p : Page) (n i : nat) : string :=
  match Dom.node p n with
  | None => ""
  | Some e =>
      orStr (getLabelForElement p n)
        (orStr (Dom.attrOr e "aria-label")
           (orStr (Str.trim (textContent e))
              (orStr (value e) ("Option " ++ Str.ofNat (S i)))))
  end.

(** The label of an option in [fillSelectionChoicesIfAny]. *)
Definition selectionOptionLabel (p : Page) (n i : nat) : string :=
  orStr (getLabelForElement p n) (orStr (valueOf p n) ("Option " ++ Str.ofNat (S i))).

(** [els.map((el, i) => ...)]: tag every option of a group and describe it. *)
Fixpoint tagOptions (labelOf : Page -> nat -> nat -> string) (groupId : string)
    (els : list nat) (i : nat) (p : Page) : list OptionDescriptor * Page :=
  match els with
  | [] => ([], p)
  | n :: rest =>
      let optId := match Dom.node p n with Some e => generateFieldId e i | None => "" end in
      let p1 := Dom.setAttribute n "data-autoanswer-id" optId p in
      let p2 := Dom.setAttribute n "data-autoanswer-group" groupId p1 in
      let d := mkOptionDescriptor optId (labelOf p2 n i) in
      let '(ds, p3) := tagOptions labelOf groupId rest (S i) p2 in
      (d :: ds, p3)
  end.

(** The loop over [groupMap.entries()]; [fallback] is the container the
    heading search falls back to and [prefix] starts the group ids. *)
Fixpoint buildGroups (labelOf : Page -> nat -> nat -> string) (prefix : string)
    (fallback : option nat) (m : list (string * list nat)) (idx : nat) (p : Page)
    : list GroupDescriptor * Page :=
  match m with
  | [] => ([], p)
  | (key, els) :: rest =>
      match els with
      | [] => buildGroups labelOf prefix fallback rest idx p
      | first :: _ =>
          let kind := beforeColon key in
          let question :=
            orStr (legendOf p first)
              (orStr (headingNear p fallback first) (getLabelForElement p first)) in
          let groupId := prefix ++ kind ++ ":" ++ Str.ofNat idx in
          let '(options, p1) := tagOptions labelOf groupId els 0 p in
          let g := mkGroupDescriptor groupId
                     (if Str.eqb kind "radio" then "radio" else "checkbox") question options in
          let '(gs, p2) := buildGroups labelOf prefix fallback rest (S idx) p1 in
          (g :: gs, p2)
      end
  end.

(** [collectChoiceGroupsInContainer(document)] *)
Definition collectChoiceGroups (p : Page) : list GroupDescriptor * Page :=
  let elements :=
    List.filter (isChoiceElementVisible p)
      (Dom.docQueryAll p selChoiceInput ++ Dom.docQueryAll p selChoiceRole) in
  buildGroups schemaOptionLabel "group:" None
    (groupElements (findGroupKey p) elements) 0 p.

(** [collectSchema()] *)
Definition collectSchema (p : Page)
    : (list FieldDescriptor * list GroupDescriptor) * Page :=
  let textCandidates := List.filter (isTextCandidate p) (Dom.docQueryAll p selTextLike) in
  let '(textFields, p1) := tagTextFields textCandidates 0 p in
  let '(choiceGroups, p2) := collectChoiceGroups p1 in
  ((textFields, choiceGroups), p2).

(** ** Capture orchestrator *)

Inductive InputDescriptor : Type :=
| TextInput (f : FieldDescriptor)
| GroupInput (g : GroupDescriptor).

(** The messages the content script sends to the background. *)
Inductive Request : Type :=
| CallAi (pageText : string) (inputs : list InputDescriptor) (includeScreenshot : bool)
| CallAiFocused (pageText : string) (focused : FieldDescriptor)
| CallAiChoicesForSelection (selectionText : string) (groups : list GroupDescriptor).

(** What [chrome.runtime.sendMessage] settles to: a rejection, or the
    response object (possibly [undefined]). *)
Inductive Reply : Type :=
| Rejected (err : string)
| Replied (response : option JSON).

(** The page together with the requests sent so far. *)
Record World : Type := mkWorld {
  wPage : Page;
  sent : list Request
}.

(** The four strategies, by the request each one sends. *)
Inductive Strategy : Type :=
| SelectionScoped
| ViewportScoped
| FocusScoped
| FullPage.

(** What the listener passes to [sendResponse]. *)
Inductive Response : Type :=
| Success (result : FillResult)
| Failure (error : string).

Record Message : Type := mkMessage {
  msgType : string;
  msgIncludeScreenshot : bool;
  msgSkipSubmit : bool
}.

Definition liftWorld {A : Type} (m : Eff Page A) : Eff World A :=
  fun w => match m (wPage w) with
           | Returned p a => Returned (mkWorld p (sent w)) a
           | Threw p err => Threw (mkWorld p (sent w)) err
           end.

(** A function that updates the page and returns a value. *)
Definition onPage {A : Type} (f : Page -> A * Page) : Eff World A :=
  fun w => let '(a, p) := f (wPage w) in Returned (mkWorld p (sent w)) a.

Definition selStructuralBlock : Dom.Selector :=
  Dom.tagIn ["fieldset"; "section"; "article"; "li"; "div"; "form"; "table"].

(** [(block.innerText || "").replace(/\s+/g, " ").trim().slice(0, 4000)] *)
Definition blockText (p : Page) (block : nat) : string :=
  squeeze 4000 (Dom.innerTextOf p block).

(** [document.querySelector('[data-autoanswer-id="..."]')] for the first
    option of a group *)
Definition firstOptionElement (p : Page) (g : GroupDescriptor) : option nat :=
  match gdOptions g with
  | o :: _ =>
      if nonEmpty (odId o) then Dom.docQuery p (Dom.attrEq "data-autoanswer-id" (odId o))
      else None
  | [] => None
  end.

(** Distance of the element's middle from the middle of the viewport. *)
Definition centerDistance (p : Page) (n : nat) : Z :=
  match Dom.node p n with
  | Some e => Z.abs (midline e - viewportCenter p)
  | None => 0%Z
  end.

(** Insertion before the first element that is not nearer: with
    [fold_right] this is a stable sort, as [Array.prototype.sort] is. *)
Fixpoint insertByDistance (p : Page) (x : GroupDescriptor * nat)
    (l : list (GroupDescriptor * nat)) : list (GroupDescriptor * nat) :=
  match l with
  | [] => [x]
  | y :: rest =>
      if (centerDistance p (snd x) <=? centerDistance p (snd y))%Z
      then x :: l
      else y :: insertByDistance p x rest
  end.

Definition sortByDistance (p : Page) (l : list (GroupDescriptor * nat))
    : list (GroupDescriptor * nat) :=
  fold_right (insertByDistance p) [] l.

Section Orchestrator.

Variable hostQuery : string -> Page -> QueryResult.

(** The stored [autoSubmit] setting. *)
Variable autoSubmit : option JSON.

(** The background page and the provider behind it, which may answer a
    request differently depending on what was sent before. *)
Variable provider : list Request -> Request -> Reply.

(** [await chrome.runtime.sendMessage(req)] *)
Definition sendMessage (req : Request) : Eff World (option JSON) :=
  fun w =>
    let w' := mkWorld (wPage w) (sent w ++ [req]) in
    match provider (sent w) req with
    | Rejected err => Threw w' err
    | Replied r => Returned w' r
    end.

Definition propOf (r : option JSON) (k : string) : option JSON :=
  match r with Some v => Js.prop v k | None => None end.

(** [if (!response?.ok) throw new Error(response?.error || fallback)];
    the exception is kept as the text [String(err)] gives. *)
Definition requireOk (fallback : string) (response : option JSON) : Eff World unit :=
  if Js.truthy' (propOf response "ok") then ret tt
  else
    let message :=
      match propOf response "error" with
      | Some e => if Js.truthy e then Js.toString e else fallback
      | None => fallback
      end in
    throw ("Error: " ++ message).

(** [fillAnswers({ choices }, { skipSubmit })] *)
Definition fillChoicesOnly (response : option JSON) (skipSubmit : bool) : Eff World FillResult :=
  let choices := default (JObj []) (Js.or_ (propOf response "choices") (Some (JObj []))) in
  liftWorld (fillAnswers hostQuery autoSubmit (Some (JObj [("choices", choices)])) skipSubmit).

(** The body of the [try] of [fillSelectionChoicesIfAny]. *)
Definition selectionBody (skipSubmit : bool) : Eff World bool :=
  container <- gets (fun w => selectionContainer (wPage w)) ;;
  match container with
  | None => ret false
  | Some c =>
      block <- gets (fun w => default c (Dom.closest (wPage w) selStructuralBlock c)) ;;
      inputs <- gets (fun w => List.filter (isVisible (wPage w))
                                 (Dom.queryAll (wPage w) block selChoiceInput)) ;;
      match inputs with
      | [] => ret false
      | _ =>
          choiceGroups <-
            onPage (fun p => buildGroups selectionOptionLabel "sel:" (Some block)
                               (groupElements (findSelectionGroupKey p) inputs) 0 p) ;;
          match choiceGroups with
          | [] => ret false
          | _ =>
              selectionText <- gets (fun w => blockText (wPage w) block) ;;
              response <- sendMessage (CallAiChoicesForSelection selectionText choiceGroups) ;;
              requireOk "AI selection request failed" response ;;
              fillRes <- fillChoicesOnly response skipSubmit ;;
              ret (0 <? filled fillRes)
          end
      end
  end.

(** [fillSelectionChoicesIfAny(skipSubmit)] *)
Definition fillSelectionChoicesIfAny (skipSubmit : bool) : Eff World bool :=
  tryCatch (selectionBody skipSubmit) (fun _ => ret false).

(** The visible groups with the element of their first option. *)
Definition groupInfo (p : Page) (groups : list GroupDescriptor)
    : list (GroupDescriptor * nat) :=
  omap (fun g => match firstOptionElement p g with
                 | Some el => if isVisible p el then Some (g, el) else None
                 | None => None
                 end) groups.

(** The body of the [try] of [fillViewportChoicesIfAny]. *)
Definition viewportBody (skipSubmit : bool) : Eff World bool :=
  schema <- onPage collectSchema ;;
  match snd schema with
  | [] => ret false
  | choiceGroups =>
      ranked <- gets (fun w => sortByDistance (wPage w) (groupInfo (wPage w) choiceGroups)) ;;
      match ranked with
      | [] => ret false
      | (bestGroup, bestEl) :: _ =>
          selectionText <-
            gets (fun w =>
                    let p := wPage w in
                    blockText p (default (body p) (Dom.closest p selStructuralBlock bestEl))) ;;
          response <- sendMessage (CallAiChoicesForSelection selectionText [bestGroup]) ;;
          requireOk "AI viewport selection request failed" response ;;
          fillRes <- fillChoicesOnly response skipSubmit ;;
          ret (0 <? filled fillRes)
      end
  end.

(** [fillViewportChoicesIfAny(skipSubmit)] *)
Definition fillViewportChoicesIfAny (skipSubmit : bool) : Eff World bool :=
  tryCatch (viewportBody skipSubmit) (fun _ => ret false).

(** The focused element when it is an input, a textarea or editable. *)
Definition focusTarget (p : Page) : option nat :=
  match activeElement p with
  | Some a =>
      if Dom.matches p (Dom.either (Dom.tagIn ["input"; "textarea"])
                          (fun e => Dom.hasAttr e "contenteditable")) a
      then Some a else None
  | None => None
  end.

(** [fillFocusedFieldIfAny()] *)
Definition fillFocusedFieldIfAny : Eff World bool :=
  target <- gets (fun w => focusTarget (wPage w)) ;;
  match target with
  | None => ret false
  | Some t =>
      pageText <- gets (fun w => collectPageText (wPage w)) ;;
      fieldId <- gets (fun w => match Dom.node (wPage w) t with
                                | Some e => generateFieldId e 0
                                | None => ""
                                end) ;;
      liftWorld (modify (Dom.setAttribute t "data-autoanswer-id" fieldId)) ;;
      descriptor <- gets (fun w => describeField (wPage w) t fieldId) ;;
      resp <- sendMessage (CallAiFocused pageText descriptor) ;;
      requireOk "AI focused request failed" resp ;;
      liftWorld (modify (setElementValue t
                           (Js.or_ (propOf resp "answer") (Some (JStr ""))) false)) ;;
      ret true
  end.

(** The text and inputs [captureAndFill] sends: when only choice groups were
    found, the text of the block around the first option replaces the page
    text (if it is not empty) and only the groups are sent. *)
Definition fullPageRequest (p : Page) (pageText : string)
    (textFields : list FieldDescriptor) (choiceGroups : list GroupDescriptor)
    (includeScreenshot : bool) : Request :=
  let groupInputs := map GroupInput choiceGroups in
  match textFields, choiceGroups with
  | [], g :: _ =>
      let block :=
        match firstOptionElement p g with
        | Some el => default (body p) (Dom.closest p selStructuralBlock el)
        | None => body p
        end in
      CallAi (orStr (blockText p block) pageText) groupInputs includeScreenshot
  | _, _ =>
      CallAi pageText (map TextInput textFields ++ groupInputs) includeScreenshot
  end.

(** [captureAndFill(includeScreenshot, skipSubmit)] *)
Definition captureAndFill (includeScreenshot skipSubmit : bool) : Eff World FillResult :=
  pageText <- gets (fun w => collectPageText (wPage w)) ;;
  schema <- onPage collectSchema ;;
  req <- gets (fun w => fullPageRequest (wPage w) pageText (fst schema) (snd schema)
                          includeScreenshot) ;;
  response <- sendMessage req ;;
  requireOk "AI request failed" response ;;
  liftWorld (fillAnswers hostQuery autoSubmit (propOf response "answers") skipSubmit).

Definition filledOne : FillResult := mkResult 1 false.

(** The [try] of the message listener for a [captureAndFill] message. *)
Definition runStrategies (message : Message) : Eff World Response :=
  selResult <- fillSelectionChoicesIfAny (msgSkipSubmit message) ;;
  if selResult then ret (Success filledOne)
  else
    viewResult <- fillViewportChoicesIfAny (msgSkipSubmit message) ;;
    if viewResult then ret (Success filledOne)
    else
      focusedResult <- fillFocusedFieldIfAny ;;
      if focusedResult then ret (Success filledOne)
      else
        result <- captureAndFill (msgIncludeScreenshot message) (msgSkipSubmit message) ;;
        ret (Success result).

(** The listener: what is passed to [sendResponse], if anything, and the
    world it leaves. *)
Definition onMessage (message : Message) : Eff World (option Response) :=
  if Str.eqb (msgType message) "captureAndFill" then
    tryCatch (r <- runStrategies message ;; ret (Some r))
      (fun err => ret (Some (Failure err)))
  else ret None.

End Orchestrator.

(** The strategy a request belongs to. A choice request comes from the
    selection strategy when its groups carry [sel:] ids and from the viewport
    strategy otherwise. *)
Definition strategyOf (r : Request) : Strategy :=
  match r with
  | CallAi _ _ _ => FullPage
  | CallAiFocused _ _ => FocusScoped
  | CallAiChoicesForSelection _ (g :: _) =>
      if String.prefix "sel:" (gdGroupId g) then SelectionScoped else ViewportScoped
  | CallAiChoicesForSelection _ [] => ViewportScoped
  end.

(** A reply that makes [requireOk] raise, or raises by itself. *)
Definition refuses (r : Reply) : bool :=
  match r with
  | Rejected _ => true
  | Replied (Some v) => negb (Js.truthy' (Js.prop v "ok"))
  | Replied None => true
  end.

(** ** Background page: default settings, log buffer, reply parsing

    A shallow embedding of three functions of
    [ChromeExtension/extension/background.js]. [chrome.storage.sync] is the
    map of the stored items, in which a key that was never set reads as
    [undefined]; [JSON.parse] and the clock are parameters; a failing
    storage call is not modelled. *)

Module Background.

Definition defaults : list (string * JSON) :=
  [ ("autoSubmit", JBool false);
    ("apiProvider", JStr "openai");
    ("openaiApiKey", JStr "");
    ("openaiModel", JStr "gpt-4o-mini");
    ("geminiApiKey", JStr "");
    ("geminiModel", JStr "gemini-1.5-flash") ].

(** The loop that fills [toSet]: [if (existing[k] === undefined) toSet[k] = v]. *)
Definition missingDefaults (existing : gmap string JSON) : list (string * JSON) :=
  List.filter (fun kv => match existing !! fst kv with Some _ => false | None => true end)
    defaults.

(** [chrome.storage.sync.set(items)] *)
Definition storageSet (items : list (string * JSON)) (st : gmap string JSON) : gmap string JSON :=
  fold_left (fun m kv => <[fst kv := snd kv]> m) items st.

(** The [onInstalled] listener. *)
Definition onInstalled (st : gmap string JSON) : gmap string JSON :=
  match missingDefaults st with
  | [] => st
  | toSet => storageSet toSet st
  end.






Section Extract.

(** [JSON.parse]; [None] when it raises. *)
Variable parse : string -> option JSON.

(** [try { parsed = JSON.parse(s); if (parsed && typeof parsed === "object")
    return parsed } catch (_) {}] *)
Definition parsedObject (s : string) : option JSON :=
  match parse s with
  | Some v => if Js.truthy v && Js.isObjectType v then Some v else None
  | None => None
  end.

(** The inner loop from [text[start]] on: the slice up to the first
    character after which the depth is 0, if there is one. *)
Fixpoint balancedSlice (depth : Z) (s : string) : option string :=
  match s with
  | EmptyString => None
  | String ch s' =>
      let depth' :=
        if Str.code ch =? 123 then (depth + 1)%Z
        else if Str.code ch =? 125 then (depth - 1)%Z
        else depth in
      if (depth' =? 0)%Z then Some (String ch EmptyString)
      else String ch <$> balancedSlice depth' s'
  end.

(** The outer loop: every opening brace of [s], from left to right, is a
    possible start. *)
Fixpoint searchObject (s : string) : option JSON :=
  match s with
  | EmptyString => None
  | String ch s' =>
      if Str.code ch =? 123 then
        match balancedSlice 0 s with
        | Some candidate =>
            match parsedObject candidate with
            | Some v => Some v
            | None => searchObject s'
            end
        | None => searchObject s'
        end
      else searchObject s'
  end.

(** [extractJsonObjectFromText(text)] for a string [text] *)
Definition extractJsonObjectFromText (text : string) : option JSON :=
  if Str.isEmpty text then None
  else match parsedObject text with
       | Some v => Some v
       | None => searchObject text
       end.

End Extract.

End Background.

(** ** Sample documents *)

Module Sample.

Definition elem (tag : string) (attrs : list (string * string)) (parent : option nat)
    (text : string) : Element :=
  mkElement tag attrs parent text text "" false true 0%Z false.

Definition pageOf (els : list Element) : Page := mkPage els 0 None None 0%Z [].

(** A tagged option of group [group:<kind>:0]. *)
Definition choice (kind : string) (attrs : list (string * string)) (id : string)
    (parent : nat) : Element :=
  elem "input"
    (("type", kind) :: attrs
     ++ [("data-autoanswer-id", id);
         ("data-autoanswer-group", ("group:" ++ kind ++ ":0")%string)])%list
    (Some parent) "".

Definition checkedAs (b : bool) (e : Element) : Element := Dom.withChecked b e.

Definition noQuery : string -> Page -> QueryResult := fun _ _ => NoMatch.

(** Three radios of one name, each inside its label. *)
Definition colors : Page :=
  pageOf
    [ elem "body" [] None "Red Green Blue";
      elem "form" [] (Some 0) "Red Green Blue";
      elem "label" [] (Some 1) "Red";
      choice "radio" [("name", "color")] "name:color|type:radio|idx:0" 2;
      elem "label" [] (Some 1) "Green";
      choice "radio" [("name", "color")] "name:color|type:radio|idx:1" 4;
      elem "label" [] (Some 1) "Blue";
      choice "radio" [("name", "color")] "name:color|type:radio|idx:2" 6 ].

(** Two radios without a name under one heading; the first is checked. *)
Definition nameless : Page :=
  pageOf
    [ elem "body" [] None "Agree? Yes No";
      elem "div" [] (Some 0) "Agree? Yes No";
      elem "h3" [] (Some 1) "Agree?";
      elem "label" [] (Some 1) "Yes";
      checkedAs true (choice "radio" [] "type:radio|idx:0" 3);
      elem "label" [] (Some 1) "No";
      choice "radio" [] "type:radio|idx:1" 5 ].

(** An editable block that was tagged as a text field. *)
Definition editable : Page :=
  pageOf
    [ elem "body" [] None "Notes";
      elem "div" [("contenteditable", "true"); ("aria-label", "Notes");
                  ("data-autoanswer-id", "aria:Notes|type:div|idx:0")] (Some 0) "" ].

(** A text input known by its accessible name and its placeholder. *)
Definition email : Page :=
  pageOf
    [ elem "body" [] None "";
      elem "input" [("type", "email"); ("aria-label", "Your email");
                    ("placeholder", "you@example.com");
                    ("data-autoanswer-id", "aria:Your email|ph:you@example.com|type:email|idx:0")]
        (Some 0) "" ].

(** A text input named [choices] next to the radios. *)
Definition survey : Page :=
  pageOf
    [ elem "body" [] None "Red Green";
      elem "form" [] (Some 0) "Red Green";
      elem "label" [] (Some 1) "Red";
      choice "radio" [("name", "color")] "name:color|type:radio|idx:0" 2;
      elem "label" [] (Some 1) "Green";
      choice "radio" [("name", "color")] "name:color|type:radio|idx:1" 4;
      elem "input" [("type", "text"); ("name", "choices"); ("aria-label", "Other");
                    ("data-autoanswer-id", "name:choices|aria:Other|type:text|idx:0")]
        (Some 1) "" ].

(** Two checkboxes; the host raises when the first one is written. *)
Definition guarded : Page :=
  pageOf
    [ elem "body" [] None "Tea Milk";
      elem "label" [] (Some 0) "Tea";
      mkElement "input"
        [("type", "checkbox"); ("name", "drink");
         ("data-autoanswer-id", "name:drink|type:checkbox|idx:0");
         ("data-autoanswer-group", "group:checkbox:0")]
        (Some 1) "" "" "on" false true 0%Z true;
      elem "label" [] (Some 0) "Milk";
      choice "checkbox" [("name", "drink")] "name:drink|type:checkbox|idx:1" 3 ].

(** A page whose only control is a focused text input. *)
Definition focused : World :=
  mkWorld
    (mkPage
       [ elem "body" [] None "Name";
         elem "input" [("type", "text"); ("name", "who")] (Some 0) "" ]
       0 (Some 1) None 0%Z [])
    [].


Definition captureMessage : Message := mkMessage "captureAndFill" false false.

Definition opt (el : nat) (label id : string) : ChoiceOption := mkOption el label id.

(** The options ["Yes", "yes, please"]. *)
Definition yesNo : list ChoiceOption :=
  [ opt 1 "Yes" "type:radio|idx:0"; opt 2 "yes, please" "type:radio|idx:1" ].


Definition bare : Page :=
  pageOf [ elem "body" [] None ""; elem "input" [] (Some 0) "";
           elem "input" [] (Some 0) ""; elem "input" [] (Some 0) "" ].

(** The options the index holds for [colors]. *)
Definition colorOptions : list ChoiceOption :=
  [ opt 3 "Red" "name:color|type:radio|idx:0";
    opt 5 "Green" "name:color|type:radio|idx:1";
    opt 7 "Blue" "name:color|type:radio|idx:2" ].



(** Payloads. *)
Definition pick (group value : string) : JSON :=
  JObj [("choices", JObj [(group, JStr value)])].


Definition unknownKeys : JSON :=
  JObj [("fields", JObj [("id:phone|type:tel|idx:9", JStr "555")]);
        ("choices", JObj [("group:radio:7", JStr "Red")])].

Definition byPlaceholderItem : JSON :=
  JObj [("placeholder", JStr "you@example.com"); ("answer", JStr "a@b.c")].

Definition byLabelItem : JSON :=
  JObj [("label", JStr "Your email:"); ("answer", JStr "a@b.c")].


(** Two questions, each with two radios that have neither a name nor an
    id, before any tagging. *)
Definition quiz : Page :=
  pageOf
    [ elem "body" [] None "Q1 Yes No Q2 Yes No";
      elem "div" [] (Some 0) "Q1 Yes No";
      elem "h3" [] (Some 1) "Q1";
      elem "input" [("type", "radio")] (Some 1) "";
      elem "input" [("type", "radio")] (Some 1) "";
      elem "div" [] (Some 0) "Q2 Yes No";
      elem "h3" [] (Some 5) "Q2";
      elem "input" [("type", "radio")] (Some 5) "";
      elem "input" [("type", "radio")] (Some 5) "" ].

(** A provider that accepts every request and answers [Ada]. *)
Definition answering : list Request -> Request -> Reply :=
  fun _ _ => Replied (Some (JObj [("ok", JBool true); ("answer", JStr "Ada")])).

(** A provider that accepts every request and answers nothing. *)
Definition silent : list Request -> Request -> Reply :=
  fun _ _ => Replied (Some (JObj [("ok", JBool true)])).

(** A parser that accepts the text of the empty object alone. *)
Definition bracesOnly (s : string) : option JSON :=
  if Str.eqb s "{}" then Some (JObj []) else None.

End Sample.

(** ** Vocabulary of the statements *)

(** Case folding and space collapsing, as [keepPunctLower] does to a
    string. *)
Definition foldCase (s : string) : string :=
  Str.trim (Str.collapseSpaces (Str.toLowerCase s)).


(** The option matches the value by identifier or by exact label. *)
Definition exactHit (val : JSON) (o : ChoiceOption) : bool := idIs val o || labelIs val o.


Definition markEffect (p : Page) (el : nat) : Effect :=
  if hasRole p el then SetAttribute el "aria-checked" "true" else SetChecked el true.

(** The events [ensureChecked] dispatches on the target. *)
Definition notifications (p : Page) (el : nat) (suppressSubmit : bool) : list Effect :=
  if hasRole p el
  then if suppressSubmit then [] else [DispatchEvent el "click"; DispatchEvent el "change"]
  else (DispatchEvent el "input" :: if suppressSubmit then [] else [DispatchEvent el "change"])%list.

Definition ariaChecked (p : Page) (n : nat) : option string :=
  match Dom.node p n with Some e => Dom.getAttr e "aria-checked" | None => None end.

(** The control reads as selected: [aria-checked="true"] with a role,
    [checked] without. *)
Definition selected (p : Page) (n : nat) : bool :=
  if hasRole p n then bool_decide (ariaChecked p n = Some "true") else isChecked p n.

Definition deselected (p : Page) (n : nat) : bool :=
  if hasRole p n then bool_decide (ariaChecked p n = Some "false") else negb (isChecked p n).


(** Roles, faults and the set of nodes are the same in both pages. *)
Definition sameControls (p q : Page) : Prop :=
  forall m, hasRole q m = hasRole p m /\ faulty q m = faulty p m
            /\ (Dom.node q m = None <-> Dom.node p m = None).

Definition isNone {A : Type} (o : option A) : bool :=
  match o with Some _ => false | None => true end.

(** A key that is empty, or that the map does not hold. *)
Definition keyMisses (m : gmap string nat) (k : string) : bool :=
  negb (nonEmpty k) || isNone (m !! k).

(** Every reference an item of the ordered list makes misses. *)
Definition itemMisses (hostQuery : string -> Page -> QueryResult) (ix : FieldIndex)
    (p : Page) (item : JSON) : bool :=
  negb (Js.truthy item)
  || (let idKey := Js.or_ (Js.prop item "id") (Js.prop item "fieldId") in
      (negb (Js.truthy' idKey) || isNone (mapGet (byId ix) idKey))
      && match Js.prop item "selector" with
         | Some sel =>
             negb (Js.truthy sel)
             || match hostQuery (Js.toString sel) p with NoMatch => true | _ => false end
         | None => true
         end
      && keyMisses (byLabel ix) (normalizeKey (Js.prop item "label"))
      && keyMisses (byName ix) (normalizeKey (Js.prop item "name"))
      && keyMisses (byHtmlId ix)
           (normalizeKey (Js.or_ (Js.prop item "htmlId") (Js.prop item "idAttr")))).

(** Every reference of the payload is absent from the index. *)
Definition absentFromIndex (hostQuery : string -> Page -> QueryResult) (ix : FieldIndex)
    (p : Page) (answers : JSON) : bool :=
  match answers with
  | JArr items => forallb (itemMisses hostQuery ix p) items
  | JObj _ =>
      (if isObjectValue (Js.prop answers "choices")
       then forallb (fun e => isNone (resolveGroup ix (fst e)))
              (Js.entries (default JNull (Js.prop answers "choices")))
       else true)
      && forallb (fun e => isNone (resolveKey ix (fst e)))
           (Js.entries (if isObjectValue (Js.prop answers "fields")
                        then default JNull (Js.prop answers "fields")
                        else answers))
  | _ => true
  end.

(** The first lookup that finds an element, from left to right. *)
Fixpoint firstHit (l : list (option nat)) : option nat :=
  match l with
  | [] => None
  | Some n :: _ => Some n
  | None :: rest => firstHit rest
  end.

(** A lookup that is made only for a key that is not empty. *)
Definition lookupKey (m : gmap string nat) (k : string) : option nat :=
  if nonEmpty k then m !! k else None.

Definition selectorOf (item : JSON) : option JSON :=
  match Js.prop item "selector" with
  | Some sel => if Js.truthy sel then Some sel else None
  | None => None
  end.

(** The resolution order of an item of the ordered list, written as a list
    of lookups: identifier, selector, label, name, html id. *)
Definition resolveItem (hostQuery : string -> Page -> QueryResult) (ix : FieldIndex)
    (p : Page) (item : JSON) : option nat :=
  let idKey := Js.or_ (Js.prop item "id") (Js.prop item "fieldId") in
  firstHit
    [ if Js.truthy' idKey then mapGet (byId ix) idKey else None;
      match selectorOf item with
      | Some sel => match hostQuery (Js.toString sel) p with Match n => Some n | _ => None end
      | None => None
      end;
      lookupKey (byLabel ix) (normalizeKey (Js.prop item "label"));
      lookupKey (byName ix) (normalizeKey (Js.prop item "name"));
      lookupKey (byHtmlId ix)
        (normalizeKey (Js.or_ (Js.prop item "htmlId") (Js.prop item "idAttr"))) ].

(** The resolution order of a key of [fields] or of the flat map, written
    as a list of lookups: identifier, label, name, html id, placeholder. *)
Definition resolveEntry (ix : FieldIndex) (key : string) : option nat :=
  let nk := normalizeKey (Some (JStr key)) in
  firstHit [ byId ix !! key; byLabel ix !! nk; byName ix !! nk; byHtmlId ix !! nk;
             byPlaceholder ix !! nk ].

(** The item's selector, if it has one, is accepted by the host. *)
Definition selectorAccepted (hostQuery : string -> Page -> QueryResult) (p : Page)
    (item : JSON) : bool :=
  match selectorOf item with
  | Some sel => match hostQuery (Js.toString sel) p with BadSelector _ => false | _ => true end
  | None => true
  end.

(** [item.answer ?? item.value ?? item.text] *)
Definition itemValue (item : JSON) : option JSON :=
  Js.coalesce (Js.coalesce (Js.prop item "answer") (Js.prop item "value")) (Js.prop item "text").

(** Parents come before their children, as in a tree listed in document
    order, and [document.body] is an element of the page. *)
Definition wellFormed (p : Page) : bool :=
  forallb (fun n => match Dom.parentOf p n with Some m => m <? n | None => true end)
    (Dom.allIndices p)
  && (body p <? length (nodes p)).

Definition tagOf (p : Page) (n : nat) : option string := tagName <$> Dom.node p n.

(** Both pages have the same elements with the same tags. *)
Definition sameTags (p q : Page) : Prop := forall n, tagOf q n = tagOf p n.

(** The state an outcome leaves. *)
Definition outState {S A : Type} (o : Outcome S A) : S :=
  match o with
  | Returned s _ => s
  | Threw s _ => s
  end.


(** A page seen as the page itself, for [tagStable]. *)
Definition onPageItself : Page -> Page := fun p => p.

(** The outcome is a return that satisfies [P]. *)
Definition returns {S A : Type} (o : Outcome S A) (P : S -> A -> Prop) : Prop :=
  match o with
  | Returned s a => P s a
  | Threw _ _ => False
  end.


(** The world an outcome leaves. *)
Definition outWorld {A : Type} (o : Outcome World A) : World :=
  match o with
  | Returned w _ => w
  | Threw w _ => w
  end.


(** A string over [a-z0-9] and the space, without two spaces in a row and,
    if [afterSpace], without a space in front. *)
Fixpoint tidy (afterSpace : bool) (s : string) : bool :=
  match s with
  | EmptyString => true
  | String c s' =>
      if Str.code c =? 32 then negb afterSpace && tidy true s'
      else Str.isLowerAlnum c && tidy false s'
  end.

(** The shape of a normalized key: words over [a-z0-9] separated by single
    spaces. *)
Definition canonicalKey (s : string) : bool :=
  tidy true s && Str.eqb (Str.trimEnd s) s.


(** The effect presses a submit control or submits a form. *)
Definition isSubmission (ev : Effect) : bool :=
  match ev with
  | Click _ | Submit _ => true
  | _ => false
  end.

Definition noSubmission (ev : Effect) : bool := negb (isSubmission ev).

(** The effect writes the attribute [k]. *)
Definition writesAttr (k : string) (ev : Effect) : bool :=
  match ev with
  | SetAttribute _ k' _ => Str.eqb k' k
  | _ => false
  end.

(** The trace of [q] continues the trace of [p] with effects of class [P]. *)
Definition extends (P : Effect -> bool) (p q : Page) : Prop :=
  exists extra, trace q = (trace p ++ extra)%list /\ forallb P extra = true.

(** Whether it returns or raises, the computation adds only effects of
    class [P] to the trace of the page seen through [proj]. *)
Definition emitsOnly {S A : Type} (proj : S -> Page) (P : Effect -> bool) (m : Eff S A) : Prop :=
  forall s, extends P (proj s) (proj (outState (m s))).

(** The attribute [k] of element [n], if the element exists and has it. *)
Definition attrOf (p : Page) (n : nat) (k : string) : option string :=
  match Dom.node p n with
  | Some e => Dom.getAttr e k
  | None => None
  end.

(** [e'] is [e] up to the attribute [k]. *)
Definition agreeBut (k : string) (e e' : Element) : Prop :=
  tagName e' = tagName e /\ parentElement e' = parentElement e
  /\ innerText e' = innerText e /\ textContent e' = textContent e
  /\ value e' = value e /\ checked e' = checked e /\ displayed e' = displayed e
  /\ midline e' = midline e /\ checkedFault e' = checkedFault e
  /\ forall k', k' <> k -> Dom.getAttr e' k' = Dom.getAttr e k'.

(** [q] is [p] up to the attribute [k] of its elements (and the trace). *)
Definition differOnlyIn (k : string) (p q : Page) : Prop :=
  length (nodes q) = length (nodes p)
  /\ body q = body p /\ activeElement q = activeElement p
  /\ selectionContainer q = selectionContainer p /\ viewportCenter q = viewportCenter p
  /\ forall n e, Dom.node p n = Some e -> exists e', Dom.node q n = Some e' /\ agreeBut k e e'.

(** A selector whose answer does not depend on [data-autoanswer-label]. *)
Definition labelBlind (sel : Dom.Selector) : Prop :=
  forall e e', agreeBut "data-autoanswer-label" e e' -> sel e' = sel e.

(** What a group of the index holds: its type, its question and, for each
    option, the element, its label and its identifier. *)
Definition groupView (g : ChoiceGroup) : string * string * list (nat * string * string) :=
  (groupType g, groupQuestion g,
   map (fun o => (optEl o, optLabel o, optId o)) (groupOptions g)).

(** Element [n] as a member of a group: the element, its label and the
    identifier it carries in [p]. *)
Definition memberOf (p : Page) (n : nat) : nat * string * string :=
  (n, getLabelForElement p n, default "" (attrOf p n "data-autoanswer-id")).

(** The identifier ends with [":" ++ i], as one made for the index [i] does. *)
Definition indexedBy (i : nat) (id : string) : Prop :=
  exists stem, id = (stem ++ ":" ++ Str.ofNat i)%string.

(** The identifiers were made for the consecutive indices from [idx] on. *)
Fixpoint indexedFrom (idx : nat) (ids : list string) : Prop :=
  match ids with
  | [] => True
  | id :: rest => indexedBy idx id /\ indexedFrom (S idx) rest
  end.

Fixpoint noColon (s : string) : bool :=
  match s with
  | EmptyString => true
  | String c s' => negb (Str.code c =? 58) && noColon s'
  end.

(** The effect writes one of the two tagging attributes. *)
Definition isTagWrite (ev : Effect) : bool :=
  writesAttr "data-autoanswer-id" ev || writesAttr "data-autoanswer-group" ev.

(** Both pages hold the same elements with the same value, checked state
    and text content. *)
Definition sameContent (p q : Page) : Prop :=
  forall n,
    (value <$> Dom.node q n) = (value <$> Dom.node p n)
    /\ (checked <$> Dom.node q n) = (checked <$> Dom.node p n)
    /\ (textContent <$> Dom.node q n) = (textContent <$> Dom.node p n).

(** [q] is [p] after some tagging: only tagging attributes were written. *)
Definition taggedFrom (p q : Page) : Prop := extends isTagWrite p q /\ sameContent p q.

(** The keys of [l] in the order of their first occurrence. *)
Definition firstSeen (l : list string) : list string :=
  fold_left (fun acc k => if existsb (Str.eqb k) acc then acc else (acc ++ [k])%list) l [].

(** The text [fillFocusedFieldIfAny] writes for a reply: [resp.answer || ""],
    as [setElementValue] renders it. *)
Definition focusedText (reply : JSON) : string :=
  default "" (renderValue (Js.or_ (Js.prop reply "answer") (Some (JStr "")))).

(** A slice that starts with an opening brace and ends with the closing
    brace that brings the depth back to 0. *)
Definition braced (s : string) : Prop :=
  String.prefix "{" s = true /\ Background.balancedSlice 0 s = Some s.

Fixpoint noOpeningBrace (s : string) : bool :=
  match s with
  | EmptyString => true
  | String c s' => negb (Str.code c =? 123) && noOpeningBrace s'
  end.

(** * Properties *)

Open Scope list_scope.

(** ** Strings: trimming and case folding *)

Example normalizeKey_demo :
  normalizeKey (Some (JStr "  E-mail   Address: ")) = "e mail address".
Proof. vm_compute. reflexivity. Qed.

Example stringify_demo :
  Js.stringify (JObj [("g", JStr "Red"); ("n", JArr [JNum "1"; JNull])])
  = ("{" ++ Js.quote "g" ++ ":" ++ Js.quote "Red" ++ "," ++ Js.quote "n" ++ ":[1,null]}")%string.
Proof. vm_compute. reflexivity. Qed.

Lemma isSpace_toLowerChar (c : ascii) : Str.isSpace (Str.toLowerChar c) = Str.isSpace c.
Proof. destruct c as [[] [] [] [] [] [] [] []]; reflexivity. Qed.

Lemma toLowerCase_trimStart (s : string) :
  Str.toLowerCase (Str.trimStart s) = Str.trimStart (Str.toLowerCase s).
Proof.
  induction s as [|c s IH]; [reflexivity|].
  simpl. rewrite isSpace_toLowerChar. destruct (Str.isSpace c); [exact IH|reflexivity].
Qed.


(** What [trimEnd] leaves is empty, or its head is the head it was given. *)
Lemma trimEnd_cons (c : ascii) (s : string) :
  Str.trimEnd (String c s)
  = if Str.isEmpty (Str.trimEnd s) && Str.isSpace c then EmptyString
    else String c (Str.trimEnd s).
Proof. simpl. destruct (Str.trimEnd s); simpl; destruct (Str.isSpace c); reflexivity. Qed.











(** ** The walks up the tree have fuel to spare *)

Lemma wellFormed_parent (p : Page) (n m : nat) (e : Element) :
  wellFormed p = true -> Dom.node p n = Some e -> parentElement e = Some m -> m < n.
Proof.
  unfold wellFormed. intros H Hn Hp. apply andb_true_iff in H as [H _].
  rewrite forallb_forall in H. specialize (H n).
  unfold Dom.parentOf in H. rewrite Hn, Hp in H. apply Nat.ltb_lt, H.
  unfold Dom.allIndices. apply in_seq. split; [lia|]. simpl.
  unfold Dom.node in Hn. apply lookup_lt_Some in Hn. exact Hn.
Qed.

(** On a well-formed page [closest] gives what any larger fuel gives. *)
Lemma closestFrom_fuel (p : Page) (sel : Dom.Selector) :
  wellFormed p = true ->
  forall n fuel, n < fuel -> Dom.closestFrom fuel p sel n = Dom.closestFrom (S n) p sel n.
Proof.
  intros Hwf n. induction n as [n IH] using lt_wf_ind. intros fuel Hlt.
  destruct fuel as [|fuel]; [lia|]. simpl.
  destruct (Dom.node p n) as [e|] eqn:Hn; [|reflexivity].
  destruct (sel e); [reflexivity|].
  destruct (parentElement e) as [m|] eqn:Hp; [|reflexivity].
  pose proof (wellFormed_parent p n m e Hwf Hn Hp) as Hm.
  rewrite (IH m Hm fuel) by lia. rewrite (IH m Hm n) by lia. reflexivity.
Qed.

Lemma closest_fuel (p : Page) (sel : Dom.Selector) (n fuel : nat) :
  wellFormed p = true -> length (nodes p) <= fuel ->
  Dom.closestFrom fuel p sel n = Dom.closest p sel n.
Proof.
  intros Hwf Hfuel. unfold Dom.closest.
  destruct (Dom.node p n) as [e|] eqn:Hn.
  - assert (n < length (nodes p)) by (unfold Dom.node in Hn; eapply lookup_lt_Some; eauto).
    rewrite (closestFrom_fuel p sel Hwf n fuel) by lia.
    rewrite (closestFrom_fuel p sel Hwf n (length (nodes p))) by lia. reflexivity.
  - destruct fuel; destruct (length (nodes p)); simpl; rewrite ?Hn; reflexivity.
Qed.

Lemma reaches_fuel (p : Page) (anc : nat) :
  wellFormed p = true ->
  forall n fuel, n < fuel -> Dom.reaches fuel p anc n = Dom.reaches (S n) p anc n.
Proof.
  intros Hwf n. induction n as [n IH] using lt_wf_ind. intros fuel Hlt.
  destruct fuel as [|fuel]; [lia|]. simpl.
  destruct (n =? anc); [reflexivity|]. simpl.
  destruct (Dom.node p n) as [e|] eqn:Hn; [|reflexivity].
  destruct (parentElement e) as [m|] eqn:Hp; [|reflexivity].
  pose proof (wellFormed_parent p n m e Hwf Hn Hp) as Hm.
  rewrite (IH m Hm fuel) by lia. rewrite (IH m Hm n) by lia. reflexivity.
Qed.

Example samples_wellFormed :
  forallb wellFormed
    [Sample.colors; Sample.nameless; Sample.editable; Sample.email; Sample.survey;
     Sample.guarded; Sample.bare; wPage Sample.focused] = true.
Proof. vm_compute. reflexivity. Qed.

(** ** The answer matcher *)

Lemma eqb_true (a b : string) : Str.eqb a b = true <-> a = b.
Proof. unfold Str.eqb. apply bool_decide_eq_true. Qed.







(** Every score is at least the lowest tier. *)
Lemma scoreOf_nonneg (p : Page) (val : JSON) (o : ChoiceOption) : (0 <= scoreOf p val o)%Z.
Proof.
  unfold scoreOf.
  repeat match goal with
         | |- context [if ?b then _ else _] => destruct b
         end; lia.
Qed.

Lemma scanOptions_some (p : Page) (val : JSON) (opts : list ChoiceOption)
    (best : option ChoiceOption) (bestScore : Z) :
  is_Some best \/ ((bestScore < 0)%Z /\ opts <> []) ->
  is_Some (scanOptions p val opts best bestScore).
Proof.
  revert best bestScore. induction opts as [|x opts IH]; intros best bestScore H.
  - simpl. destruct H as [H|[_ H]]; [exact H|congruence].
  - simpl. destruct (idIs val x); [eauto|]. destruct (labelIs val x); [eauto|].
    destruct (Z.ltb_spec bestScore (scoreOf p val x)).
    + apply IH. left. eauto.
    + apply IH. left. destruct H as [H|[H _]]; [exact H|].
      pose proof (scoreOf_nonneg p val x). lia.
Qed.

(** With the initial best score below every tier, a group that has options
    always yields one, whatever the value. *)
Lemma selectBy_never_null (p : Page) (opts : list ChoiceOption) (val : JSON) :
  val <> JNull -> opts <> [] -> is_Some (selectBy p opts val).
Proof.
  intros Hv Ho. unfold selectBy.
  destruct (tieBreak val opts); [destruct val; eauto; congruence|].
  assert (is_Some (scanOptions p val opts None (-1)%Z)).
  { apply scanOptions_some. right. split; [lia|exact Ho]. }
  destruct val; auto; congruence.
Qed.

(** C1, evaluated where the code departs from it. In the three-colour
    group no option has any match signal for the answer "Purple" (every
    score is 0), yet [selectBy] returns the first option, and [fillAnswers]
    checks it and counts it as filled. *)
Theorem selectBy_selects_without_signal :
  resolveGroup (buildFieldIndex Sample.colors).1 "group:radio:0"
  = Some (mkGroup "radio" "Red" Sample.colorOptions)
  /\ forallb (fun o => (scoreOf (buildFieldIndex Sample.colors).2 (JStr "Purple") o =? 0)%Z)
       Sample.colorOptions = true
  /\ selectBy (buildFieldIndex Sample.colors).2 Sample.colorOptions (JStr "Purple")
     = Some (Sample.opt 3 "Red" "name:color|type:radio|idx:0")
  /\ returns (fillAnswers Sample.noQuery None (Some (Sample.pick "group:radio:0" "Purple"))
                false Sample.colors)
       (fun q r => filled r = 1 /\ isChecked q 3 = true).
Proof. vm_compute. repeat split. Qed.


(** The example of the claim: in ["Yes", "yes, please"] the answer "Yes"
    selects "Yes". *)
Example selectBy_yes :
  selectBy Sample.bare Sample.yesNo (JStr "Yes")
  = Some (Sample.opt 1 "Yes" "type:radio|idx:0").
Proof. vm_compute. reflexivity. Qed.


(** ** The document mutator *)

Lemma assoc_assocSet (k k' v : string) (l : list (string * string)) :
  Dom.assoc k' (Dom.assocSet k v l) = if Str.eqb k' k then Some v else Dom.assoc k' l.
Proof.
  induction l as [|[a b] l IH]; simpl.
  - destruct (Str.eqb k' k); reflexivity.
  - destruct (Str.eqb k a) eqn:Hka; simpl.
    + apply eqb_true in Hka. subst a. destruct (Str.eqb k' k); reflexivity.
    + rewrite IH. destruct (Str.eqb k' k) eqn:Hk'; [|reflexivity].
      apply eqb_true in Hk'. subst k'. rewrite Hka. reflexivity.
Qed.

Lemma node_touch (f : Element -> Element) (n m : nat) (ev : Effect) (p : Page) :
  Dom.node (Dom.touch f n ev p) m
  = if decide (n = m) then f <$> Dom.node p m else Dom.node p m.
Proof.
  unfold Dom.node, Dom.touch. simpl. destruct (decide (n = m)) as [->|Hne].
  - apply list_lookup_alter_eq.
  - apply list_lookup_alter_ne. exact Hne.
Qed.

Lemma node_emit (ev : Effect) (p : Page) (m : nat) : Dom.node (Dom.emit ev p) m = Dom.node p m.
Proof. reflexivity. Qed.



Lemma sameControls_aria (n : nat) (v : string) (p : Page) :
  sameControls p (Dom.setAttribute n "aria-checked" v p).
Proof.
  intros m. unfold hasRole, faulty, Dom.matches, Dom.setAttribute. rewrite node_touch.
  destruct (decide (n = m)) as [->|]; [|tauto].
  destruct (Dom.node p m) as [e|]; simpl; [|tauto].
  unfold Dom.hasAttr, Dom.getAttr. simpl. rewrite assoc_assocSet. simpl.
  repeat split; intros; discriminate.
Qed.

Lemma sameControls_checked (n : nat) (b : bool) (p : Page) :
  sameControls p (Dom.setChecked n b p).
Proof.
  intros m. unfold hasRole, faulty, Dom.matches, Dom.setChecked. rewrite node_touch.
  destruct (decide (n = m)) as [->|]; [|tauto].
  destruct (Dom.node p m) as [e|]; simpl; [|tauto].
  repeat split; intros; discriminate.
Qed.



(** A property of one node that a write to another node cannot change. *)
Lemma deselected_frame (f : Element -> Element) (n m : nat) (ev : Effect) (p : Page) :
  n <> m -> deselected (Dom.touch f n ev p) m = deselected p m.
Proof.
  intros Hne. unfold deselected, hasRole, Dom.matches, ariaChecked, isChecked.
  rewrite node_touch, decide_False by exact Hne. reflexivity.
Qed.




Lemma hasRole_emit (ev : Effect) (p : Page) (m : nat) : hasRole (Dom.emit ev p) m = hasRole p m.
Proof. reflexivity. Qed.

(** Marking the target, in either branch. *)
Lemma marking_spec (el : nat) (suppressSubmit : bool) (p : Page) :
  faulty p el = false -> Dom.node p el <> None ->
  exists q,
    (if hasRole p el then ensureCheckedRole el suppressSubmit
     else ensureCheckedNative el suppressSubmit) p = Returned q tt
    /\ trace q = trace p ++ markEffect p el :: notifications p el suppressSubmit
    /\ selected q el = true
    /\ (forall m, m <> el -> Dom.node q m = Dom.node p m).
Proof.
  intros Hf Hn. unfold markEffect, notifications.
  destruct (hasRole p el) eqn:Hr.
  - unfold ensureCheckedRole, bind, writeAriaChecked. rewrite Hf.
    assert (Hsel : selected (Dom.setAttribute el "aria-checked" "true" p) el = true).
    { unfold selected. destruct (sameControls_aria el "true" p el) as (-> & _). rewrite Hr.
      unfold ariaChecked, Dom.setAttribute. rewrite node_touch, decide_True by reflexivity.
      destruct (Dom.node p el); [|congruence]. simpl.
      unfold Dom.getAttr. simpl. rewrite assoc_assocSet. reflexivity. }
    assert (Hfr : forall m, m <> el ->
                    Dom.node (Dom.setAttribute el "aria-checked" "true" p) m = Dom.node p m).
    { intros m Hm. unfold Dom.setAttribute. rewrite node_touch, decide_False; congruence. }
    destruct suppressSubmit; simpl; eexists; (split; [reflexivity|]).
    + split; [reflexivity|]. split; assumption.
    + split; [simpl; rewrite <- !app_assoc; reflexivity|]. split; assumption.
  - unfold ensureCheckedNative, bind, gets, writeChecked. rewrite Hf.
    assert (Hsel : selected (Dom.setChecked el true p) el = true).
    { unfold selected. destruct (sameControls_checked el true p el) as (-> & _). rewrite Hr.
      unfold isChecked, Dom.setChecked. rewrite node_touch, decide_True by reflexivity.
      destruct (Dom.node p el); [reflexivity|congruence]. }
    assert (Hfr : forall m, m <> el -> Dom.node (Dom.setChecked el true p) m = Dom.node p m).
    { intros m Hm. unfold Dom.setChecked. rewrite node_touch, decide_False; congruence. }
    destruct suppressSubmit; simpl.
    + eexists. split; [reflexivity|]. split; [simpl; rewrite <- !app_assoc; reflexivity|].
      split; assumption.
    + destruct (negb (negb (isChecked p el))); simpl; eexists; (split; [reflexivity|]);
        (split; [simpl; rewrite <- !app_assoc; reflexivity|]); split; assumption.
Qed.

Lemma docQueryAll_node (p : Page) (sel : Dom.Selector) (n : nat) :
  In n (Dom.docQueryAll p sel) -> Dom.node p n <> None.
Proof.
  unfold Dom.docQueryAll. intros H. apply filter_In in H as [_ H].
  unfold Dom.matches in H. destruct (Dom.node p n); [discriminate|discriminate].
Qed.







(** C9. The branch of [ensureChecked] for native controls does exactly what
    the contract says: it sets [checked], always notifies "input", and
    notifies "change" if and only if suppression was not requested. *)
Theorem ensureCheckedNative_refines_contract (el : nat) (suppressSubmit : bool) (p : Page) :
  ensureCheckedNative el suppressSubmit p = nativeContract el suppressSubmit p.
Proof.
  unfold ensureCheckedNative, nativeContract, bind, gets, when.
  destruct (writeChecked el true p) as [p1 []|p1 err]; [|reflexivity].
  destruct (dispatch el "input" p1) as [p2 []|p2 err]; [|reflexivity].
  destruct suppressSubmit; simpl; [reflexivity|].
  destruct (negb (negb (isChecked p el))); reflexivity.
Qed.

(** ** Exceptions in the fill loop *)




Lemma bind_returned {S A B : Type} (m : Eff S A) (k : A -> Eff S B) (s s' : S) (a : A) :
  m s = Returned s' a -> bind m k s = k a s'.
Proof. unfold bind. intros ->. reflexivity. Qed.






(** ** Answers that reach no control *)

Lemma forEach_skip {S A : Type} (l : list A) (f : A -> Eff S unit) (s : S) :
  (forall x, In x l -> f x s = Returned s tt) -> forEach l f s = Returned s tt.
Proof.
  induction l as [|x l IH]; intros H; [reflexivity|].
  simpl. unfold bind. rewrite (H x (or_introl eq_refl)). apply IH.
  intros y Hy. apply H. right. exact Hy.
Qed.

Lemma isNone_true {A : Type} (o : option A) : isNone o = true -> o = None.
Proof. destruct o; [discriminate|reflexivity]. Qed.

Section Misses.

Variable hostQuery : string -> Page -> QueryResult.
Variable skipSubmit : bool.
Variable ix : FieldIndex.

Lemma applyTo_none (value : option JSON) (s : FillState) :
  applyTo skipSubmit None value s = Returned s false.
Proof. reflexivity. Qed.

Lemma keyMisses_skip (m : gmap string nat) (k : string) (value : option JSON) (s : FillState) :
  keyMisses m k = true ->
  (if nonEmpty k then applyTo skipSubmit (m !! k) value else ret false) s = Returned s false.
Proof.
  unfold keyMisses. destruct (nonEmpty k); simpl; [|reflexivity].
  intros H. apply isNone_true in H. rewrite H. reflexivity.
Qed.

Lemma fillItem_miss (item : JSON) (s : FillState) :
  itemMisses hostQuery ix (page s) item = true ->
  fillItem hostQuery skipSubmit ix item s = Returned s tt.
Proof.
  unfold itemMisses, fillItem.
  destruct (Js.truthy item); simpl; [|reflexivity].
  intros H. repeat (apply andb_true_iff in H as [H ?]).
  unfold bind at 1.
  assert (Hid : (if Js.truthy' (Js.or_ (Js.prop item "id") (Js.prop item "fieldId"))
                 then applyTo skipSubmit
                        (mapGet (byId ix) (Js.or_ (Js.prop item "id") (Js.prop item "fieldId")))
                        (Js.coalesce (Js.coalesce (Js.prop item "answer") (Js.prop item "value"))
                           (Js.prop item "text"))
                 else ret false) s = Returned s false).
  { destruct (Js.truthy' _); simpl in H; [|reflexivity].
    apply isNone_true in H. rewrite H. reflexivity. }
  rewrite Hid. unfold bind at 1.
  assert (Hsel : match Js.prop item "selector" with
                 | Some sel =>
                     if Js.truthy sel
                     then el <- querySelectorExt hostQuery sel ;;
                          applyTo skipSubmit el
                            (Js.coalesce (Js.coalesce (Js.prop item "answer") (Js.prop item "value"))
                               (Js.prop item "text"))
                     else ret false
                 | None => ret false
                 end s = Returned s false).
  { destruct (Js.prop item "selector") as [sel|]; [|reflexivity].
    destruct (Js.truthy sel); simpl in *; [|reflexivity].
    unfold bind, querySelectorExt.
    destruct (hostQuery (Js.toString sel) (page s)); [reflexivity|discriminate|discriminate]. }
  rewrite Hsel. unfold bind at 1. rewrite keyMisses_skip by assumption.
  unfold bind at 1. rewrite keyMisses_skip by assumption.
  unfold bind at 1. rewrite keyMisses_skip by assumption. reflexivity.
Qed.

Lemma fillChoice_miss (entry : string * JSON) (s : FillState) :
  isNone (resolveGroup ix (fst entry)) = true ->
  fillChoice skipSubmit ix entry s = Returned s tt.
Proof.
  destruct entry as [k v]. simpl. intros H. apply isNone_true in H.
  unfold fillChoice. rewrite H. reflexivity.
Qed.

Lemma fillEntry_miss (entry : string * JSON) (s : FillState) :
  isNone (resolveKey ix (fst entry)) = true ->
  fillEntry skipSubmit ix entry s = Returned s tt.
Proof.
  destruct entry as [k v]. simpl. intros H. apply isNone_true in H.
  unfold fillEntry. rewrite H. reflexivity.
Qed.

Lemma fillShapes_miss (answers : JSON) (s : FillState) :
  absentFromIndex hostQuery ix (page s) answers = true ->
  fillShapes hostQuery skipSubmit ix answers s = Returned s tt.
Proof.
  destruct answers; try reflexivity.
  - simpl. intros H. apply forEach_skip. intros x Hx. apply fillItem_miss.
    rewrite forallb_forall in H. apply H. exact Hx.
  - unfold absentFromIndex, fillShapes. intros H. apply andb_true_iff in H as [Hc Hf].
    unfold bind, when.
    assert (Hchoices : (if isObjectValue (Js.prop (JObj props) "choices")
                        then forEach (Js.entries (default JNull (Js.prop (JObj props) "choices")))
                               (fillChoice skipSubmit ix)
                        else ret tt) s = Returned s tt).
    { destruct (isObjectValue (Js.prop (JObj props) "choices")); [|reflexivity].
      apply forEach_skip. intros x Hx. apply fillChoice_miss.
      rewrite forallb_forall in Hc. apply Hc. exact Hx. }
    rewrite Hchoices.
    destruct (isObjectValue (Js.prop (JObj props) "fields"));
      apply forEach_skip; intros x Hx; apply fillEntry_miss;
      rewrite forallb_forall in Hf; apply Hf; exact Hx.
Qed.

End Misses.

Lemma submitTouched_none (autoSubmit : option JSON) (skipSubmit : bool) (s : FillState) :
  touchedForms s = [] -> submitTouched autoSubmit skipSubmit s = Returned s false.
Proof.
  intros H. unfold submitTouched, bind, gets. rewrite H.
  destruct (Js.truthy' autoSubmit && negb skipSubmit); reflexivity.
Qed.

(** C7. A payload, of any shape, whose references are all absent from the
    field index fills nothing, submits nothing and raises nothing: the
    result is [{filled: 0, submitted: false}]. *)
Theorem fillAnswers_absent (hostQuery : string -> Page -> QueryResult)
    (autoSubmit : option JSON) (skipSubmit : bool) (p : Page) (answers : JSON) :
  absentFromIndex hostQuery (buildFieldIndex p).1 (buildFieldIndex p).2 answers = true ->
  fillAnswers hostQuery autoSubmit (Some answers) skipSubmit p
  = Returned (if Js.truthy answers then (buildFieldIndex p).2 else p) (mkResult 0 false).
Proof.
  intros H. unfold fillAnswers.
  destruct (Js.truthy answers); simpl; [|reflexivity].
  destruct (buildFieldIndex p) as [ix p1]. cbn [fst snd] in *.
  unfold bind. rewrite (fillShapes_miss hostQuery skipSubmit ix answers (mkFill p1 0 [])) by exact H.
  rewrite submitTouched_none by reflexivity. reflexivity.
Qed.



Lemma fillAnswers_absent_witness :
  absentFromIndex Sample.noQuery (buildFieldIndex Sample.colors).1
    (buildFieldIndex Sample.colors).2 Sample.unknownKeys = true
  /\ fillAnswers Sample.noQuery (Some (JBool true)) (Some Sample.unknownKeys) false Sample.colors
     = Returned (buildFieldIndex Sample.colors).2 (mkResult 0 false).
Proof.
  split; [vm_compute; reflexivity|].
  apply (fillAnswers_absent Sample.noQuery (Some (JBool true)) false Sample.colors
           Sample.unknownKeys).
  vm_compute. reflexivity.
Defined.

(** ** Tags are never rewritten *)

Lemma sameTags_refl (p : Page) : sameTags p p.
Proof. intros n. reflexivity. Qed.


Lemma touch_sameTags (f : Element -> Element) (n : nat) (ev : Effect) (p : Page) :
  (forall e, tagName (f e) = tagName e) -> sameTags p (Dom.touch f n ev p).
Proof.
  intros Hf m. unfold tagOf. rewrite node_touch.
  destruct (decide (n = m)) as [->|]; [|reflexivity].
  destruct (Dom.node p m); simpl; [rewrite Hf|]; reflexivity.
Qed.


Lemma setElementValue_sameTags (el : nat) (value : option JSON) (suppressSubmit : bool)
    (p : Page) :
  sameTags p (setElementValue el value suppressSubmit p).
Proof.
  unfold setElementValue. destruct (Dom.node p el) as [e|]; [|apply sameTags_refl].
  destruct (Dom.tagIn _ e).
  - destruct suppressSubmit; simpl; intros n; unfold tagOf, Dom.dispatchEvent;
      rewrite ?node_emit; apply (touch_sameTags (Dom.withValue _)); reflexivity.
  - destruct (Dom.hasAttr e "contenteditable"); [|apply sameTags_refl].
    intros n. unfold tagOf, Dom.dispatchEvent. rewrite node_emit.
    apply (touch_sameTags (Dom.withTextContent _)). reflexivity.
Qed.



Section Stable.

Context {S : Type} (proj : S -> Page).







End Stable.








(** ** The flat map and the key [choices] *)

Lemma setElementValue_input (p : Page) (el : nat) (e : Element) (value : option JSON)
    (suppressSubmit : bool) :
  Dom.node p el = Some e -> Dom.tagIn ["textarea"; "input"] e = true ->
  let q := setElementValue el value suppressSubmit p in
  trace q = trace p ++ [SetValue el (default "undefined" (renderValue value));
                        DispatchEvent el "input"]
                    ++ (if suppressSubmit then [] else [DispatchEvent el "change"])
  /\ valueOf q el = default "undefined" (renderValue value).
Proof.
  intros Hn Ht q. subst q. unfold setElementValue. rewrite Hn, Ht.
  assert (Hlk : forall f, alter f el (nodes p) !! el = Some (f e)).
  { intros f. unfold Dom.node in Hn. rewrite list_lookup_alter_eq, Hn. reflexivity. }
  split.
  - destruct suppressSubmit; simpl; rewrite <- ?app_assoc; reflexivity.
  - unfold valueOf, Dom.node. destruct suppressSubmit; simpl; rewrite Hlk; reflexivity.
Qed.

Lemma setElementValue_editable (p : Page) (el : nat) (e : Element) (value : option JSON)
    (suppressSubmit : bool) :
  Dom.node p el = Some e -> Dom.tagIn ["textarea"; "input"] e = false ->
  Dom.hasAttr e "contenteditable" = true ->
  let q := setElementValue el value suppressSubmit p in
  trace q = trace p ++ [SetTextContent el (default "" (renderValue value));
                        DispatchEvent el "input"]
  /\ (textContent <$> Dom.node q el) = Some (default "" (renderValue value)).
Proof.
  intros Hn Ht Hc q. subst q. unfold setElementValue. rewrite Hn, Ht, Hc.
  split.
  - simpl. rewrite <- ?app_assoc; reflexivity.
  - unfold Dom.node in *. simpl. rewrite list_lookup_alter_eq, Hn. reflexivity.
Qed.

(** C8, as amended. On an input or a textarea, [setElementValue] stores the
    rendered value, then notifies "input", then "change" unless suppression
    was requested. On any other editable element it stores the text and
    notifies "input" only, whatever the caller requested. Other elements
    are left alone. *)
Theorem setElementValue_effects (p : Page) (el : nat) (e : Element)
    (value : option JSON) (suppressSubmit : bool) :
  Dom.node p el = Some e ->
  let q := setElementValue el value suppressSubmit p in
  (Dom.tagIn ["textarea"; "input"] e = true ->
     trace q = trace p ++ [SetValue el (default "undefined" (renderValue value));
                           DispatchEvent el "input"]
                       ++ (if suppressSubmit then [] else [DispatchEvent el "change"])
     /\ valueOf q el = default "undefined" (renderValue value))
  /\ (Dom.tagIn ["textarea"; "input"] e = false -> Dom.hasAttr e "contenteditable" = true ->
      trace q = trace p ++ [SetTextContent el (default "" (renderValue value));
                            DispatchEvent el "input"]
      /\ (textContent <$> Dom.node q el) = Some (default "" (renderValue value)))
  /\ (Dom.tagIn ["textarea"; "input"] e = false -> Dom.hasAttr e "contenteditable" = false ->
      q = p).
Proof.
  intros Hn q. split; [|split].
  - intros Ht. apply (setElementValue_input p el e value suppressSubmit Hn Ht).
  - intros Ht Hc. apply (setElementValue_editable p el e value suppressSubmit Hn Ht Hc).
  - intros Ht Hc. subst q. unfold setElementValue. rewrite Hn, Ht, Hc. reflexivity.
Qed.

Lemma setElementValue_effects_witness :
  Dom.node Sample.email 1 <> None
  /\ trace (setElementValue 1 (Some (JStr "a@b.c")) true Sample.email)
     = [SetValue 1 "a@b.c"; DispatchEvent 1 "input"]
  /\ trace (setElementValue 1 (Some (JStr "a@b.c")) false Sample.email)
     = [SetValue 1 "a@b.c"; DispatchEvent 1 "input"; DispatchEvent 1 "change"].
Proof.
  split; [vm_compute; discriminate|].
  destruct (Dom.node Sample.email 1) as [e|] eqn:Hn; [|vm_compute in Hn; discriminate].
  assert (Ht : Dom.tagIn ["textarea"; "input"] e = true).
  { vm_compute in Hn. injection Hn as <-. reflexivity. }
  split.
  - exact (proj1 (proj1 (setElementValue_effects Sample.email 1 e (Some (JStr "a@b.c")) true Hn) Ht)).
  - exact (proj1 (proj1 (setElementValue_effects Sample.email 1 e (Some (JStr "a@b.c")) false Hn) Ht)).
Defined.

(** C8 as stated fails: an editable block gets the "input" notification
    only, although no suppression was requested. *)
Lemma editable_gets_no_change :
  Dom.matches Sample.editable (fun e => Dom.hasAttr e "contenteditable") 1 = true
  /\ trace (setElementValue 1 (Some (JStr "hello")) false Sample.editable)
     = [SetTextContent 1 "hello"; DispatchEvent 1 "input"].
Proof. vm_compute. split; reflexivity. Qed.





(** The same run, evaluated: the radio "Green" is checked, the text input
    named [choices] holds the serialized choices, two fields count. *)
Example flat_map_on_survey :
  returns (fillAnswers Sample.noQuery None (Some (Sample.pick "group:radio:0" "Green")) false
             Sample.survey)
    (fun q r => filled r = 2 /\ isChecked q 5 = true
                /\ valueOf q 6 = Js.stringify (JObj [("group:radio:0", JStr "Green")])).
Proof. vm_compute. repeat split. Qed.

(** ** Resolution order of scalar answers *)

Lemma applyTo_some_true (skipSubmit : bool) (n : nat) (value : option JSON) (s : FillState) :
  exists s', applyTo skipSubmit (Some n) value s = Returned s' true.
Proof.
  unfold applyTo, bind, liftPage, modify, countFilled, noteForm. simpl.
  destruct (Dom.closest _ Dom.selForm n); eauto.
Qed.

Lemma lookupKey_step (skipSubmit : bool) (m : gmap string nat) (k : string)
    (value : option JSON) (s : FillState) :
  (if nonEmpty k then applyTo skipSubmit (m !! k) value else ret false) s
  = applyTo skipSubmit (lookupKey m k) value s.
Proof. unfold lookupKey. destruct (nonEmpty k); reflexivity. Qed.

Lemma bind_ext_l {S A B : Type} (m m' : Eff S A) (k : A -> Eff S B) (s : S) :
  m s = m' s -> bind m k s = bind m' k s.
Proof. unfold bind. intros ->. reflexivity. Qed.

(** One link of the chain [if (applyTo(el, value)) continue]. *)
Lemma chain_step (skipSubmit : bool) (o : option nat) (value : option JSON)
    (rest : Eff FillState unit) (l : list (option nat)) (s : FillState) :
  rest s = (applyTo skipSubmit (firstHit l) value ;; ret tt) s ->
  (hit <- applyTo skipSubmit o value ;; if hit then ret tt else rest) s
  = (applyTo skipSubmit (firstHit (o :: l)) value ;; ret tt) s.
Proof.
  intros H. destruct o as [n|]; cbn [firstHit].
  - unfold bind. destruct (applyTo_some_true skipSubmit n value s) as [s' ->]. reflexivity.
  - unfold bind at 1. cbn [applyTo]. unfold ret at 1. exact H.
Qed.

(** C3, as amended. An item of the ordered list resolves by identifier,
    then selector, then normalized label, name and html id (no placeholder);
    a key of [fields] or of the flat map resolves by identifier, then
    normalized label, name, html id and placeholder (no selector). The first
    hit wins, and without a hit the answer is dropped and the state is
    unchanged. *)
Theorem scalar_resolution_order (hostQuery : string -> Page -> QueryResult)
    (skipSubmit : bool) (ix : FieldIndex) :
  (forall item s,
      Js.truthy item = true ->
      selectorAccepted hostQuery (page s) item = true ->
      fillItem hostQuery skipSubmit ix item s
      = (applyTo skipSubmit (resolveItem hostQuery ix (page s) item) (itemValue item) ;;
         ret tt) s
      /\ (resolveItem hostQuery ix (page s) item = None ->
          fillItem hostQuery skipSubmit ix item s = Returned s tt))
  /\ (forall key value s,
         fillEntry skipSubmit ix (key, value) s
         = (applyTo skipSubmit (resolveEntry ix key) (Some value) ;; ret tt) s
         /\ (resolveEntry ix key = None ->
             fillEntry skipSubmit ix (key, value) s = Returned s tt)).
Proof.
  split.
  - intros item s Ht Hsel.
    assert (Heq : fillItem hostQuery skipSubmit ix item s
                  = (applyTo skipSubmit (resolveItem hostQuery ix (page s) item) (itemValue item) ;;
                     ret tt) s).
    { unfold fillItem, resolveItem. rewrite Ht. cbn [negb]. fold (itemValue item).
      set (idKey := Js.or_ (Js.prop item "id") (Js.prop item "fieldId")).
      rewrite (bind_ext_l _
                 (applyTo skipSubmit (if Js.truthy' idKey then mapGet (byId ix) idKey else None)
                    (itemValue item)))
        by (destruct (Js.truthy' idKey); reflexivity).
      apply chain_step.
      rewrite (bind_ext_l _
                 (applyTo skipSubmit
                    match selectorOf item with
                    | Some sel =>
                        match hostQuery (Js.toString sel) (page s) with
                        | Match n => Some n
                        | _ => None
                        end
                    | None => None
                    end (itemValue item))).
      2:{ unfold selectorAccepted, selectorOf in *.
          destruct (Js.prop item "selector") as [sel|]; [|reflexivity].
          destruct (Js.truthy sel); [|reflexivity].
          unfold bind, querySelectorExt.
          destruct (hostQuery (Js.toString sel) (page s)); [reflexivity|reflexivity|discriminate]. }
      apply chain_step.
      rewrite (bind_ext_l _ _ _ _ (lookupKey_step _ _ _ _ _)). apply chain_step.
      rewrite (bind_ext_l _ _ _ _ (lookupKey_step _ _ _ _ _)). apply chain_step.
      rewrite (bind_ext_l _ _ _ _ (lookupKey_step _ _ _ _ _)).
      cbn [firstHit]. unfold bind.
      destruct (lookupKey (byHtmlId ix) _) as [n|]; reflexivity. }
    split; [exact Heq|]. intros Hnone. rewrite Heq, Hnone. reflexivity.
  - intros key value s.
    assert (Heq : resolveKey ix key = resolveEntry ix key).
    { unfold resolveKey, resolveEntry. simpl.
      destruct (byId ix !! key); [reflexivity|].
      destruct (byLabel ix !! _); [reflexivity|].
      destruct (byName ix !! _); [reflexivity|].
      destruct (byHtmlId ix !! _); [reflexivity|].
      destruct (byPlaceholder ix !! _); reflexivity. }
    unfold fillEntry. rewrite Heq.
    destruct (resolveEntry ix key) as [n|]; split; try reflexivity; discriminate.
Qed.


Lemma scalar_resolution_order_witness :
  Js.truthy Sample.byLabelItem = true
  /\ selectorAccepted Sample.noQuery (buildFieldIndex Sample.email).2 Sample.byLabelItem = true
  /\ resolveItem Sample.noQuery (buildFieldIndex Sample.email).1 (buildFieldIndex Sample.email).2
       Sample.byLabelItem = Some 1
  /\ fillItem Sample.noQuery false (buildFieldIndex Sample.email).1 Sample.byLabelItem
       (mkFill (buildFieldIndex Sample.email).2 0 [])
     = (applyTo false (Some 1) (Some (JStr "a@b.c")) ;; ret tt)
         (mkFill (buildFieldIndex Sample.email).2 0 []).
Proof.
  split; [reflexivity|]. split; [reflexivity|]. split; [vm_compute; reflexivity|].
  exact (proj1 (proj1 (scalar_resolution_order Sample.noQuery false
                         (buildFieldIndex Sample.email).1)
                  Sample.byLabelItem (mkFill (buildFieldIndex Sample.email).2 0 [])
                  eq_refl eq_refl)).
Defined.

(** C3 as stated fails: the index knows the input by its placeholder, and
    the flat map reaches it through that key, but an item of the ordered
    list that names the placeholder is dropped. *)
Lemma ordered_list_ignores_placeholder :
  byPlaceholder (buildFieldIndex Sample.email).1 !! normalizeKey (Some (JStr "you@example.com"))
  = Some 1
  /\ returns (fillAnswers Sample.noQuery None (Some (JArr [Sample.byPlaceholderItem])) false
                Sample.email)
       (fun q r => filled r = 0 /\ valueOf q 1 = "")
  /\ returns (fillAnswers Sample.noQuery None
                (Some (JObj [("you@example.com", JStr "a@b.c")])) false Sample.email)
       (fun q r => filled r = 1 /\ valueOf q 1 = "a@b.c").
Proof. vm_compute. repeat split. Qed.

(** ** The orchestrator *)









Section Strategies.

Variable hostQuery : string -> Page -> QueryResult.
Variable autoSubmit : option JSON.
Variable provider : list Request -> Request -> Reply.


Lemma requireOk_refused (fallback : string) (response : option JSON) (w : World) :
  refuses (Replied response) = true ->
  exists err, requireOk fallback response w = Threw w err.
Proof.
  unfold refuses, requireOk, propOf. destruct response as [v|].
  - intros H. apply negb_true_iff in H. rewrite H. unfold throw. eauto.
  - intros _. simpl. unfold throw. eauto.
Qed.

Lemma requireOk_cases (fallback : string) (response : option JSON) (w : World) :
  (requireOk fallback response w = Returned w tt /\ refuses (Replied response) = false)
  \/ (exists err, requireOk fallback response w = Threw w err).
Proof.
  destruct (refuses (Replied response)) eqn:H.
  - right. apply requireOk_refused. exact H.
  - left. split; [|reflexivity]. unfold refuses, requireOk, propOf in *.
    destruct response as [v|]; [|discriminate].
    apply negb_false_iff in H. rewrite H. reflexivity.
Qed.

(** Send [req], check the reply, then run [k], which sends nothing. *)
Lemma send_then {A : Type} (req : Request) (fallback : string)
    (k : option JSON -> Eff World A) (w : World) :
  (forall r w1, sent (outWorld (k r w1)) = sent w1) ->
  let m := (response <- sendMessage provider req ;; requireOk fallback response ;; k response) in
  sent (outWorld (m w)) = sent w ++ [req]
  /\ (refuses (provider (sent w) req) = true -> exists w' err, m w = Threw w' err)
  /\ (forall w' a, m w = Returned w' a ->
      refuses (provider (sent w) req) = false
      /\ exists r w1, k r w1 = Returned w' a).
Proof.
  intros Hk m. subst m. unfold bind, sendMessage.
  destruct (provider (sent w) req) as [err|response] eqn:Hp.
  - split; [reflexivity|]. split; [intros _; do 2 eexists; reflexivity|]. discriminate.
  - destruct (requireOk_cases fallback response (mkWorld (wPage w) (sent w ++ [req])))
      as [[-> Hok]|[err ->]].
    + split; [apply Hk|]. split; [intros Hr; congruence|].
      intros w' a Hret. split; [exact Hok|eauto].
    + split; [reflexivity|]. split; [intros _; do 2 eexists; reflexivity|]. discriminate.
Qed.

Lemma bind_gets {S A B : Type} (f : S -> A) (k : A -> Eff S B) (s : S) :
  bind (gets f) k s = k (f s) s.
Proof. reflexivity. Qed.

Lemma bind_onPage {A B : Type} (f : Page -> A * Page) (k : A -> Eff World B) (w : World) :
  bind (onPage f) k w = k (f (wPage w)).1 (mkWorld (f (wPage w)).2 (sent w)).
Proof. unfold bind, onPage. destruct (f (wPage w)). reflexivity. Qed.

Ltac eff_step :=
  repeat (first [rewrite bind_gets | rewrite bind_onPage]; cbv beta iota).





Lemma bind_liftWorld_modify {B : Type} (f : Page -> Page) (k : unit -> Eff World B) (w : World) :
  bind (liftWorld (modify f)) k w = k tt (mkWorld (f (wPage w)) (sent w)).
Proof. reflexivity. Qed.


Lemma captureAndFill_spec (includeScreenshot skipSubmit : bool) (w : World) :
  exists req w',
    strategyOf req = FullPage
    /\ sent w' = sent w ++ [req]
    /\ ((exists r, captureAndFill hostQuery autoSubmit provider includeScreenshot skipSubmit w
                   = Returned w' r
                   /\ refuses (provider (sent w) req) = false)
        \/ exists err, captureAndFill hostQuery autoSubmit provider includeScreenshot skipSubmit w
                       = Threw w' err).
Proof.
  unfold captureAndFill. eff_step.
  destruct (collectSchema (wPage w)) as [schema p1]. cbn [fst snd]. eff_step. cbn [wPage].
  set (w1 := mkWorld p1 (sent w)).
  set (req := fullPageRequest _ _ _ _ _).
  set (k := fun response : option JSON =>
              liftWorld (fillAnswers hostQuery autoSubmit (propOf response "answers") skipSubmit)).
  assert (Hfull : strategyOf req = FullPage).
  { unfold req, fullPageRequest. destruct schema.1; [destruct schema.2|]; reflexivity. }
  pose proof (send_then req "AI request failed" k w1) as Hsend.
  cbv zeta in Hsend. unfold k in Hsend at 2 3 4. cbv beta in Hsend.
  destruct Hsend as (Hsent & Hrf & Hq).
  { intros r w2. unfold k, liftWorld. destruct (fillAnswers _ _ _ _ _); reflexivity. }
  exists req.
  match type of Hsent with
  | context [outWorld ?o] => destruct o as [w' r|w' err] eqn:Hrun
  end.
  - exists w'. split; [exact Hfull|split; [exact Hsent|]].
    left. exists r. split; [reflexivity|]. apply (Hq w' r eq_refl).
  - exists w'. split; [exact Hfull|split; [exact Hsent|]].
    right. eauto.
Qed.



End Strategies.



(** ** Normalized keys and squeezed text *)

Lemma code_space (c : ascii) : (Str.code c =? 32) = true -> c = " "%char.
Proof.
  intros H. apply Nat.eqb_eq in H. unfold Str.code in H.
  rewrite <- (ascii_nat_embedding c), H. reflexivity.
Qed.

Lemma alnum_facts (c : ascii) :
  Str.isLowerAlnum c = true ->
  (Str.code c =? 32) = false /\ Str.isSpace c = false /\ Str.toLowerChar c = c.
Proof.
  destruct c as [[] [] [] [] [] [] [] []]; intros H; try discriminate H;
    repeat split; reflexivity.
Qed.

Lemma squash_tidy (b : bool) (s : string) :
  tidy b (Str.replaceRuns (fun c => negb (Str.isLowerAlnum c)) b s) = true.
Proof.
  revert b. induction s as [|c s IH]; intros b; [reflexivity|].
  cbn [Str.replaceRuns]. destruct (Str.isLowerAlnum c) eqn:E; cbn [negb].
  - cbn [tidy]. destruct (alnum_facts c E) as (-> & _). rewrite E. apply IH.
  - destruct b; [apply IH|]. cbn [tidy]. change (Str.code " " =? 32) with true.
    cbv iota. apply IH.
Qed.

(** A replacement of runs that takes the space for a member of the class,
    and no letter or digit, leaves a tidy string as it is. *)
Lemma tidy_replaceRuns (p : ascii -> bool) :
  p " "%char = true -> (forall c, Str.isLowerAlnum c = true -> p c = false) ->
  forall s b b', tidy b s = true -> (b' = true -> b = true) -> Str.replaceRuns p b' s = s.
Proof.
  intros Hsp Hal. induction s as [|c s IH]; intros b b' Ht Hb; [reflexivity|].
  cbn [tidy] in Ht. cbn [Str.replaceRuns].
  destruct (Str.code c =? 32) eqn:E.
  - apply code_space in E. subst c. rewrite Hsp.
    apply andb_true_iff in Ht as [Hnb Ht]. apply negb_true_iff in Hnb. subst b.
    destruct b'; [specialize (Hb eq_refl); discriminate|].
    f_equal. apply (IH true true Ht). reflexivity.
  - apply andb_true_iff in Ht as [Hc Ht]. rewrite (Hal c Hc).
    f_equal. apply (IH false false Ht). discriminate.
Qed.

Lemma tidy_toLowerCase (s : string) (b : bool) : tidy b s = true -> Str.toLowerCase s = s.
Proof.
  revert b. induction s as [|c s IH]; intros b Ht; [reflexivity|].
  cbn [tidy] in Ht. cbn [Str.toLowerCase].
  destruct (Str.code c =? 32) eqn:E.
  - apply code_space in E. subst c. apply andb_true_iff in Ht as [_ Ht].
    change (Str.toLowerChar " ") with " "%char. f_equal. eapply IH; exact Ht.
  - apply andb_true_iff in Ht as [Hc Ht]. destruct (alnum_facts c Hc) as (_ & _ & ->).
    f_equal. eapply IH; exact Ht.
Qed.

Lemma tidy_head (s : string) : tidy true s = true -> Str.trimStart s = s.
Proof.
  destruct s as [|c s]; [reflexivity|]. cbn [tidy Str.trimStart].
  destruct (Str.code c =? 32); [discriminate|].
  intros Ht. apply andb_true_iff in Ht as [Hc _].
  destruct (alnum_facts c Hc) as (_ & -> & _). reflexivity.
Qed.

Lemma tidy_trimStart (s : string) (b : bool) :
  tidy b s = true -> tidy true (Str.trimStart s) = true.
Proof.
  destruct s as [|c s]; [reflexivity|]. cbn [tidy]. intros Ht.
  destruct (Str.code c =? 32) eqn:E.
  - apply code_space in E. subst c. apply andb_true_iff in Ht as [_ Ht].
    change (Str.trimStart (String " " s)) with (Str.trimStart s).
    rewrite (tidy_head s Ht). exact Ht.
  - pose proof Ht as Ht'. apply andb_true_iff in Ht' as [Hc _].
    destruct (alnum_facts c Hc) as (_ & Hs & _).
    cbn [Str.trimStart]. rewrite Hs. cbn [tidy]. rewrite E. exact Ht.
Qed.

Lemma tidy_trimEnd (s : string) (b : bool) : tidy b s = true -> tidy b (Str.trimEnd s) = true.
Proof.
  revert b. induction s as [|c s IH]; intros b Ht; [reflexivity|].
  rewrite trimEnd_cons. destruct (Str.isEmpty (Str.trimEnd s) && Str.isSpace c); [reflexivity|].
  cbn [tidy] in *. destruct (Str.code c =? 32).
  - apply andb_true_iff in Ht as [-> Ht]. apply IH. exact Ht.
  - apply andb_true_iff in Ht as [-> Ht]. apply IH. exact Ht.
Qed.

Lemma trimEnd_trimEnd (s : string) : Str.trimEnd (Str.trimEnd s) = Str.trimEnd s.
Proof.
  induction s as [|c s IH]; [reflexivity|].
  rewrite trimEnd_cons. destruct (Str.isEmpty (Str.trimEnd s) && Str.isSpace c) eqn:E;
    [reflexivity|].
  rewrite trimEnd_cons, IH, E. reflexivity.
Qed.

Lemma normalizeKeyStr_canonical (s : string) : canonicalKey (normalizeKeyStr s) = true.
Proof.
  unfold canonicalKey, normalizeKeyStr, Str.trim, Str.collapseSpaces, Str.squashNonAlnum.
  pose proof (squash_tidy false (Str.toLowerCase s)) as Ht.
  rewrite (tidy_replaceRuns Str.isSpace eq_refl (fun c H => proj1 (proj2 (alnum_facts c H)))
             _ false false Ht) by discriminate.
  apply tidy_trimStart in Ht. rewrite (tidy_trimEnd _ _ Ht), trimEnd_trimEnd.
  unfold Str.eqb. rewrite bool_decide_eq_true_2; reflexivity.
Qed.

Lemma negb_alnum (c : ascii) :
  Str.isLowerAlnum c = true -> negb (Str.isLowerAlnum c) = false.
Proof. intros ->. reflexivity. Qed.

Lemma canonicalKey_fixed (k : string) : canonicalKey k = true -> normalizeKeyStr k = k.
Proof.
  unfold canonicalKey. intros H. apply andb_true_iff in H as [Ht He].
  apply eqb_true in He.
  unfold normalizeKeyStr, Str.trim, Str.collapseSpaces, Str.squashNonAlnum.
  rewrite (tidy_toLowerCase k true Ht).
  rewrite (tidy_replaceRuns (fun c => negb (Str.isLowerAlnum c)) eq_refl
             negb_alnum k true false Ht)
    by discriminate.
  rewrite (tidy_replaceRuns Str.isSpace eq_refl (fun c H => proj1 (proj2 (alnum_facts c H)))
             k true false Ht) by discriminate.
  rewrite (tidy_head k Ht). exact He.
Qed.

(** X1. A normalized key is made of lower-case letters and digits in words
    separated by single spaces, whatever value it is computed from. *)
Theorem normalizeKey_canonical (v : option JSON) : canonicalKey (normalizeKey v) = true.
Proof.
  destruct v as [v|]; [|reflexivity]. unfold normalizeKey.
  destruct (Js.truthy v); [apply normalizeKeyStr_canonical|reflexivity].
Qed.

(** X2. Normalizing a normalized key gives the same key. *)
Theorem normalizeKey_idempotent (v : option JSON) :
  normalizeKey (Some (JStr (normalizeKey v))) = normalizeKey v.
Proof.
  assert (H : canonicalKey (normalizeKey v) = true).
  { destruct v as [v|]; [|reflexivity]. unfold normalizeKey.
    destruct (Js.truthy v); [apply normalizeKeyStr_canonical|reflexivity]. }
  unfold normalizeKey at 1. cbn [Js.truthy Js.toString].
  destruct (Str.isEmpty (normalizeKey v)) eqn:E; cbn [negb].
  - destruct (normalizeKey v); [reflexivity|discriminate].
  - apply canonicalKey_fixed. exact H.
Qed.









(** ** Case folding is finer than normalizing *)

Lemma toLowerChar_twice (c : ascii) : Str.toLowerChar (Str.toLowerChar c) = Str.toLowerChar c.
Proof. destruct c as [[] [] [] [] [] [] [] []]; reflexivity. Qed.

Lemma toLowerCase_twice (s : string) : Str.toLowerCase (Str.toLowerCase s) = Str.toLowerCase s.
Proof.
  induction s as [|c s IH]; [reflexivity|]. cbn [Str.toLowerCase].
  rewrite toLowerChar_twice, IH. reflexivity.
Qed.

Lemma toLowerCase_replaceRuns (b : bool) (s : string) :
  Str.toLowerCase (Str.replaceRuns Str.isSpace b s)
  = Str.replaceRuns Str.isSpace b (Str.toLowerCase s).
Proof.
  revert b. induction s as [|c s IH]; intros b; [reflexivity|].
  cbn [Str.toLowerCase Str.replaceRuns]. rewrite isSpace_toLowerChar.
  destruct (Str.isSpace c) eqn:E.
  - destruct b; [apply IH|]. cbn [Str.toLowerCase]. rewrite IH. reflexivity.
  - cbn [Str.toLowerCase]. rewrite IH. reflexivity.
Qed.

Lemma toLowerCase_isEmpty (s : string) : Str.isEmpty (Str.toLowerCase s) = Str.isEmpty s.
Proof. destruct s; reflexivity. Qed.

Lemma toLowerCase_trimEnd (s : string) :
  Str.toLowerCase (Str.trimEnd s) = Str.trimEnd (Str.toLowerCase s).
Proof.
  induction s as [|c s IH]; [reflexivity|].
  cbn [Str.toLowerCase]. rewrite !trimEnd_cons, <- IH, toLowerCase_isEmpty, isSpace_toLowerChar.
  destruct (_ && _); [reflexivity|]. cbn [Str.toLowerCase]. reflexivity.
Qed.

Lemma space_not_alnum (c : ascii) : Str.isSpace c = true -> Str.isLowerAlnum c = false.
Proof.
  intros H. destruct (Str.isLowerAlnum c) eqn:E; [|reflexivity].
  destruct (alnum_facts c E) as (_ & Hs & _). congruence.
Qed.

(** Squashing after collapsing is squashing. *)
Lemma squash_collapse (s : string) (b b' : bool) :
  (b' = true -> b = true) ->
  Str.replaceRuns (fun c => negb (Str.isLowerAlnum c)) b (Str.replaceRuns Str.isSpace b' s)
  = Str.replaceRuns (fun c => negb (Str.isLowerAlnum c)) b s.
Proof.
  revert b b'. induction s as [|c s IH]; intros b b' Hb; [reflexivity|].
  cbn [Str.replaceRuns]. destruct (Str.isSpace c) eqn:E.
  - rewrite (space_not_alnum c E). cbn [negb]. destruct b'.
    + rewrite (Hb eq_refl). apply IH. reflexivity.
    + cbn [Str.replaceRuns]. change (Str.isLowerAlnum " ") with false. cbn [negb].
      destruct b; rewrite (IH true true) by reflexivity; reflexivity.
  - cbn [Str.replaceRuns]. destruct (Str.isLowerAlnum c); cbn [negb].
    + rewrite (IH false false) by discriminate. reflexivity.
    + destruct b; rewrite (IH true false) by discriminate; reflexivity.
Qed.

Lemma trimStart_squash_flag (s : string) (b : bool) :
  Str.trimStart (Str.replaceRuns (fun c => negb (Str.isLowerAlnum c)) b s)
  = Str.trimStart (Str.replaceRuns (fun c => negb (Str.isLowerAlnum c)) true s).
Proof.
  destruct s as [|c s]; [reflexivity|]. cbn [Str.replaceRuns].
  destruct (Str.isLowerAlnum c); cbn [negb]; [reflexivity|].
  destruct b; reflexivity.
Qed.

Lemma trimStart_squash (s : string) (b : bool) :
  Str.trimStart (Str.replaceRuns (fun c => negb (Str.isLowerAlnum c)) b (Str.trimStart s))
  = Str.trimStart (Str.replaceRuns (fun c => negb (Str.isLowerAlnum c)) b s).
Proof.
  revert b. induction s as [|c s IH]; intros b; [reflexivity|].
  cbn [Str.trimStart]. destruct (Str.isSpace c) eqn:E; [|reflexivity].
  cbn [Str.replaceRuns]. rewrite (space_not_alnum c E). cbn [negb].
  rewrite (trimStart_squash_flag (Str.trimStart s)), IH.
  destruct b; reflexivity.
Qed.

Lemma trimEnd_snoc_eq (c : ascii) (a b : string) :
  Str.trimEnd a = Str.trimEnd b -> Str.trimEnd (String c a) = Str.trimEnd (String c b).
Proof. intros H. rewrite !trimEnd_cons, H. reflexivity. Qed.

Lemma trimEnd_squash (s : string) (b : bool) :
  Str.trimEnd (Str.replaceRuns (fun c => negb (Str.isLowerAlnum c)) b (Str.trimEnd s))
  = Str.trimEnd (Str.replaceRuns (fun c => negb (Str.isLowerAlnum c)) b s).
Proof.
  revert b. induction s as [|c s IH]; intros b; [reflexivity|].
  rewrite trimEnd_cons.
  destruct (Str.isEmpty (Str.trimEnd s) && Str.isSpace c) eqn:E.
  - apply andb_true_iff in E as [Hemp Hsp].
    assert (Hs : Str.trimEnd s = "") by (destruct (Str.trimEnd s); [reflexivity|discriminate]).
    cbn [Str.replaceRuns]. rewrite (space_not_alnum c Hsp). cbn [negb].
    pose proof (IH true) as Ht. rewrite Hs in Ht. cbn [Str.replaceRuns Str.trimEnd] in Ht.
    destruct b; [exact Ht|].
    rewrite trimEnd_cons, <- Ht. reflexivity.
  - cbn [Str.replaceRuns]. destruct (Str.isLowerAlnum c); cbn [negb].
    + apply trimEnd_snoc_eq, IH.
    + destruct b; [apply IH|apply trimEnd_snoc_eq, IH].
Qed.

Lemma trimEnd_trimStart (s : string) :
  Str.trimEnd (Str.trimStart s) = Str.trimStart (Str.trimEnd s).
Proof.
  induction s as [|c s IH]; [reflexivity|].
  rewrite trimEnd_cons. cbn [Str.trimStart]. destruct (Str.isSpace c) eqn:E.
  - rewrite andb_true_r. rewrite IH.
    destruct (Str.trimEnd s) eqn:Hs; [reflexivity|].
    cbn [Str.isEmpty Str.trimStart]. rewrite E. reflexivity.
  - rewrite andb_false_r. cbn [Str.trimStart]. rewrite E, trimEnd_cons, E, andb_false_r.
    reflexivity.
Qed.

(** Normalizing, written without the collapse it does not need. *)
Lemma normalizeKeyStr_alt (s : string) :
  normalizeKeyStr s
  = Str.trim (Str.replaceRuns (fun c => negb (Str.isLowerAlnum c)) false (Str.toLowerCase s)).
Proof.
  unfold normalizeKeyStr, Str.collapseSpaces, Str.squashNonAlnum.
  rewrite (tidy_replaceRuns Str.isSpace eq_refl (fun c H => proj1 (proj2 (alnum_facts c H)))
             _ false false (squash_tidy false _)) by discriminate.
  reflexivity.
Qed.

Lemma normalizeKeyStr_foldCase (s : string) : normalizeKeyStr (foldCase s) = normalizeKeyStr s.
Proof.
  rewrite !normalizeKeyStr_alt. unfold foldCase, Str.trim, Str.collapseSpaces.
  rewrite toLowerCase_trimEnd, toLowerCase_trimStart, toLowerCase_replaceRuns, toLowerCase_twice.
  set (y := Str.toLowerCase s).
  set (sq := Str.replaceRuns (fun c => negb (Str.isLowerAlnum c)) false).
  rewrite (trimEnd_trimStart (sq _)). unfold sq at 1. rewrite trimEnd_squash. fold sq.
  rewrite <- trimEnd_trimStart. unfold sq at 1. rewrite trimStart_squash.
  rewrite squash_collapse by discriminate. reflexivity.
Qed.

(** X4. Two values that are equal up to case and spacing have the same
    normalized key: the score of 60 is given wherever the score of 90 is. *)
Theorem folded_equal_normalizes_equal (a b : JSON) :
  keepPunctLower (Some a) = keepPunctLower (Some b) ->
  normalizeKey (Some a) = normalizeKey (Some b).
Proof.
  assert (H : forall v, normalizeKey (Some v) = normalizeKeyStr (keepPunctLower (Some v))).
  { intros v. unfold normalizeKey, keepPunctLower. fold (foldCase (if Js.truthy v then Js.toString v else "")).
    rewrite normalizeKeyStr_foldCase. destruct (Js.truthy v); reflexivity. }
  intros Heq. rewrite !H, Heq. reflexivity.
Qed.

Lemma folded_equal_normalizes_equal_witness :
  normalizeKey (Some (JStr "  Yes,   PLEASE ")) = normalizeKey (Some (JStr "yes, please")).
Proof.
  apply folded_equal_normalizes_equal. vm_compute. reflexivity.
Defined.

(** ** What the matcher returns *)

Lemma scanOptions_member (p : Page) (val : JSON) (opts : list ChoiceOption)
    (best : option ChoiceOption) (bestScore : Z) (o : ChoiceOption) :
  scanOptions p val opts best bestScore = Some o -> In o opts \/ best = Some o.
Proof.
  revert best bestScore.
  induction opts as [|x rest IH]; intros best bestScore H; cbn in H.
  - now right.
  - destruct (idIs val x); [injection H as ->; left; now left|].
    destruct (labelIs val x); [injection H as ->; left; now left|].
    destruct (bestScore <? scoreOf p val x)%Z.
    + destruct (IH _ _ H) as [Hin|Hb]; [left; now right|].
      injection Hb as ->. left; now left.
    + destruct (IH _ _ H) as [Hin|Hb]; [left; now right|now right].
Qed.

Lemma tieBreak_member (val : JSON) (opts : list ChoiceOption) (o : ChoiceOption) :
  tieBreak val opts = Some o -> In o opts.
Proof.
  unfold tieBreak. destruct (2 <=? _); [|discriminate].
  intros H.
  assert (Hcs : In o (csCandidates val opts)).
  { destruct (List.find (labelIs val) _) eqn:E.
    - injection H as ->. now apply find_some in E.
    - now apply find_some in H. }
  unfold csCandidates in Hcs. apply filter_In in Hcs. tauto.
Qed.

(** X5. The option [selectBy] returns is one of the options of the group. *)
Theorem selectBy_member (p : Page) (opts : list ChoiceOption) (val : JSON) (o : ChoiceOption) :
  selectBy p opts val = Some o -> In o opts.
Proof.
  unfold selectBy. destruct val; try discriminate;
    (destruct (tieBreak _ opts) eqn:E;
     [intros H; injection H as ->; now apply tieBreak_member in E
     |intros H; apply scanOptions_member in H as [H|H]; [exact H|discriminate]]).
Qed.

Lemma selectBy_member_witness :
  selectBy Sample.bare Sample.yesNo (JStr "yes") = Some (Sample.opt 1 "Yes" "type:radio|idx:0")
  /\ In (Sample.opt 1 "Yes" "type:radio|idx:0") Sample.yesNo.
Proof.
  assert (H : selectBy Sample.bare Sample.yesNo (JStr "yes")
              = Some (Sample.opt 1 "Yes" "type:radio|idx:0")) by (vm_compute; reflexivity).
  split; [exact H|exact (selectBy_member _ _ _ _ H)].
Defined.

(** X6. [selectBy] answers with no option exactly when the value is null or
    the group has no option. *)
Theorem selectBy_none_iff (p : Page) (opts : list ChoiceOption) (val : JSON) :
  selectBy p opts val = None <-> val = JNull \/ opts = [].
Proof.
  split.
  - intros H.
    assert (Hd : val = JNull \/ val <> JNull) by (destruct val; auto; right; discriminate).
    destruct Hd as [|Hv]; [now left|].
    destruct opts as [|o rest]; [now right|].
    destruct (selectBy_never_null p (o :: rest) val Hv ltac:(discriminate)) as [x Hx].
    congruence.
  - intros [->| ->]; [reflexivity|].
    destruct val; reflexivity.
Qed.

Lemma scanOptions_argmax (p : Page) (val : JSON) (opts : list ChoiceOption) :
  (forall o, In o opts -> exactHit val o = false) ->
  forall best bestScore,
    (scanOptions p val opts best bestScore = best
     /\ forall x, In x opts -> (scoreOf p val x <= bestScore)%Z)
    \/ exists pre o post,
         opts = pre ++ o :: post
         /\ scanOptions p val opts best bestScore = Some o
         /\ (bestScore < scoreOf p val o)%Z
         /\ (forall x, In x pre -> (scoreOf p val x < scoreOf p val o)%Z)
         /\ (forall x, In x post -> (scoreOf p val x <= scoreOf p val o)%Z).
Proof.
  induction opts as [|o rest IH]; intros Hex best bestScore.
  - left. split; [reflexivity|intros x []].
  - assert (Ho : exactHit val o = false) by (apply Hex; now left).
    unfold exactHit in Ho. apply orb_false_iff in Ho as [Hid Hlab].
    cbn [scanOptions]. rewrite Hid, Hlab. cbv zeta.
    assert (Hrest : forall x, In x rest -> exactHit val x = false)
      by (intros x Hx; apply Hex; now right).
    destruct (bestScore <? scoreOf p val o)%Z eqn:E.
    + apply Z.ltb_lt in E.
      destruct (IH Hrest (Some o) (scoreOf p val o))
        as [[Heq Hle]|(pre & o' & post & -> & Heq & Hlt & Hpre & Hpost)].
      * right. exists [], o, rest. repeat split; auto. intros x [].
      * right. exists (o :: pre), o', post.
        split; [reflexivity|]. split; [exact Heq|]. split; [lia|].
        split; [|exact Hpost]. intros x [<-|Hx]; [exact Hlt|now apply Hpre].
    + apply Z.ltb_ge in E.
      destruct (IH Hrest best bestScore)
        as [[Heq Hle]|(pre & o' & post & -> & Heq & Hlt & Hpre & Hpost)].
      * left. split; [exact Heq|]. intros x [<-|Hx]; [exact E|now apply Hle].
      * right. exists (o :: pre), o', post.
        split; [reflexivity|]. split; [exact Heq|]. split; [exact Hlt|].
        split; [|exact Hpost]. intros x [<-|Hx]; [lia|now apply Hpre].
Qed.

(** X7. Without an exact hit and without a tie-break, [selectBy] returns
    the first option of the highest score. *)
Theorem selectBy_first_of_best_score (p : Page) (opts : list ChoiceOption) (val : JSON)
    (o : ChoiceOption) :
  tieBreak val opts = None ->
  (forall x, In x opts -> exactHit val x = false) ->
  selectBy p opts val = Some o ->
  exists pre post,
    opts = pre ++ o :: post
    /\ (forall x, In x pre -> (scoreOf p val x < scoreOf p val o)%Z)
    /\ (forall x, In x post -> (scoreOf p val x <= scoreOf p val o)%Z).
Proof.
  intros Htie Hex Hsel.
  assert (Hscan : scanOptions p val opts None (-1)%Z = Some o).
  { unfold selectBy in Hsel. rewrite Htie in Hsel. destruct val; try discriminate; exact Hsel. }
  destruct (scanOptions_argmax p val opts Hex None (-1)%Z)
    as [[Heq _]|(pre & o' & post & -> & Heq & _ & Hpre & Hpost)].
  - congruence.
  - rewrite Heq in Hscan. injection Hscan as ->. now exists pre, post.
Qed.

Lemma selectBy_first_of_best_score_witness :
  exists pre post,
    Sample.colorOptions = pre ++ Sample.opt 5 "Green" "name:color|type:radio|idx:1" :: post
    /\ (forall x, In x pre ->
        (scoreOf Sample.colors (JStr "green!") x
         < scoreOf Sample.colors (JStr "green!") (Sample.opt 5 "Green" "name:color|type:radio|idx:1"))%Z)
    /\ (forall x, In x post ->
        (scoreOf Sample.colors (JStr "green!") x
         <= scoreOf Sample.colors (JStr "green!") (Sample.opt 5 "Green" "name:color|type:radio|idx:1"))%Z).
Proof.
  apply (selectBy_first_of_best_score Sample.colors Sample.colorOptions (JStr "green!")).
  - vm_compute; reflexivity.
  - intros x Hx. cbn in Hx.
    destruct Hx as [<-|[<-|[<-|[]]]]; vm_compute; reflexivity.
  - vm_compute; reflexivity.
Defined.

(** ** Marking without clearing, and writing twice *)

(** X8. Checking an option that is not a radio, as an answer list does,
    writes to that option only. *)
Theorem ensureChecked_multi_local (p : Page) (el : nat) (e : Element) (suppressSubmit : bool) :
  Dom.node p el = Some e -> kindOf e <> "radio" -> faulty p el = false ->
  exists q,
    ensureChecked el false suppressSubmit p = Returned q tt
    /\ trace q = trace p ++ markEffect p el :: notifications p el suppressSubmit
    /\ selected q el = true
    /\ (forall m, m <> el -> Dom.node q m = Dom.node p m).
Proof.
  intros He Hk Hf.
  destruct (marking_spec el suppressSubmit p Hf) as (q & Hrun & Htr & Hsel & Hfr);
    [congruence|].
  exists q. split; [|auto].
  unfold ensureChecked. rewrite bind_gets; cbv beta iota. rewrite He.
  assert (Hne : Str.eqb (kindOf e) "radio" = false).
  { destruct (Str.eqb (kindOf e) "radio") eqn:E; [|reflexivity].
    apply eqb_true in E. contradiction. }
  rewrite Hne. cbn [orb when].
  erewrite bind_returned by reflexivity. rewrite bind_gets; cbv beta iota. exact Hrun.
Qed.

Lemma ensureChecked_multi_local_witness :
  exists q,
    ensureChecked 4 false false Sample.guarded = Returned q tt
    /\ trace q = trace Sample.guarded
                 ++ markEffect Sample.guarded 4 :: notifications Sample.guarded 4 false
    /\ selected q 4 = true
    /\ (forall m, m <> 4 -> Dom.node q m = Dom.node Sample.guarded m).
Proof.
  eapply (ensureChecked_multi_local Sample.guarded 4).
  - reflexivity.
  - vm_compute. discriminate.
  - reflexivity.
Defined.

(** X9. A text control that is given the same answer twice holds it after
    each write, and every write sends its own notifications: the function
    does not look at the value the control already has. *)
Theorem setElementValue_again (p : Page) (el : nat) (e : Element) (value : option JSON)
    (suppressSubmit : bool) :
  Dom.node p el = Some e -> Dom.tagIn ["textarea"; "input"] e = true ->
  let once := setElementValue el value suppressSubmit p in
  let twice := setElementValue el value suppressSubmit once in
  let written :=
    [SetValue el (default "undefined" (renderValue value)); DispatchEvent el "input"]
    ++ (if suppressSubmit then [] else [DispatchEvent el "change"]) in
  nodes twice = nodes once
  /\ trace twice = trace p ++ written ++ written.
Proof.
  intros He Ht once twice written.
  assert (He1 : exists e1, Dom.node once el = Some e1 /\ Dom.tagIn ["textarea"; "input"] e1 = true).
  { pose proof (setElementValue_sameTags el value suppressSubmit p el) as Hs.
    fold once in Hs. unfold tagOf in Hs. rewrite He in Hs.
    destruct (Dom.node once el) as [e1|]; [|discriminate].
    exists e1. split; [reflexivity|]. simpl in Hs. injection Hs as Hs.
    unfold Dom.tagIn in *. rewrite Hs. exact Ht. }
  destruct He1 as (e1 & He1 & Ht1).
  destruct (setElementValue_input p el e value suppressSubmit He Ht) as [Htr _].
  destruct (setElementValue_input once el e1 value suppressSubmit He1 Ht1) as [Htr2 _].
  fold once in Htr. fold twice in Htr2.
  split.
  - unfold twice, once, setElementValue. rewrite He, Ht.
    set (v := default "undefined" (renderValue value)).
    assert (Hn : forall q, Dom.node (if negb suppressSubmit
                             then Dom.dispatchEvent el "change" (Dom.dispatchEvent el "input" (Dom.setValue el v q))
                             else Dom.dispatchEvent el "input" (Dom.setValue el v q)) el
                           = Dom.withValue v <$> Dom.node q el).
    { intros q. destruct suppressSubmit; cbn [negb];
        rewrite ?node_emit; unfold Dom.dispatchEvent; rewrite ?node_emit;
        unfold Dom.setValue; rewrite node_touch, decide_True by reflexivity; reflexivity. }
    rewrite Hn, He. cbn [fmap option_fmap option_map].
    replace (Dom.tagIn ["textarea"; "input"] (Dom.withValue v e)) with true
      by (symmetry; exact Ht).
    destruct suppressSubmit; cbn [negb]; cbn -[alter];
      rewrite list_alter_alter_eq; reflexivity.
  - rewrite Htr2, Htr. fold written. rewrite <- app_assoc. reflexivity.
Qed.

Lemma setElementValue_again_witness :
  nodes (setElementValue 1 (Some (JStr "a@b.c")) false
           (setElementValue 1 (Some (JStr "a@b.c")) false Sample.email))
  = nodes (setElementValue 1 (Some (JStr "a@b.c")) false Sample.email)
  /\ trace (setElementValue 1 (Some (JStr "a@b.c")) false
              (setElementValue 1 (Some (JStr "a@b.c")) false Sample.email))
     = trace Sample.email
       ++ ([SetValue 1 "a@b.c"; DispatchEvent 1 "input"] ++ [DispatchEvent 1 "change"])
       ++ ([SetValue 1 "a@b.c"; DispatchEvent 1 "input"] ++ [DispatchEvent 1 "change"]).
Proof.
  eapply (setElementValue_again Sample.email 1); reflexivity.
Defined.

(** ** Effects of a fill *)

Lemma extends_refl (P : Effect -> bool) (p : Page) : extends P p p.
Proof. exists []. rewrite app_nil_r. split; reflexivity. Qed.

Lemma extends_trans (P : Effect -> bool) (p q r : Page) :
  extends P p q -> extends P q r -> extends P p r.
Proof.
  intros (a & Ha & Pa) (b & Hb & Pb). exists (a ++ b). split.
  - rewrite Hb, Ha, app_assoc. reflexivity.
  - rewrite forallb_app, Pa, Pb. reflexivity.
Qed.

Lemma extends_weaken (P Q : Effect -> bool) (p q : Page) :
  (forall ev, P ev = true -> Q ev = true) -> extends P p q -> extends Q p q.
Proof.
  intros H (a & Ha & Pa). exists a. split; [exact Ha|].
  apply forallb_forall. intros ev Hev. apply H.
  rewrite forallb_forall in Pa. now apply Pa.
Qed.

Lemma extends_touch (P : Effect -> bool) (f : Element -> Element) (n : nat) (ev : Effect)
    (p : Page) :
  P ev = true -> extends P p (Dom.touch f n ev p).
Proof. intros H. exists [ev]. split; [reflexivity|]. simpl. rewrite H. reflexivity. Qed.

Lemma extends_emit (P : Effect -> bool) (ev : Effect) (p : Page) :
  P ev = true -> extends P p (Dom.emit ev p).
Proof. intros H. exists [ev]. split; [reflexivity|]. simpl. rewrite H. reflexivity. Qed.

Section Emits.

Context {S : Type} (proj : S -> Page) (P : Effect -> bool).

Lemma emitsOnly_ret {A : Type} (a : A) : emitsOnly proj P (ret a).
Proof. intros s. apply extends_refl. Qed.

Lemma emitsOnly_gets {A : Type} (f : S -> A) : emitsOnly proj P (gets f).
Proof. intros s. apply extends_refl. Qed.

Lemma emitsOnly_bind {A B : Type} (m : Eff S A) (k : A -> Eff S B) :
  emitsOnly proj P m -> (forall a, emitsOnly proj P (k a)) -> emitsOnly proj P (bind m k).
Proof.
  intros Hm Hk s. unfold bind. specialize (Hm s).
  destruct (m s) as [s' a|s' err]; [|exact Hm].
  eapply extends_trans; [exact Hm|apply Hk].
Qed.

Lemma emitsOnly_forEach {A : Type} (l : list A) (f : A -> Eff S unit) :
  (forall x, emitsOnly proj P (f x)) -> emitsOnly proj P (forEach l f).
Proof.
  intros Hf. induction l as [|x l IH]; [apply emitsOnly_ret|].
  simpl. apply emitsOnly_bind; [apply Hf|intros _; exact IH].
Qed.

Lemma emitsOnly_when (b : bool) (m : Eff S unit) :
  emitsOnly proj P m -> emitsOnly proj P (when b m).
Proof. intros Hm. destruct b; [exact Hm|apply emitsOnly_ret]. Qed.

Lemma emitsOnly_modify (f : S -> S) :
  (forall s, extends P (proj s) (proj (f s))) -> emitsOnly proj P (modify f).
Proof. intros Hf s. apply Hf. Qed.

End Emits.

Lemma emitsOnly_liftPage {A : Type} (P : Effect -> bool) (m : Eff Page A) :
  emitsOnly onPageItself P m -> emitsOnly page P (liftPage m).
Proof.
  intros Hm s. unfold liftPage. specialize (Hm (page s)).
  destruct (m (page s)); exact Hm.
Qed.

Lemma setElementValue_quiet (el : nat) (value : option JSON) (suppressSubmit : bool) (p : Page) :
  extends noSubmission p (setElementValue el value suppressSubmit p).
Proof.
  unfold setElementValue. destruct (Dom.node p el) as [e|]; [|apply extends_refl].
  destruct (Dom.tagIn _ e).
  - cbv zeta.
    assert (H : extends noSubmission p
                  (Dom.dispatchEvent el "input"
                     (Dom.setValue el (default "undefined" (renderValue value)) p))).
    { eapply extends_trans; [|apply extends_emit; reflexivity].
      apply extends_touch. reflexivity. }
    destruct (negb suppressSubmit); [|exact H].
    eapply extends_trans; [exact H|apply extends_emit; reflexivity].
  - destruct (Dom.hasAttr e "contenteditable"); [|apply extends_refl].
    cbv zeta. eapply extends_trans; [|apply extends_emit; reflexivity].
    apply extends_touch. reflexivity.
Qed.

Lemma writeAriaChecked_quiet (n : nat) (v : string) :
  emitsOnly onPageItself noSubmission (writeAriaChecked n v).
Proof.
  intros p. unfold writeAriaChecked. destruct (faulty p n); [apply extends_refl|].
  apply extends_touch. reflexivity.
Qed.

Lemma writeChecked_quiet (n : nat) (b : bool) :
  emitsOnly onPageItself noSubmission (writeChecked n b).
Proof.
  intros p. unfold writeChecked. destruct (faulty p n); [apply extends_refl|].
  apply extends_touch. reflexivity.
Qed.

Lemma dispatch_quiet (n : nat) (ev : string) : emitsOnly onPageItself noSubmission (dispatch n ev).
Proof. intros p. apply extends_emit. reflexivity. Qed.

Lemma ensureChecked_quiet (el : nat) (isRadio suppressSubmit : bool) :
  emitsOnly onPageItself noSubmission (ensureChecked el isRadio suppressSubmit).
Proof.
  unfold ensureChecked.
  apply emitsOnly_bind; [apply emitsOnly_gets|intros kind].
  apply emitsOnly_bind.
  { apply emitsOnly_when. apply emitsOnly_bind; [apply emitsOnly_gets|intros [g|]].
    - apply emitsOnly_forEach. intros n. unfold clearSibling.
      destruct (n =? el); [apply emitsOnly_ret|].
      apply emitsOnly_bind; [apply emitsOnly_gets|intros []].
      + apply writeAriaChecked_quiet.
      + apply writeChecked_quiet.
    - apply emitsOnly_ret. }
  intros _. apply emitsOnly_bind; [apply emitsOnly_gets|intros []].
  - unfold ensureCheckedRole. apply emitsOnly_bind; [apply writeAriaChecked_quiet|intros _].
    destruct (negb suppressSubmit); [|apply emitsOnly_ret].
    apply emitsOnly_bind; [apply dispatch_quiet|intros _; apply dispatch_quiet].
  - unfold ensureCheckedNative. apply emitsOnly_bind; [apply emitsOnly_gets|intros willChange].
    apply emitsOnly_bind; [apply writeChecked_quiet|intros _].
    apply emitsOnly_bind; [apply dispatch_quiet|intros _].
    destruct (negb suppressSubmit); [|apply emitsOnly_ret].
    destruct (negb willChange); apply dispatch_quiet.
Qed.

Lemma countFilled_quiet : emitsOnly page noSubmission countFilled.
Proof. apply emitsOnly_modify. intros s. apply extends_refl. Qed.

Lemma noteForm_quiet (el : nat) : emitsOnly page noSubmission (noteForm el).
Proof.
  apply emitsOnly_modify. intros s. destruct (Dom.closest _ _ _); apply extends_refl.
Qed.

Section FillQuiet.

Variable hostQuery : string -> Page -> QueryResult.
Variable skipSubmit : bool.
Variable ix : FieldIndex.

Lemma applyTo_quiet (el : option nat) (value : option JSON) :
  emitsOnly page noSubmission (applyTo skipSubmit el value).
Proof.
  destruct el as [n|]; [|apply emitsOnly_ret]. unfold applyTo.
  apply emitsOnly_bind.
  { apply emitsOnly_liftPage, emitsOnly_modify. intros p. apply setElementValue_quiet. }
  intros _. apply emitsOnly_bind; [apply countFilled_quiet|intros _].
  apply emitsOnly_bind; [apply noteForm_quiet|intros _; apply emitsOnly_ret].
Qed.

Lemma guardedApply_quiet (b : bool) (el : option nat) (value : option JSON) :
  emitsOnly page noSubmission (if b then applyTo skipSubmit el value else ret false).
Proof. destruct b; [apply applyTo_quiet|apply emitsOnly_ret]. Qed.

Lemma querySelectorExt_quiet (sel : JSON) :
  emitsOnly page noSubmission (querySelectorExt hostQuery sel).
Proof.
  intros s. unfold querySelectorExt. destruct (hostQuery _ _); apply extends_refl.
Qed.

Lemma fillItem_quiet (item : JSON) :
  emitsOnly page noSubmission (fillItem hostQuery skipSubmit ix item).
Proof.
  unfold fillItem. destruct (negb (Js.truthy item)); [apply emitsOnly_ret|].
  apply emitsOnly_bind; [apply guardedApply_quiet|intros []; [apply emitsOnly_ret|]].
  apply emitsOnly_bind.
  { destruct (Js.prop item "selector") as [sel|]; [|apply emitsOnly_ret].
    destruct (Js.truthy sel); [|apply emitsOnly_ret].
    apply emitsOnly_bind; [apply querySelectorExt_quiet|intros el; apply applyTo_quiet]. }
  intros []; [apply emitsOnly_ret|].
  apply emitsOnly_bind; [apply guardedApply_quiet|intros []; [apply emitsOnly_ret|]].
  apply emitsOnly_bind; [apply guardedApply_quiet|intros []; [apply emitsOnly_ret|]].
  apply emitsOnly_bind; [apply guardedApply_quiet|intros _; apply emitsOnly_ret].
Qed.

Lemma chooseOption_quiet (g : ChoiceGroup) (isRadio : bool) (v : JSON) :
  emitsOnly page noSubmission (chooseOption skipSubmit g isRadio v).
Proof.
  unfold chooseOption.
  apply emitsOnly_bind; [apply emitsOnly_gets|intros [o|]]; [|apply emitsOnly_ret].
  apply emitsOnly_bind; [apply emitsOnly_liftPage, ensureChecked_quiet|intros _].
  apply emitsOnly_bind; [apply countFilled_quiet|intros _; apply noteForm_quiet].
Qed.

Lemma fillChoice_quiet (entry : string * JSON) :
  emitsOnly page noSubmission (fillChoice skipSubmit ix entry).
Proof.
  destruct entry as [groupKey value]. unfold fillChoice.
  destruct (resolveGroup ix groupKey) as [g|]; [|apply emitsOnly_ret].
  destruct value; try apply emitsOnly_ret.
  - apply chooseOption_quiet.
  - apply emitsOnly_forEach. intros v. apply chooseOption_quiet.
Qed.

Lemma fillEntry_quiet (entry : string * JSON) :
  emitsOnly page noSubmission (fillEntry skipSubmit ix entry).
Proof.
  destruct entry as [key value]. unfold fillEntry.
  destruct (resolveKey ix key); [|apply emitsOnly_ret].
  apply emitsOnly_bind; [apply applyTo_quiet|intros _; apply emitsOnly_ret].
Qed.

Lemma fillShapes_quiet (answers : JSON) :
  emitsOnly page noSubmission (fillShapes hostQuery skipSubmit ix answers).
Proof.
  unfold fillShapes. destruct answers; try apply emitsOnly_ret.
  - apply emitsOnly_forEach, fillItem_quiet.
  - apply emitsOnly_bind.
    + apply emitsOnly_when, emitsOnly_forEach, fillChoice_quiet.
    + intros _. destruct (isObjectValue _); apply emitsOnly_forEach, fillEntry_quiet.
Qed.

End FillQuiet.

Lemma indexElement_labels (n : nat) (ix : FieldIndex) (p : Page) :
  extends (writesAttr "data-autoanswer-label") p (indexElement n (ix, p)).2.
Proof.
  unfold indexElement. destruct (Dom.node p n) as [e|]; [|apply extends_refl].
  set (label := normalizeKey (Some (JStr (getLabelForElement p n)))).
  assert (H : extends (writesAttr "data-autoanswer-label") p
                (if nonEmpty label
                 then Dom.setAttribute n "data-autoanswer-label" label p else p)).
  { destruct (nonEmpty label); [apply extends_touch; reflexivity|apply extends_refl]. }
  destruct (nonEmpty (Dom.attrOr e "data-autoanswer-group")); [|exact H].
  destruct (byGroup ix !! _); exact H.
Qed.

Lemma buildFieldIndex_labels (p : Page) :
  extends (writesAttr "data-autoanswer-label") p (buildFieldIndex p).2.
Proof.
  unfold buildFieldIndex. generalize (Dom.docQueryAll p Dom.selTagged) as l.
  intros l.
  assert (H : forall st, extends (writesAttr "data-autoanswer-label") p st.2 ->
                extends (writesAttr "data-autoanswer-label") p
                  (fold_left (fun st n => indexElement n st) l st).2).
  { induction l as [|n l IH]; intros st Hst; [exact Hst|].
    simpl. apply IH. destruct st as [ix q]. eapply extends_trans; [exact Hst|].
    apply indexElement_labels. }
  apply H. apply extends_refl.
Qed.

Lemma writesAttr_noSubmission (k : string) (ev : Effect) :
  writesAttr k ev = true -> noSubmission ev = true.
Proof. destruct ev; cbn; intros H; first [reflexivity|discriminate H]. Qed.

(** What the submission step adds to the trace: nothing, one click on a
    submit control, or one call of the form's [submit]. *)
Lemma submitTouched_cases (autoSubmit : option JSON) (skipSubmit : bool) (s : FillState) :
  exists s' b tail,
    submitTouched autoSubmit skipSubmit s = Returned s' b
    /\ trace (page s') = trace (page s) ++ tail
    /\ length tail <= 1
    /\ (b = false -> tail = [])
    /\ (b = true -> Js.truthy' autoSubmit = true /\ skipSubmit = false).
Proof.
  unfold submitTouched. rewrite bind_gets; cbv beta iota.
  destruct (Js.truthy' autoSubmit && negb skipSubmit) eqn:E.
  - apply andb_true_iff in E as [Ha Hs]. apply negb_true_iff in Hs.
    destruct (touchedForms s) as [|form rest].
    + exists s, false, []. rewrite app_nil_r. repeat split; auto; discriminate.
    + rewrite bind_gets; cbv beta iota.
      destruct (Dom.query (page s) form selSubmitType) as [b|].
      * eexists _, true, [Click b]. split; [reflexivity|]. repeat split; auto; discriminate.
      * destruct (Dom.query (page s) form selButtonLike) as [b|].
        -- eexists _, true, [Click b]. split; [reflexivity|]. repeat split; auto; discriminate.
        -- destruct (submitCallable (page s) form).
           ++ eexists _, true, [Submit form]. split; [reflexivity|].
              repeat split; auto; discriminate.
           ++ eexists _, true, []. split; [reflexivity|]. simpl. rewrite app_nil_r.
              repeat split; auto.
  - exists s, false, []. rewrite app_nil_r. repeat split; auto; discriminate.
Qed.

(** The shape of the trace a fill leaves, shared by the statements below. *)
Lemma fillAnswers_trace (hostQuery : string -> Page -> QueryResult) (autoSubmit : option JSON)
    (answers : option JSON) (skipSubmit : bool) (p : Page) :
  exists written tail,
    trace (outState (fillAnswers hostQuery autoSubmit answers skipSubmit p))
    = trace p ++ written ++ tail
    /\ forallb noSubmission written = true
    /\ length tail <= 1
    /\ (Js.truthy' autoSubmit = false \/ skipSubmit = true -> tail = [])
    /\ (forall q r, fillAnswers hostQuery autoSubmit answers skipSubmit p = Returned q r ->
        (submitted r = false -> tail = [])
        /\ (submitted r = true -> Js.truthy' autoSubmit = true /\ skipSubmit = false)).
Proof.
  assert (Hidle : forall q : Page,
             exists written tail : list Effect,
               trace q = trace q ++ written ++ tail
               /\ forallb noSubmission written = true
               /\ length tail <= 1
               /\ (Js.truthy' autoSubmit = false \/ skipSubmit = true -> tail = [])
               /\ (forall q' r, @Returned Page FillResult q (mkResult 0 false) = Returned q' r ->
                   (submitted r = false -> tail = [])
                   /\ (submitted r = true -> Js.truthy' autoSubmit = true /\ skipSubmit = false))).
  { intros q. exists [], []. rewrite app_nil_r. repeat split; auto.
    injection H as _ <-. discriminate. injection H as _ <-. discriminate. }
  unfold fillAnswers. destruct answers as [a|]; [|apply Hidle].
  destruct (negb (Js.truthy a)); [apply Hidle|].
  destruct (buildFieldIndex p) as [ix p1] eqn:Hix.
  pose proof (buildFieldIndex_labels p) as Hlab. rewrite Hix in Hlab. cbn [snd] in Hlab.
  apply (extends_weaken _ noSubmission) in Hlab; [|apply writesAttr_noSubmission].
  pose proof (fillShapes_quiet hostQuery skipSubmit ix a (mkFill p1 0 [])) as Hfill.
  cbn [page] in Hfill. unfold bind.
  destruct (fillShapes hostQuery skipSubmit ix a (mkFill p1 0 [])) as [s1 []|s1 err];
    cbn [outState] in Hfill.
  - destruct (submitTouched_cases autoSubmit skipSubmit s1)
      as (s2 & b & tail & Hrun & Htr & Hlen & Hoff & Hon).
    rewrite Hrun. cbn [outState].
    destruct (extends_trans _ _ _ _ Hlab Hfill) as (written & Hw & Pw).
    exists written, tail. split; [rewrite Htr, Hw, app_assoc; reflexivity|].
    split; [exact Pw|]. split; [exact Hlen|]. split.
    + intros Hor. apply Hoff. destruct b; [|reflexivity].
      destruct (Hon eq_refl) as [Ha Hs]. destruct Hor; congruence.
    + intros q r [= <- <-]. cbn [submitted]. split; assumption.
  - cbn [outState].
    destruct (extends_trans _ _ _ _ Hlab Hfill) as (written & Hw & Pw).
    exists written, []. rewrite app_nil_r. split; [exact Hw|]. split; [exact Pw|].
    split; [simpl; lia|]. split; [reflexivity|]. intros q r H. discriminate.
Qed.

(** X10. With [skipSubmit] set, or with the [autoSubmit] setting off, a fill
    neither clicks a submit control nor submits a form, whether it returns
    or raises, and reports [submitted: false]. *)
Theorem fillAnswers_submits_nothing (hostQuery : string -> Page -> QueryResult)
    (autoSubmit : option JSON) (answers : option JSON) (skipSubmit : bool) (p : Page) :
  Js.truthy' autoSubmit = false \/ skipSubmit = true ->
  extends noSubmission p (outState (fillAnswers hostQuery autoSubmit answers skipSubmit p))
  /\ forall q r, fillAnswers hostQuery autoSubmit answers skipSubmit p = Returned q r ->
                 submitted r = false.
Proof.
  intros Hoff.
  destruct (fillAnswers_trace hostQuery autoSubmit answers skipSubmit p)
    as (written & tail & Htr & Pw & _ & Htail & Hres).
  rewrite (Htail Hoff), app_nil_r in Htr. split.
  - exists written. split; assumption.
  - intros q r Hrun. destruct (Hres q r Hrun) as [_ Hon].
    destruct (submitted r); [|reflexivity].
    destruct (Hon eq_refl) as [Ha Hs]. destruct Hoff; congruence.
Qed.

Lemma fillAnswers_submits_nothing_witness :
  extends noSubmission Sample.survey
    (outState (fillAnswers Sample.noQuery (Some (JBool true))
                 (Some (Sample.pick "group:radio:0" "Green")) true Sample.survey))
  /\ forall q r,
       fillAnswers Sample.noQuery (Some (JBool true))
         (Some (Sample.pick "group:radio:0" "Green")) true Sample.survey = Returned q r ->
       submitted r = false.
Proof.
  apply (fillAnswers_submits_nothing Sample.noQuery (Some (JBool true))
           (Some (Sample.pick "group:radio:0" "Green")) true Sample.survey).
  right. reflexivity.
Defined.

(** X11. A fill presses or submits at most once, as its last effect, and
    reports [submitted: false] only if it did neither. *)
Theorem fillAnswers_submits_once (hostQuery : string -> Page -> QueryResult)
    (autoSubmit : option JSON) (answers : option JSON) (skipSubmit : bool) (p : Page) :
  exists written tail,
    trace (outState (fillAnswers hostQuery autoSubmit answers skipSubmit p))
    = trace p ++ written ++ tail
    /\ forallb noSubmission written = true
    /\ length tail <= 1
    /\ forall q r, fillAnswers hostQuery autoSubmit answers skipSubmit p = Returned q r ->
                   submitted r = false -> tail = [].
Proof.
  destruct (fillAnswers_trace hostQuery autoSubmit answers skipSubmit p)
    as (written & tail & Htr & Pw & Hlen & _ & Hres).
  exists written, tail. split; [exact Htr|]. split; [exact Pw|]. split; [exact Hlen|].
  intros q r Hrun. apply (Hres q r Hrun).
Qed.

(** X12. An element that the index resolves but that is neither an input,
    a textarea nor editable is counted as filled although nothing is
    written to it. *)
Theorem applyTo_counts_untouched (skipSubmit : bool) (el : nat) (e : Element)
    (value : option JSON) (s : FillState) :
  Dom.node (page s) el = Some e ->
  Dom.tagIn ["textarea"; "input"] e = false ->
  Dom.hasAttr e "contenteditable" = false ->
  exists s',
    applyTo skipSubmit (Some el) value s = Returned s' true
    /\ page s' = page s
    /\ filledCount s' = S (filledCount s).
Proof.
  intros He Ht Hc. unfold applyTo, bind, liftPage, modify, countFilled, noteForm, ret.
  cbn [page filledCount touchedForms].
  assert (Hsame : setElementValue el value skipSubmit (page s) = page s).
  { unfold setElementValue. rewrite He, Ht, Hc. reflexivity. }
  rewrite Hsame. simpl.
  destruct (Dom.closest (page s) Dom.selForm el); eexists; (split; [reflexivity|]); split; reflexivity.
Qed.

Lemma applyTo_counts_untouched_witness :
  exists s',
    applyTo false (Some 2) (Some (JStr "x")) (mkFill Sample.colors 0 []) = Returned s' true
    /\ page s' = page (mkFill Sample.colors 0 [])
    /\ filledCount s' = S (filledCount (mkFill Sample.colors 0 [])).
Proof.
  eapply (applyTo_counts_untouched false 2); reflexivity.
Defined.

(** ** What building the index changes, and what the index holds *)

Lemma agreeBut_refl (k : string) (e : Element) : agreeBut k e e.
Proof. repeat split. Qed.

Lemma agreeBut_trans (k : string) (a b c : Element) :
  agreeBut k a b -> agreeBut k b c -> agreeBut k a c.
Proof.
  intros (A1 & A2 & A3 & A4 & A5 & A6 & A7 & A8 & A9 & A10)
         (B1 & B2 & B3 & B4 & B5 & B6 & B7 & B8 & B9 & B10).
  repeat split; try congruence.
  intros k' Hk. rewrite B10, A10; auto.
Qed.

Lemma agreeBut_withAttr (k v : string) (e : Element) : agreeBut k e (Dom.withAttr k v e).
Proof.
  repeat split. intros k' Hk. unfold Dom.getAttr. simpl. rewrite assoc_assocSet.
  destruct (Str.eqb k' k) eqn:E; [|reflexivity]. apply eqb_true in E. contradiction.
Qed.

Lemma differOnlyIn_refl (k : string) (p : Page) : differOnlyIn k p p.
Proof.
  repeat split. intros n e He. exists e. split; [exact He|apply agreeBut_refl].
Qed.

Lemma differOnlyIn_trans (k : string) (p q r : Page) :
  differOnlyIn k p q -> differOnlyIn k q r -> differOnlyIn k p r.
Proof.
  intros (A1 & A2 & A3 & A4 & A5 & A6) (B1 & B2 & B3 & B4 & B5 & B6).
  repeat split; try congruence.
  intros n e He. destruct (A6 n e He) as (e' & He' & Hag).
  destruct (B6 n e' He') as (e'' & He'' & Hag'). exists e''. split; [exact He''|].
  eapply agreeBut_trans; eassumption.
Qed.

Lemma differOnlyIn_setAttribute (k v : string) (n : nat) (p : Page) :
  differOnlyIn k p (Dom.setAttribute n k v p).
Proof.
  unfold Dom.setAttribute, Dom.touch. split; [simpl; apply length_alter|].
  repeat split. intros m e He.
  pose proof (node_touch (Dom.withAttr k v) n m (SetAttribute n k v) p) as Hn.
  unfold Dom.touch in Hn. rewrite Hn.
  destruct (decide (n = m)) as [->|_].
  - rewrite He. eexists. split; [reflexivity|apply agreeBut_withAttr].
  - exists e. split; [exact He|apply agreeBut_refl].
Qed.

Lemma differOnlyIn_node_none (k : string) (p q : Page) (n : nat) :
  differOnlyIn k p q -> Dom.node p n = None -> Dom.node q n = None.
Proof.
  intros (Hlen & _) Hn. unfold Dom.node in *.
  apply lookup_ge_None. apply lookup_ge_None in Hn. lia.
Qed.

Lemma differOnlyIn_attrOf (k : string) (p q : Page) (n : nat) (k' : string) :
  differOnlyIn k p q -> k' <> k -> attrOf q n k' = attrOf p n k'.
Proof.
  intros H Hk. unfold attrOf. destruct (Dom.node p n) as [e|] eqn:He.
  - destruct H as (_ & _ & _ & _ & _ & H). destruct (H n e He) as (e' & -> & Hag).
    apply Hag. exact Hk.
  - rewrite (differOnlyIn_node_none k p q n H He). reflexivity.
Qed.

Lemma indexElement_frame (n : nat) (ix : FieldIndex) (p : Page) :
  differOnlyIn "data-autoanswer-label" p (indexElement n (ix, p)).2.
Proof.
  unfold indexElement. destruct (Dom.node p n) as [e|]; [|apply differOnlyIn_refl].
  set (label := normalizeKey (Some (JStr (getLabelForElement p n)))).
  assert (H : differOnlyIn "data-autoanswer-label" p
                (if nonEmpty label
                 then Dom.setAttribute n "data-autoanswer-label" label p else p)).
  { destruct (nonEmpty label); [apply differOnlyIn_setAttribute|apply differOnlyIn_refl]. }
  destruct (nonEmpty (Dom.attrOr e "data-autoanswer-group")); [|exact H].
  destruct (byGroup ix !! _); exact H.
Qed.

(** The state of the loop of [buildFieldIndex] after the elements [l]. *)
Lemma index_fold_frame (l : list nat) (p : Page) (st : FieldIndex * Page) :
  differOnlyIn "data-autoanswer-label" p st.2 ->
  differOnlyIn "data-autoanswer-label" p (fold_left (fun st n => indexElement n st) l st).2.
Proof.
  revert st. induction l as [|n l IH]; intros st Hst; [exact Hst|].
  simpl. apply IH. destruct st as [ix q]. eapply differOnlyIn_trans; [exact Hst|].
  apply indexElement_frame.
Qed.

(** X13. Building the index leaves the document as it was, except for the
    [data-autoanswer-label] attribute it writes on tagged elements. *)
Theorem buildFieldIndex_writes_labels_only (p : Page) :
  differOnlyIn "data-autoanswer-label" p (buildFieldIndex p).2
  /\ extends (writesAttr "data-autoanswer-label") p (buildFieldIndex p).2.
Proof.
  split; [|apply buildFieldIndex_labels].
  apply index_fold_frame, differOnlyIn_refl.
Qed.

(** ** The label resolver does not read the label attribute *)

Section LabelFrame.

Variables p q : Page.
Hypothesis Hpq : differOnlyIn "data-autoanswer-label" p q.

Lemma frame_node (n : nat) :
  match Dom.node p n with
  | Some e => exists e', Dom.node q n = Some e' /\ agreeBut "data-autoanswer-label" e e'
  | None => Dom.node q n = None
  end.
Proof.
  destruct (Dom.node p n) as [e|] eqn:He.
  - destruct Hpq as (_ & _ & _ & _ & _ & H). exact (H n e He).
  - eapply differOnlyIn_node_none; eassumption.
Qed.

Lemma frame_length : length (nodes q) = length (nodes p).
Proof. apply Hpq. Qed.

Lemma frame_allIndices : Dom.allIndices q = Dom.allIndices p.
Proof. unfold Dom.allIndices. rewrite frame_length. reflexivity. Qed.

Lemma frame_matches (sel : Dom.Selector) (n : nat) :
  labelBlind sel -> Dom.matches q sel n = Dom.matches p sel n.
Proof.
  intros Hb. unfold Dom.matches. pose proof (frame_node n) as H.
  destruct (Dom.node p n) as [e|].
  - destruct H as (e' & -> & Hag). apply Hb, Hag.
  - rewrite H. reflexivity.
Qed.

Lemma frame_parentOf (n : nat) : Dom.parentOf q n = Dom.parentOf p n.
Proof.
  unfold Dom.parentOf. pose proof (frame_node n) as H.
  destruct (Dom.node p n) as [e|].
  - destruct H as (e' & -> & Hag). apply Hag.
  - rewrite H. reflexivity.
Qed.

Lemma frame_innerTextOf (n : nat) : Dom.innerTextOf q n = Dom.innerTextOf p n.
Proof.
  unfold Dom.innerTextOf. pose proof (frame_node n) as H.
  destruct (Dom.node p n) as [e|].
  - destruct H as (e' & -> & Hag). apply Hag.
  - rewrite H. reflexivity.
Qed.

Lemma frame_trimmedText (o : option nat) : Dom.trimmedText q o = Dom.trimmedText p o.
Proof. destruct o; [|reflexivity]. unfold Dom.trimmedText. rewrite frame_innerTextOf. reflexivity. Qed.

Lemma frame_visibleOrRawText (n : nat) : visibleOrRawText q n = visibleOrRawText p n.
Proof.
  unfold visibleOrRawText. pose proof (frame_node n) as H.
  destruct (Dom.node p n) as [e|].
  - destruct H as (e' & -> & (_ & _ & -> & -> & _)). reflexivity.
  - rewrite H. reflexivity.
Qed.

Lemma frame_docQueryAll (sel : Dom.Selector) :
  labelBlind sel -> Dom.docQueryAll q sel = Dom.docQueryAll p sel.
Proof.
  intros Hb. unfold Dom.docQueryAll. rewrite frame_allIndices.
  apply filter_ext. intros n. apply frame_matches, Hb.
Qed.

Lemma frame_docQuery (sel : Dom.Selector) :
  labelBlind sel -> Dom.docQuery q sel = Dom.docQuery p sel.
Proof. intros Hb. unfold Dom.docQuery. rewrite frame_docQueryAll by exact Hb. reflexivity. Qed.

Lemma frame_closestFrom (sel : Dom.Selector) (fuel n : nat) :
  labelBlind sel -> Dom.closestFrom fuel q sel n = Dom.closestFrom fuel p sel n.
Proof.
  intros Hb. revert n. induction fuel as [|fuel IH]; intros n; [reflexivity|].
  cbn [Dom.closestFrom]. pose proof (frame_node n) as H.
  destruct (Dom.node p n) as [e|].
  - destruct H as (e' & -> & Hag). rewrite (Hb e e' Hag).
    destruct Hag as (_ & -> & _). destruct (sel e); [reflexivity|].
    destruct (parentElement e); [apply IH|reflexivity].
  - rewrite H. reflexivity.
Qed.

Lemma frame_closest (sel : Dom.Selector) (n : nat) :
  labelBlind sel -> Dom.closest q sel n = Dom.closest p sel n.
Proof. intros Hb. unfold Dom.closest. rewrite frame_length. apply frame_closestFrom, Hb. Qed.

Lemma frame_reaches (anc fuel n : nat) : Dom.reaches fuel q anc n = Dom.reaches fuel p anc n.
Proof.
  revert n. induction fuel as [|fuel IH]; intros n; [reflexivity|].
  cbn [Dom.reaches]. pose proof (frame_node n) as H.
  destruct (Dom.node p n) as [e|].
  - destruct H as (e' & -> & (_ & -> & _)).
    destruct (parentElement e); [rewrite IH|]; reflexivity.
  - rewrite H. reflexivity.
Qed.

Lemma frame_queryAll (root : nat) (sel : Dom.Selector) :
  labelBlind sel -> Dom.queryAll q root sel = Dom.queryAll p root sel.
Proof.
  intros Hb. unfold Dom.queryAll, Dom.isDescendant. rewrite frame_allIndices, frame_length.
  apply filter_ext. intros n. rewrite frame_reaches, (frame_matches sel n Hb). reflexivity.
Qed.

Lemma frame_query (root : nat) (sel : Dom.Selector) :
  labelBlind sel -> Dom.query q root sel = Dom.query p root sel.
Proof. intros Hb. unfold Dom.query. rewrite frame_queryAll by exact Hb. reflexivity. Qed.

Lemma frame_previousElementSibling (n : nat) :
  Dom.previousElementSibling q n = Dom.previousElementSibling p n.
Proof.
  unfold Dom.previousElementSibling. rewrite frame_allIndices. f_equal.
  apply filter_ext. intros m. rewrite !frame_parentOf. reflexivity.
Qed.

Lemma blind_tagIn (tags : list string) : labelBlind (Dom.tagIn tags).
Proof. intros e e' (Ht & _). unfold Dom.tagIn. rewrite Ht. reflexivity. Qed.

Lemma blind_attrEq (k v : string) : k <> "data-autoanswer-label" -> labelBlind (Dom.attrEq k v).
Proof.
  intros Hk e e' Hag. unfold Dom.attrEq.
  destruct Hag as (_ & _ & _ & _ & _ & _ & _ & _ & _ & Ha). rewrite (Ha k Hk). reflexivity.
Qed.

Lemma blind_both (a b : Dom.Selector) : labelBlind a -> labelBlind b -> labelBlind (Dom.both a b).
Proof. intros Ha Hb e e' Hag. unfold Dom.both. rewrite (Ha e e' Hag), (Hb e e' Hag). reflexivity. Qed.

Lemma frame_getElementById (id : string) : Dom.getElementById q id = Dom.getElementById p id.
Proof.
  unfold Dom.getElementById. destruct (Str.isEmpty id); [reflexivity|].
  apply frame_docQuery, blind_attrEq. discriminate.
Qed.

Lemma frame_labelledByText (ids : string) : labelledByText q ids = labelledByText p ids.
Proof.
  unfold labelledByText. do 2 f_equal.
  induction (Str.words ids) as [|w ws IH]; [reflexivity|].
  cbn [omap list_omap]. rewrite frame_getElementById.
  destruct (Dom.getElementById p w); cbn [map]; rewrite ?frame_visibleOrRawText, IH; reflexivity.
Qed.

Lemma frame_firstSpanText (spans : list nat) : firstSpanText q spans = firstSpanText p spans.
Proof.
  induction spans as [|s rest IH]; [reflexivity|].
  cbn [firstSpanText]. rewrite frame_innerTextOf, IH. reflexivity.
Qed.

Lemma frame_getLabelForElement (n : nat) : getLabelForElement q n = getLabelForElement p n.
Proof.
  unfold getLabelForElement. pose proof (frame_node n) as H.
  destruct (Dom.node p n) as [e|]; [|rewrite H; reflexivity].
  destruct H as (e' & -> & Hag).
  assert (Hattr : forall k, k <> "data-autoanswer-label" -> Dom.attrOr e' k = Dom.attrOr e k).
  { intros k Hk. unfold Dom.attrOr.
    destruct Hag as (_ & _ & _ & _ & _ & _ & _ & _ & _ & Ha). rewrite (Ha k Hk). reflexivity. }
  assert (Htag : tagName e' = tagName e) by apply Hag.
  assert (Hname : Dom.nameProp e' = Dom.nameProp e).
  { unfold Dom.nameProp, Dom.hasNameProperty, Dom.tagIn. rewrite Htag, Hattr by discriminate.
    reflexivity. }
  rewrite !Hattr by discriminate. rewrite Hname, Htag.
  rewrite !frame_trimmedText.
  rewrite (frame_docQuery (Dom.selLabelFor (Dom.attrOr e "id")))
    by (apply blind_both; [apply blind_tagIn|apply blind_attrEq; discriminate]).
  rewrite (frame_closest Dom.selLabel) by apply blind_tagIn.
  rewrite (frame_closest Dom.selBlock) by apply blind_tagIn.
  rewrite frame_labelledByText, frame_previousElementSibling.
  assert (Hspan : match Dom.closest p Dom.selLabel n with
                  | Some l => firstSpanText q (Dom.queryAll q l Dom.selSpan)
                  | None => ""
                  end
                  = match Dom.closest p Dom.selLabel n with
                    | Some l => firstSpanText p (Dom.queryAll p l Dom.selSpan)
                    | None => ""
                    end).
  { destruct (Dom.closest p Dom.selLabel n); [|reflexivity].
    rewrite frame_firstSpanText, (frame_queryAll _ Dom.selSpan) by apply blind_tagIn.
    reflexivity. }
  rewrite Hspan.
  assert (Hhead : match Dom.closest p Dom.selBlock n with
                  | Some c => Dom.trimmedText q (Dom.query q c Dom.selHeading)
                  | None => ""
                  end
                  = match Dom.closest p Dom.selBlock n with
                    | Some c => Dom.trimmedText p (Dom.query p c Dom.selHeading)
                    | None => ""
                    end).
  { destruct (Dom.closest p Dom.selBlock n); [|reflexivity].
    rewrite frame_trimmedText, (frame_query _ Dom.selHeading) by apply blind_tagIn.
    reflexivity. }
  rewrite Hhead. reflexivity.
Qed.

Lemma frame_deriveGroupQuestion (n : nat) :
  deriveGroupQuestionFromElement q n = deriveGroupQuestionFromElement p n.
Proof.
  unfold deriveGroupQuestionFromElement.
  rewrite (frame_closest Dom.selFieldset) by apply blind_tagIn.
  rewrite (frame_closest Dom.selContainer) by apply blind_tagIn.
  rewrite frame_getLabelForElement.
  assert (Hbody : body q = body p) by apply Hpq. rewrite Hbody.
  rewrite !frame_trimmedText.
  rewrite (frame_query _ Dom.selHeading) by apply blind_tagIn.
  destruct (Dom.closest p Dom.selFieldset n); [|reflexivity].
  rewrite frame_trimmedText, (frame_query _ Dom.selLegend) by apply blind_tagIn. reflexivity.
Qed.

End LabelFrame.

(** ** What the index holds *)

(** The scalar maps after one turn of the loop, in terms of the page [p]
    the loop started from. *)
Lemma indexElement_maps (n : nat) (ix : FieldIndex) (p q : Page) :
  differOnlyIn "data-autoanswer-label" p q ->
  let r := (indexElement n (ix, q)).1 in
  byLabel r = claim (normalizeKey (Some (JStr (getLabelForElement p n)))) n (byLabel ix)
  /\ byName r = claim (normalizeAttr (attrOf p n "name")) n (byName ix)
  /\ byHtmlId r = claim (normalizeAttr (attrOf p n "id")) n (byHtmlId ix)
  /\ byPlaceholder r = claim (normalizeAttr (attrOf p n "placeholder")) n (byPlaceholder ix)
  /\ byId r = (if nonEmpty (default "" (attrOf p n "data-autoanswer-id"))
               then <[default "" (attrOf p n "data-autoanswer-id") := n]> (byId ix)
               else byId ix).
Proof.
  intros Hpq.
  rewrite <- (frame_getLabelForElement p q Hpq n).
  rewrite <- (differOnlyIn_attrOf _ p q n "name" Hpq) by discriminate.
  rewrite <- (differOnlyIn_attrOf _ p q n "id" Hpq) by discriminate.
  rewrite <- (differOnlyIn_attrOf _ p q n "placeholder" Hpq) by discriminate.
  rewrite <- (differOnlyIn_attrOf _ p q n "data-autoanswer-id" Hpq) by discriminate.
  unfold attrOf, indexElement. destruct (Dom.node q n) as [e|] eqn:He.
  - fold (Dom.attrOr e "data-autoanswer-id").
    destruct (nonEmpty (Dom.attrOr e "data-autoanswer-group")).
    + destruct (byGroup ix !! _); cbn [fst byLabel byName byHtmlId byPlaceholder byId];
        repeat split.
    + cbn [fst byLabel byName byHtmlId byPlaceholder byId]; repeat split.
  - cbn [fst default]. unfold getLabelForElement. rewrite He. repeat split.
Qed.

Lemma fold_claim_lookup (key : nat -> string) (l : list nat) (m : gmap string nat) (k : string) :
  nonEmpty k = true ->
  fold_left (fun m n => claim (key n) n m) l m !! k
  = match m !! k with
    | Some v => Some v
    | None => List.find (fun n => Str.eqb (key n) k) l
    end.
Proof.
  intros Hk. revert m. induction l as [|n l IH]; intros m.
  - simpl. destruct (m !! k); reflexivity.
  - simpl. rewrite IH. unfold claim.
    destruct (Str.eqb (key n) k) eqn:E.
    + apply eqb_true in E. subst k. rewrite Hk.
      destruct (m !! key n) eqn:Hm; [rewrite Hm; reflexivity|].
      rewrite lookup_insert_eq. reflexivity.
    + assert (Hne : key n <> k) by (intros <-; unfold Str.eqb in E; rewrite bool_decide_eq_true_2 in E; congruence).
      destruct (nonEmpty (key n)); [|reflexivity].
      destruct (m !! key n); [reflexivity|].
      rewrite lookup_insert_ne by exact Hne. reflexivity.
Qed.

Lemma fold_set_lookup (key : nat -> string) (l : list nat) (m : gmap string nat) (k : string) :
  nonEmpty k = true ->
  fold_left (fun m n => if nonEmpty (key n) then <[key n := n]> m else m) l m !! k
  = match last (List.filter (fun n => Str.eqb (key n) k) l) with
    | Some n => Some n
    | None => m !! k
    end.
Proof.
  intros Hk. revert m. induction l as [|n l IH]; intros m; [reflexivity|].
  simpl. rewrite IH.
  destruct (Str.eqb (key n) k) eqn:E.
  - apply eqb_true in E. subst k. rewrite Hk.
    destruct (List.filter _ l) as [|x rest] eqn:Hf.
    + simpl. rewrite lookup_insert_eq. reflexivity.
    + change (last (n :: x :: rest)) with (last (x :: rest)).
      destruct (last (x :: rest)) eqn:Hl; [reflexivity|].
      apply last_None in Hl. discriminate.
  - assert (Hne : key n <> k) by (intros <-; unfold Str.eqb in E; rewrite bool_decide_eq_true_2 in E; congruence).
    destruct (last _); [reflexivity|].
    destruct (nonEmpty (key n)); [|reflexivity].
    rewrite lookup_insert_ne by exact Hne. reflexivity.
Qed.

Lemma index_fold_maps (p : Page) (l : list nat) (st : FieldIndex * Page) :
  differOnlyIn "data-autoanswer-label" p st.2 ->
  let r := (fold_left (fun st n => indexElement n st) l st).1 in
  byLabel r
  = fold_left (fun m n => claim (normalizeKey (Some (JStr (getLabelForElement p n)))) n m) l
      (byLabel st.1)
  /\ byName r = fold_left (fun m n => claim (normalizeAttr (attrOf p n "name")) n m) l (byName st.1)
  /\ byHtmlId r
     = fold_left (fun m n => claim (normalizeAttr (attrOf p n "id")) n m) l (byHtmlId st.1)
  /\ byPlaceholder r
     = fold_left (fun m n => claim (normalizeAttr (attrOf p n "placeholder")) n m) l
         (byPlaceholder st.1)
  /\ byId r
     = fold_left (fun m n => if nonEmpty (default "" (attrOf p n "data-autoanswer-id"))
                             then <[default "" (attrOf p n "data-autoanswer-id") := n]> m
                             else m) l (byId st.1).
Proof.
  revert st. induction l as [|n l IH]; intros st Hst; [cbn; repeat split|].
  cbn [fold_left]. cbv zeta.
  assert (Hnext : differOnlyIn "data-autoanswer-label" p (indexElement n st).2).
  { destruct st as [ix q]. eapply differOnlyIn_trans; [exact Hst|apply indexElement_frame]. }
  destruct (IH _ Hnext) as (H0 & H1 & H2 & H3 & H4).
  destruct st as [ix q].
  destruct (indexElement_maps n ix p q Hst) as (E0 & E1 & E2 & E3 & E4).
  cbn [fst snd] in *.
  rewrite H0, H1, H2, H3, H4, E0, E1, E2, E3, E4. repeat split.
Qed.

(** X14. In the maps by label, by name, by html id and by placeholder a key
    belongs to the first tagged element, in document order, whose label or
    attribute normalizes to it. *)
Theorem index_first_claimant (p : Page) (k : string) :
  nonEmpty k = true ->
  let ix := (buildFieldIndex p).1 in
  let tagged := Dom.docQueryAll p Dom.selTagged in
  let first (a : string) :=
    List.find (fun n => Str.eqb (normalizeAttr (attrOf p n a)) k) tagged in
  byLabel ix !! k
  = List.find (fun n => Str.eqb (normalizeKey (Some (JStr (getLabelForElement p n)))) k) tagged
  /\ byName ix !! k = first "name"
  /\ byHtmlId ix !! k = first "id"
  /\ byPlaceholder ix !! k = first "placeholder".
Proof.
  intros Hk ix tagged first. subst ix. unfold buildFieldIndex. fold tagged.
  destruct (index_fold_maps p tagged (emptyIndex, p) (differOnlyIn_refl _ p))
    as (H0 & H1 & H2 & H3 & _).
  rewrite H0, H1, H2, H3. cbn [fst emptyIndex byLabel byName byHtmlId byPlaceholder].
  rewrite !fold_claim_lookup by exact Hk. rewrite !lookup_empty. repeat split.
Qed.

(** X15. In the map by identifier a key belongs to the last tagged element,
    in document order, that carries it. *)
Theorem index_last_identifier (p : Page) (k : string) :
  nonEmpty k = true ->
  byId (buildFieldIndex p).1 !! k
  = last (List.filter
            (fun n => Str.eqb (default "" (attrOf p n "data-autoanswer-id")) k)
            (Dom.docQueryAll p Dom.selTagged)).
Proof.
  intros Hk. unfold buildFieldIndex.
  destruct (index_fold_maps p (Dom.docQueryAll p Dom.selTagged) (emptyIndex, p)
              (differOnlyIn_refl _ p)) as (_ & _ & _ & _ & H4).
  rewrite H4. cbn [fst emptyIndex byId].
  rewrite fold_set_lookup by exact Hk. rewrite lookup_empty.
  destruct (last _); reflexivity.
Qed.

Lemma groupView_push (o : ChoiceOption) (g : ChoiceGroup) :
  groupView (pushOption o g)
  = ((groupView g).1, (groupView g).2 ++ [(optEl o, optLabel o, optId o)]).
Proof. unfold groupView, pushOption. cbn. rewrite map_app. reflexivity. Qed.

Lemma labelled_frame (p q : Page) (n : nat) (label : string) :
  differOnlyIn "data-autoanswer-label" p q ->
  differOnlyIn "data-autoanswer-label" p
    (if nonEmpty label then Dom.setAttribute n "data-autoanswer-label" label q else q).
Proof.
  intros H. destruct (nonEmpty label); [|exact H].
  eapply differOnlyIn_trans; [exact H|apply differOnlyIn_setAttribute].
Qed.

Lemma indexElement_group (n : nat) (ix : FieldIndex) (p q : Page) (gid : string) :
  differOnlyIn "data-autoanswer-label" p q ->
  nonEmpty gid = true ->
  groupView <$> byGroup (indexElement n (ix, q)).1 !! gid
  = if Str.eqb (default "" (attrOf p n "data-autoanswer-group")) gid
    then Some (match groupView <$> byGroup ix !! gid with
               | Some (t, els) => (t, els ++ [memberOf p n])
               | None => (Str.toLowerCase (default "" (attrOf p n "type")),
                          deriveGroupQuestionFromElement p n, [memberOf p n])
               end)
    else groupView <$> byGroup ix !! gid.
Proof.
  intros Hpq Hg. unfold memberOf.
  rewrite <- (differOnlyIn_attrOf _ p q n "data-autoanswer-group" Hpq) by discriminate.
  rewrite <- (differOnlyIn_attrOf _ p q n "data-autoanswer-id" Hpq) by discriminate.
  rewrite <- (differOnlyIn_attrOf _ p q n "type" Hpq) by discriminate.
  unfold attrOf, indexElement. destruct (Dom.node q n) as [e|].
  - fold (Dom.attrOr e "data-autoanswer-group") (Dom.attrOr e "data-autoanswer-id")
         (Dom.attrOr e "type").
    set (label := normalizeKey (Some (JStr (getLabelForElement q n)))).
    pose proof (labelled_frame p q n label Hpq) as Hp1.
    set (p1 := if nonEmpty label then Dom.setAttribute n "data-autoanswer-label" label q else q)
      in *.
    rewrite <- (frame_getLabelForElement p p1 Hp1 n).
    rewrite <- (frame_deriveGroupQuestion p p1 Hp1 n).
    destruct (Str.eqb (Dom.attrOr e "data-autoanswer-group") gid) eqn:E.
    + apply eqb_true in E. rewrite E, Hg.
      destruct (byGroup ix !! gid) as [g|] eqn:Hgid; cbn [fst byGroup].
      * rewrite lookup_alter_eq, Hgid. cbn [fmap option_fmap option_map].
        rewrite groupView_push. destruct (groupView g) as [t els]. reflexivity.
      * rewrite lookup_alter_eq, lookup_insert_eq. reflexivity.
    + assert (Hne : Dom.attrOr e "data-autoanswer-group" <> gid).
      { intros Heq. rewrite Heq in E. unfold Str.eqb in E.
        rewrite bool_decide_eq_true_2 in E; congruence. }
      destruct (nonEmpty (Dom.attrOr e "data-autoanswer-group")); [|reflexivity].
      destruct (byGroup ix !! Dom.attrOr e "data-autoanswer-group"); cbn [fst byGroup].
      * rewrite lookup_alter_ne by exact Hne. reflexivity.
      * rewrite lookup_alter_ne, lookup_insert_ne by exact Hne. reflexivity.
  - cbn [default]. destruct (Str.eqb "" gid) eqn:E; [|reflexivity].
    apply eqb_true in E. subst gid. discriminate.
Qed.

Lemma index_fold_group (p : Page) (gid : string) (l : list nat) (st : FieldIndex * Page) :
  differOnlyIn "data-autoanswer-label" p st.2 ->
  nonEmpty gid = true ->
  groupView <$> byGroup (fold_left (fun st n => indexElement n st) l st).1 !! gid
  = match List.filter
            (fun n => Str.eqb (default "" (attrOf p n "data-autoanswer-group")) gid) l with
    | [] => groupView <$> byGroup st.1 !! gid
    | first :: rest =>
        Some (match groupView <$> byGroup st.1 !! gid with
              | Some (t, els) => (t, els ++ map (memberOf p) (first :: rest))
              | None => (Str.toLowerCase (default "" (attrOf p first "type")),
                         deriveGroupQuestionFromElement p first,
                         map (memberOf p) (first :: rest))
              end)
    end.
Proof.
  intros Hst Hg. revert st Hst. induction l as [|n l IH]; intros st Hst; [reflexivity|].
  cbn [fold_left List.filter].
  assert (Hnext : differOnlyIn "data-autoanswer-label" p (indexElement n st).2).
  { destruct st as [ix q]. eapply differOnlyIn_trans; [exact Hst|apply indexElement_frame]. }
  rewrite (IH _ Hnext). destruct st as [ix q]. cbn [fst snd] in *.
  rewrite (indexElement_group n ix p q gid Hst Hg).
  destruct (Str.eqb (default "" (attrOf p n "data-autoanswer-group")) gid).
  - destruct (List.filter _ l) as [|x rest].
    + destruct (groupView <$> byGroup ix !! gid) as [[t els]|]; reflexivity.
    + destruct (groupView <$> byGroup ix !! gid) as [[t els]|]; cbn [map];
        rewrite <- ?app_assoc; reflexivity.
  - reflexivity.
Qed.

(** X16. A group of the index holds, in document order, the tagged elements
    that carry its group identifier, each with its label and the identifier
    it carries; its type is the [type] attribute of the first of them in
    lower case, and its question the one derived from that element. *)
Theorem index_group_members (p : Page) (gid : string) :
  nonEmpty gid = true ->
  groupView <$> byGroup (buildFieldIndex p).1 !! gid
  = match List.filter
            (fun n => Str.eqb (default "" (attrOf p n "data-autoanswer-group")) gid)
            (Dom.docQueryAll p Dom.selTagged) with
    | [] => None
    | first :: rest =>
        Some (Str.toLowerCase (default "" (attrOf p first "type")),
              deriveGroupQuestionFromElement p first,
              map (memberOf p) (first :: rest))
    end.
Proof.
  intros Hg. unfold buildFieldIndex.
  rewrite (index_fold_group p gid _ (emptyIndex, p) (differOnlyIn_refl _ p) Hg).
  cbn [fst emptyIndex byGroup]. rewrite lookup_empty. reflexivity.
Qed.

Lemma index_group_members_witness :
  groupView <$> byGroup (buildFieldIndex Sample.colors).1 !! "group:radio:0"
  = Some ("radio", "Red",
          [(3, "Red", "name:color|type:radio|idx:0"); (5, "Green", "name:color|type:radio|idx:1");
           (7, "Blue", "name:color|type:radio|idx:2")]).
Proof.
  rewrite (index_group_members Sample.colors "group:radio:0" eq_refl).
  vm_compute. reflexivity.
Defined.

(** X17. The labels the resolver gives are the same after indexing as
    before: the attribute the index writes is not read back. *)
Theorem labels_survive_indexing (p : Page) (n : nat) :
  getLabelForElement (buildFieldIndex p).2 n = getLabelForElement p n
  /\ deriveGroupQuestionFromElement (buildFieldIndex p).2 n
     = deriveGroupQuestionFromElement p n.
Proof.
  assert (H : differOnlyIn "data-autoanswer-label" p (buildFieldIndex p).2)
    by apply index_fold_frame, differOnlyIn_refl.
  split; [apply frame_getLabelForElement|apply frame_deriveGroupQuestion]; exact H.
Qed.

Lemma index_first_claimant_witness :
  byLabel (buildFieldIndex Sample.email).1 !! "your email" = Some 1
  /\ byPlaceholder (buildFieldIndex Sample.email).1 !! "you example com" = Some 1.
Proof.
  destruct (index_first_claimant Sample.email "your email" eq_refl) as (-> & _).
  destruct (index_first_claimant Sample.email "you example com" eq_refl) as (_ & _ & _ & ->).
  split; vm_compute; reflexivity.
Defined.

(** ** Identifiers made by the schema builder *)

Lemma noColon_uint (d : Decimal.uint) : noColon (NilEmpty.string_of_uint d) = true.
Proof. induction d; simpl; auto. Qed.

Lemma noColon_ofNat (n : nat) : noColon (Str.ofNat n) = true.
Proof.
  unfold Str.ofNat, NilZero.string_of_uint.
  destruct (Nat.to_uint n) eqn:E; try (rewrite <- E; apply noColon_uint).
  reflexivity.
Qed.

Lemma noColon_colon (a d : string) : noColon (a ++ String ":" d) = false.
Proof.
  induction a as [|c a IH]; [reflexivity|].
  change (noColon (String c (a ++ String ":" d)) = false).
  cbn [noColon]. rewrite IH. apply andb_false_r.
Qed.

Lemma after_last_colon (a a' d d' : string) :
  noColon d = true -> noColon d' = true ->
  (a ++ String ":" d)%string = (a' ++ String ":" d')%string -> d = d'.
Proof.
  intros Hd Hd'. revert a'.
  induction a as [|c a IH]; intros [|c' a'] H.
  - change (String ":" d = String ":" d') in H. now injection H.
  - change (String ":" d = String c' (a' ++ String ":" d')) in H.
    injection H as Hc H. subst d. rewrite noColon_colon in Hd. discriminate.
  - change (String c (a ++ String ":" d) = String ":" d') in H.
    injection H as Hc H. subst d'. rewrite noColon_colon in Hd'. discriminate.
  - change (String c (a ++ String ":" d) = String c' (a' ++ String ":" d')) in H.
    injection H as _ H. now apply IH in H.
Qed.

Lemma to_uint_not_nil (n : nat) : Nat.to_uint n <> Decimal.Nil.
Proof.
  intros H. pose proof (DecimalNat.Unsigned.to_of (Nat.to_uint n)) as E.
  rewrite DecimalNat.Unsigned.of_to, H in E. discriminate.
Qed.

Lemma ofNat_inj (i j : nat) : Str.ofNat i = Str.ofNat j -> i = j.
Proof.
  unfold Str.ofNat. intros H. apply DecimalNat.Unsigned.to_uint_inj.
  apply (f_equal NilZero.uint_of_string) in H.
  rewrite !NilZero.usu in H by apply to_uint_not_nil. now injection H.
Qed.

Lemma indexedBy_inj (i j : nat) (id : string) : indexedBy i id -> indexedBy j id -> i = j.
Proof.
  intros [a ->] [a' H]. apply ofNat_inj.
  eapply after_last_colon; [apply noColon_ofNat|apply noColon_ofNat|exact H].
Qed.

Lemma indexedFrom_In (ids : list string) (idx : nat) (id : string) :
  indexedFrom idx ids -> In id ids -> exists j, idx <= j /\ indexedBy j id.
Proof.
  revert idx. induction ids as [|x rest IH]; intros idx H Hin; [destruct Hin|].
  destruct H as [Hx Hrest]. destruct Hin as [->|Hin].
  - exists idx. split; [lia|exact Hx].
  - destruct (IH _ Hrest Hin) as (j & Hj & Hid). exists j. split; [lia|exact Hid].
Qed.

Lemma indexedFrom_NoDup (ids : list string) (idx : nat) : indexedFrom idx ids -> NoDup ids.
Proof.
  revert idx. induction ids as [|x rest IH]; intros idx H; [constructor|].
  destruct H as [Hx Hrest]. constructor; [|eapply IH; exact Hrest].
  intros Hin. apply list_elem_of_In in Hin.
  destruct (indexedFrom_In _ _ _ Hrest Hin) as (j & Hj & Hid).
  pose proof (indexedBy_inj _ _ _ Hx Hid). lia.
Qed.

Lemma str_append_assoc (a b c : string) : ((a ++ b) ++ c)%string = (a ++ (b ++ c))%string.
Proof.
  induction a as [|x a IH]; [reflexivity|].
  change (String x ((a ++ b) ++ c) = String x (a ++ (b ++ c))). now rewrite IH.
Qed.

Lemma join_snoc (sep : string) (l : list string) (x : string) :
  Str.join sep (l ++ [x])
  = ((match l with [] => "" | _ => Str.join sep l ++ sep end) ++ x)%string.
Proof.
  induction l as [|y l IH]; [reflexivity|].
  cbn [app]. destruct l as [|z l].
  - simpl. rewrite <- !str_append_assoc. reflexivity.
  - change (Str.join sep (y :: (z :: l) ++ [x]))
      with (y ++ sep ++ Str.join sep ((z :: l) ++ [x]))%string.
    rewrite IH.
    change (Str.join sep (y :: z :: l)) with (y ++ sep ++ Str.join sep (z :: l))%string.
    rewrite <- !str_append_assoc. reflexivity.
Qed.

Lemma generateFieldId_indexed (e : Element) (i : nat) : indexedBy i (generateFieldId e i).
Proof.
  unfold generateFieldId, indexedBy.
  rewrite !app_assoc. rewrite join_snoc.
  match goal with |- exists _, (?pre ++ _)%string = _ => exists (pre ++ "idx")%string end.
  change ("idx:" ++ Str.ofNat i)%string with ("idx" ++ (":" ++ Str.ofNat i))%string.
  rewrite str_append_assoc. reflexivity.
Qed.

Lemma node_setAttribute_some (n m : nat) (k v : string) (p : Page) :
  Dom.node p m <> None -> Dom.node (Dom.setAttribute n k v p) m <> None.
Proof.
  intros H. unfold Dom.setAttribute. rewrite node_touch.
  destruct (decide (n = m)); [|exact H]. destruct (Dom.node p m); [discriminate|congruence].
Qed.

Lemma tagTextFields_indexed (els : list nat) (idx : nat) (p : Page) :
  (forall n, In n els -> Dom.node p n <> None) ->
  indexedFrom idx (map fdId (tagTextFields els idx p).1).
Proof.
  revert idx p. induction els as [|n rest IH]; intros idx p Hex; [exact I|].
  cbn [tagTextFields].
  set (fieldId := match Dom.node p n with Some e => generateFieldId e idx | None => "" end).
  set (p1 := Dom.setAttribute n "data-autoanswer-id" fieldId p).
  specialize (IH (S idx) p1).
  destruct (tagTextFields rest (S idx) p1) as [ds p2]. cbn [fst map]. split.
  - assert (Hid : fdId (describeField p1 n fieldId) = fieldId).
    { unfold describeField. destruct (Dom.node p1 n); reflexivity. }
    rewrite Hid. unfold fieldId.
    destruct (Dom.node p n) eqn:E; [apply generateFieldId_indexed|].
    exfalso. apply (Hex n); [now left|exact E].
  - apply IH. intros m Hm. apply node_setAttribute_some. apply Hex. now right.
Qed.

Lemma tagOptions_indexed (labelOf : Page -> nat -> nat -> string) (groupId : string)
    (els : list nat) (i : nat) (p : Page) :
  (forall n, In n els -> Dom.node p n <> None) ->
  indexedFrom i (map odId (tagOptions labelOf groupId els i p).1).
Proof.
  revert i p. induction els as [|n rest IH]; intros i p Hex; [exact I|].
  cbn [tagOptions].
  set (optId := match Dom.node p n with Some e => generateFieldId e i | None => "" end).
  set (p2 := Dom.setAttribute n "data-autoanswer-group" groupId
               (Dom.setAttribute n "data-autoanswer-id" optId p)).
  specialize (IH (S i) p2).
  destruct (tagOptions labelOf groupId rest (S i) p2) as [ds p3]. cbn [fst map odId]. split.
  - unfold optId. destruct (Dom.node p n) eqn:E; [apply generateFieldId_indexed|].
    exfalso. apply (Hex n); [now left|exact E].
  - apply IH. intros m Hm. do 2 apply node_setAttribute_some. apply Hex. now right.
Qed.

Lemma tagOptions_nodes (labelOf : Page -> nat -> nat -> string) (groupId : string)
    (els : list nat) (i : nat) (p : Page) (m : nat) :
  Dom.node p m <> None -> Dom.node (tagOptions labelOf groupId els i p).2 m <> None.
Proof.
  revert i p. induction els as [|n rest IH]; intros i p H; [exact H|].
  cbn [tagOptions].
  set (p2 := Dom.setAttribute n "data-autoanswer-group" groupId _).
  specialize (IH (S i) p2).
  destruct (tagOptions labelOf groupId rest (S i) p2) as [ds p3]. cbn [snd] in *.
  apply IH. do 2 apply node_setAttribute_some. exact H.
Qed.

Lemma buildGroups_indexed (labelOf : Page -> nat -> nat -> string) (prefix : string)
    (fallback : option nat) (m : list (string * list nat)) (idx : nat) (p : Page) :
  (forall k els n, In (k, els) m -> In n els -> Dom.node p n <> None) ->
  let groups := (buildGroups labelOf prefix fallback m idx p).1 in
  indexedFrom idx (map gdGroupId groups)
  /\ forall g, In g groups -> indexedFrom 0 (map odId (gdOptions g)).
Proof.
  revert idx p. induction m as [|[key els] rest IH]; intros idx p Hex; [split; [exact I|intros g []]|].
  cbn [buildGroups]. destruct els as [|first more].
  { apply IH. intros k els n Hin. apply (Hex k els n). now right. }
  set (groupId := (prefix ++ beforeColon key ++ ":" ++ Str.ofNat idx)%string).
  pose proof (tagOptions_indexed labelOf groupId (first :: more) 0 p) as Hopts.
  pose proof (fun m => tagOptions_nodes labelOf groupId (first :: more) 0 p m) as Hnodes.
  destruct (tagOptions labelOf groupId (first :: more) 0 p) as [options p1].
  cbn [fst snd] in Hopts, Hnodes.
  specialize (IH (S idx) p1).
  destruct (buildGroups labelOf prefix fallback rest (S idx) p1) as [gs p2].
  cbn [fst map gdGroupId] in *.
  destruct IH as [IHids IHopts].
  { intros k els n Hin Hn. apply Hnodes. apply (Hex k els n); [now right|exact Hn]. }
  split; [split|].
  - exists (prefix ++ beforeColon key)%string. unfold groupId.
    rewrite <- !str_append_assoc. reflexivity.
  - exact IHids.
  - intros g [<-|Hg]; [|now apply IHopts]. cbn [gdOptions]. apply Hopts.
    intros n Hn. apply (Hex key (first :: more) n); [now left|exact Hn].
Qed.

Lemma groupPush_In (key : string) (n : nat) (m : list (string * list nat)) (k : string)
    (els : list nat) (x : nat) :
  In (k, els) (groupPush key n m) -> In x els ->
  x = n \/ exists els', In (k, els') m /\ In x els'.
Proof.
  induction m as [|[k' els'] rest IH]; cbn [groupPush].
  - intros [Heq|[]] Hx. injection Heq as _ Hels. subst els.
    destruct Hx as [<-|[]]. now left.
  - destruct (Str.eqb k' key).
    + intros [Heq|Hin] Hx.
      * injection Heq as Hk Hels. subst k els.
        apply in_app_or in Hx as [Hx|[<-|[]]]; [|now left].
        right. exists els'. split; [now left|exact Hx].
      * right. exists els. split; [now right|exact Hx].
    + intros [Heq|Hin] Hx.
      * injection Heq as Hk Hels. subst k els.
        right. exists els'. split; [now left|exact Hx].
      * destruct (IH Hin Hx) as [->|(els'' & Hin' & Hx')]; [now left|].
        right. exists els''. split; [now right|exact Hx'].
Qed.

Lemma groupElements_In (keyOf : nat -> string) (l : list nat) (k : string) (els : list nat)
    (x : nat) :
  In (k, els) (groupElements keyOf l) -> In x els -> In x l.
Proof.
  unfold groupElements.
  assert (H : forall m,
             In (k, els) (fold_left (fun m n => groupPush (keyOf n) n m) l m) -> In x els ->
             In x l \/ exists els', In (k, els') m /\ In x els').
  { induction l as [|n l IH]; intros m Hin Hx; cbn [fold_left] in Hin.
    - right. exists els. split; assumption.
    - destruct (IH _ Hin Hx) as [Hl|(els' & Hin' & Hx')]; [left; now right|].
      destruct (groupPush_In _ _ _ _ _ _ Hin' Hx') as [->|Hm]; [left; now left|now right]. }
  intros Hin Hx. destruct (H [] Hin Hx) as [Hl|(els' & [] & _)]. exact Hl.
Qed.

(** X18. The identifiers [collectSchema] gives to the text fields of one
    pass are pairwise distinct. *)
Theorem collectSchema_field_ids_distinct (p : Page) :
  NoDup (map fdId (collectSchema p).1.1).
Proof.
  unfold collectSchema.
  set (cands := List.filter (isTextCandidate p) (Dom.docQueryAll p selTextLike)).
  pose proof (tagTextFields_indexed cands 0 p) as H.
  destruct (tagTextFields cands 0 p) as [fields p1].
  destruct (collectChoiceGroups p1) as [groups p2]. cbn [fst] in *.
  apply (indexedFrom_NoDup _ 0), H.
  intros n Hn. apply filter_In in Hn as [Hn _]. eapply docQueryAll_node; exact Hn.
Qed.

(** X19. The group identifiers of one pass are pairwise distinct, and so are
    the option identifiers within each group. *)
Theorem collectSchema_group_ids_distinct (p : Page) :
  NoDup (map gdGroupId (collectSchema p).1.2)
  /\ forall g, In g (collectSchema p).1.2 -> NoDup (map odId (gdOptions g)).
Proof.
  unfold collectSchema.
  destruct (tagTextFields _ 0 p) as [fields p1].
  unfold collectChoiceGroups.
  set (elements := List.filter (isChoiceElementVisible p1) _).
  pose proof (buildGroups_indexed schemaOptionLabel "group:" None
                (groupElements (findGroupKey p1) elements) 0 p1) as H.
  destruct (buildGroups schemaOptionLabel "group:" None _ 0 p1) as [groups p2].
  cbn [fst snd] in *. destruct H as [Hids Hopts].
  { intros k els n Hin Hn. pose proof (groupElements_In _ _ _ _ _ Hin Hn) as Hel.
    unfold elements in Hel. apply filter_In in Hel as [Hel _].
    apply in_app_or in Hel as [Hel|Hel]; eapply docQueryAll_node; exact Hel. }
  split; [eapply indexedFrom_NoDup; exact Hids|].
  intros g Hg. eapply indexedFrom_NoDup. apply Hopts. exact Hg.
Qed.

(** ** Collecting the schema only tags *)

Lemma taggedFrom_refl (p : Page) : taggedFrom p p.
Proof. split; [apply extends_refl|]. intros n. repeat split. Qed.

Lemma taggedFrom_trans (p q r : Page) : taggedFrom p q -> taggedFrom q r -> taggedFrom p r.
Proof.
  intros [E1 C1] [E2 C2]. split; [eapply extends_trans; eassumption|].
  intros n. destruct (C1 n) as (A1 & A2 & A3), (C2 n) as (B1 & B2 & B3).
  repeat split; congruence.
Qed.

Lemma taggedFrom_setAttribute (n : nat) (k v : string) (p : Page) :
  isTagWrite (SetAttribute n k v) = true -> taggedFrom p (Dom.setAttribute n k v p).
Proof.
  intros H. split; [apply extends_touch, H|].
  intros m. unfold Dom.setAttribute. rewrite node_touch.
  destruct (decide (n = m)); [|repeat split].
  destruct (Dom.node p m); repeat split.
Qed.

Lemma tagTextFields_tags (els : list nat) (idx : nat) (p : Page) :
  taggedFrom p (tagTextFields els idx p).2.
Proof.
  revert idx p. induction els as [|n rest IH]; intros idx p; [apply taggedFrom_refl|].
  cbn [tagTextFields].
  set (p1 := Dom.setAttribute n "data-autoanswer-id" _ p).
  specialize (IH (S idx) p1).
  destruct (tagTextFields rest (S idx) p1) as [ds p2]. cbn [snd] in *.
  eapply taggedFrom_trans; [|exact IH]. apply taggedFrom_setAttribute. reflexivity.
Qed.

Lemma tagOptions_tags (labelOf : Page -> nat -> nat -> string) (groupId : string)
    (els : list nat) (i : nat) (p : Page) :
  taggedFrom p (tagOptions labelOf groupId els i p).2.
Proof.
  revert i p. induction els as [|n rest IH]; intros i p; [apply taggedFrom_refl|].
  cbn [tagOptions].
  set (p1 := Dom.setAttribute n "data-autoanswer-id" _ p).
  set (p2 := Dom.setAttribute n "data-autoanswer-group" groupId p1).
  specialize (IH (S i) p2).
  destruct (tagOptions labelOf groupId rest (S i) p2) as [ds p3]. cbn [snd] in *.
  eapply taggedFrom_trans; [|exact IH].
  eapply taggedFrom_trans; apply taggedFrom_setAttribute; reflexivity.
Qed.

Lemma buildGroups_tags (labelOf : Page -> nat -> nat -> string) (prefix : string)
    (fallback : option nat) (m : list (string * list nat)) (idx : nat) (p : Page) :
  taggedFrom p (buildGroups labelOf prefix fallback m idx p).2.
Proof.
  revert idx p. induction m as [|[key els] rest IH]; intros idx p; [apply taggedFrom_refl|].
  cbn [buildGroups]. destruct els as [|first more]; [apply IH|].
  set (groupId := (prefix ++ beforeColon key ++ ":" ++ Str.ofNat idx)%string).
  pose proof (tagOptions_tags labelOf groupId (first :: more) 0 p) as Hopts.
  destruct (tagOptions labelOf groupId (first :: more) 0 p) as [options p1].
  specialize (IH (S idx) p1).
  destruct (buildGroups labelOf prefix fallback rest (S idx) p1) as [gs p2].
  cbn [snd] in *. eapply taggedFrom_trans; eassumption.
Qed.

(** X20. Collecting the schema writes the two tagging attributes and nothing
    else: no value, checked state or text of the document changes. *)
Theorem collectSchema_only_tags (p : Page) : taggedFrom p (collectSchema p).2.
Proof.
  unfold collectSchema.
  pose proof (tagTextFields_tags
                (List.filter (isTextCandidate p) (Dom.docQueryAll p selTextLike)) 0 p) as H1.
  destruct (tagTextFields _ 0 p) as [fields p1]. cbn [snd] in H1.
  unfold collectChoiceGroups.
  pose proof (buildGroups_tags schemaOptionLabel "group:" None
                (groupElements (findGroupKey p1)
                   (List.filter (isChoiceElementVisible p1)
                      (Dom.docQueryAll p1 selChoiceInput ++ Dom.docQueryAll p1 selChoiceRole)))
                0 p1) as H2.
  destruct (buildGroups _ _ _ _ 0 p1) as [groups p2]. cbn [snd] in *.
  eapply taggedFrom_trans; eassumption.
Qed.

(** ** Ranking by distance, and grouping by key *)





Lemma existsb_eqb_In (k : string) (l : list string) : existsb (Str.eqb k) l = true <-> In k l.
Proof.
  rewrite existsb_exists. split.
  - intros (x & Hx & E). apply eqb_true in E. now subst.
  - intros H. exists k. split; [exact H|]. apply eqb_true. reflexivity.
Qed.

Lemma str_eqb_false (a b : string) : Str.eqb a b = false <-> a <> b.
Proof.
  unfold Str.eqb. split.
  - intros H ->. rewrite bool_decide_eq_true_2 in H; congruence.
  - intros H. apply bool_decide_eq_false_2. exact H.
Qed.

Lemma str_eqb_sym (a b : string) : Str.eqb a b = Str.eqb b a.
Proof.
  destruct (Str.eqb b a) eqn:E.
  - apply eqb_true in E. subst. apply eqb_true. reflexivity.
  - apply str_eqb_false in E. apply str_eqb_false. congruence.
Qed.

(** [groupPush] on a map that lists [G k] under each key [k] of [ks]. *)
Lemma groupPush_mapped (key : string) (n : nat) (G : string -> list nat) (ks : list string) :
  List.NoDup ks ->
  groupPush key n (map (fun k => (k, G k)) ks)
  = if existsb (Str.eqb key) ks
    then map (fun k => (k, if Str.eqb k key then G k ++ [n] else G k)) ks
    else map (fun k => (k, G k)) ks ++ [(key, [n])].
Proof.
  induction ks as [|k ks IH]; intros Hnd; [reflexivity|].
  inversion Hnd as [|? ? Hnotin Hnd']; subst.
  cbn [map groupPush existsb]. rewrite (str_eqb_sym key k).
  destruct (Str.eqb k key) eqn:E.
  - cbn [orb]. apply eqb_true in E. subst k. f_equal.
    apply map_ext_in. intros k Hk.
    destruct (Str.eqb k key) eqn:E'; [|reflexivity].
    apply eqb_true in E'. subst k. contradiction.
  - cbn [orb]. rewrite (IH Hnd'). destruct (existsb (Str.eqb key) ks); reflexivity.
Qed.

Lemma firstSeen_step (l : list string) (k : string) :
  firstSeen (l ++ [k])
  = if existsb (Str.eqb k) (firstSeen l) then firstSeen l else firstSeen l ++ [k].
Proof. unfold firstSeen. rewrite fold_left_app. reflexivity. Qed.

Lemma firstSeen_spec (l : list string) :
  List.NoDup (firstSeen l) /\ forall k, In k (firstSeen l) <-> In k l.
Proof.
  induction l as [|k l IH] using rev_ind.
  - split; [constructor|]. intros k. reflexivity.
  - destruct IH as [Hnd Hin]. rewrite firstSeen_step.
    destruct (existsb (Str.eqb k) (firstSeen l)) eqn:E.
    + split; [exact Hnd|]. intros k'. rewrite Hin, in_app_iff. cbn.
      apply existsb_eqb_In in E. apply Hin in E. intuition (subst; auto).
    + split.
      * apply NoDup_ListNoDup, NoDup_app. split; [apply NoDup_ListNoDup, Hnd|].
        split; [|apply NoDup_singleton].
        intros x Hx Hx'. apply list_elem_of_In in Hx. apply list_elem_of_In in Hx'.
        destruct Hx' as [<-|[]].
        apply existsb_eqb_In in Hx. congruence.
      * intros k'. rewrite !in_app_iff, Hin. reflexivity.
Qed.

(** X22. Grouping puts every element under its key, keeps the elements of a
    group in the order they were met, and lists the groups in the order
    their keys were first met. *)
Theorem groupElements_partitions (keyOf : nat -> string) (els : list nat) :
  groupElements keyOf els
  = map (fun k => (k, List.filter (fun n => Str.eqb (keyOf n) k) els))
      (firstSeen (map keyOf els)).
Proof.
  unfold groupElements. induction els as [|n els IH] using rev_ind; [reflexivity|].
  rewrite fold_left_app. cbn [fold_left]. rewrite IH, map_app. cbn [map].
  rewrite firstSeen_step.
  destruct (firstSeen_spec (map keyOf els)) as [Hnd Hin].
  rewrite (groupPush_mapped _ _ _ _ Hnd).
  destruct (existsb (Str.eqb (keyOf n)) (firstSeen (map keyOf els))) eqn:E.
  - apply map_ext. intros k. f_equal. rewrite List.filter_app. cbn [List.filter].
    rewrite (str_eqb_sym (keyOf n) k).
    destruct (Str.eqb k (keyOf n)); rewrite ?app_nil_r; reflexivity.
  - rewrite map_app. cbn [map]. f_equal.
    + apply map_ext_in. intros k Hk. f_equal. rewrite List.filter_app. cbn [List.filter].
      destruct (Str.eqb (keyOf n) k) eqn:E'; [|rewrite app_nil_r; reflexivity].
      apply eqb_true in E'. subst k. apply existsb_eqb_In in Hk. congruence.
    + f_equal. f_equal. rewrite List.filter_app. cbn [List.filter].
      replace (Str.eqb (keyOf n) (keyOf n)) with true by (symmetry; apply eqb_true; reflexivity).
      assert (Hnone : List.filter (fun n0 => Str.eqb (keyOf n0) (keyOf n)) els = []).
      { destruct (List.filter _ els) as [|m ms] eqn:Hf; [reflexivity|].
        assert (Hm : In m (List.filter (fun n0 => Str.eqb (keyOf n0) (keyOf n)) els))
          by (rewrite Hf; now left).
        apply filter_In in Hm as [Hm Hk]. apply eqb_true in Hk.
        assert (In (keyOf n) (firstSeen (map keyOf els))).
        { apply Hin. rewrite <- Hk. apply in_map. exact Hm. }
        apply existsb_eqb_In in H. congruence. }
      rewrite Hnone. reflexivity.
Qed.

(** ** What a trigger reports, and the focus strategy *)

Ltac eff_run :=
  repeat (first [rewrite bind_gets | rewrite bind_onPage]; cbv beta iota).

Lemma renderValue_or_some (a : option JSON) :
  exists s, renderValue (Js.or_ a (Some (JStr ""))) = Some s.
Proof.
  unfold Js.or_. destruct a as [v|]; cbn; [|eauto].
  destruct (Js.truthy v); [|cbn; eauto]. destruct v; cbn; eauto.
Qed.

Section Reports.

Variable hostQuery : string -> Page -> QueryResult.
Variable autoSubmit : option JSON.
Variable provider : list Request -> Request -> Reply.

Lemma runStrategies_report (message : Message) (w w' : World) (r : Response) :
  runStrategies hostQuery autoSubmit provider message w = Returned w' r ->
  r = Success filledOne
  \/ exists res req, r = Success res /\ last (sent w') = Some req /\ strategyOf req = FullPage.
Proof.
  unfold runStrategies, bind.
  destruct (fillSelectionChoicesIfAny _ _ _ _ w) as [w1 [|]|]; [| |discriminate].
  { intros [= _ <-]. now left. }
  destruct (fillViewportChoicesIfAny _ _ _ _ w1) as [w2 [|]|]; [| |discriminate].
  { intros [= _ <-]. now left. }
  destruct (fillFocusedFieldIfAny _ w2) as [w3 [|]|]; [| |discriminate].
  { intros [= _ <-]. now left. }
  destruct (captureAndFill_spec hostQuery autoSubmit provider
              (msgIncludeScreenshot message) (msgSkipSubmit message) w3)
    as (req & w4 & Hk & Hsent & [(res & Hrun & _)|(err & Hrun)]); rewrite Hrun; [|discriminate].
  intros [= <- <-]. right. exists res, req. split; [reflexivity|].
  split; [rewrite Hsent; apply last_snoc|exact Hk].
Qed.

(** X23. A trigger that ends without a full-page request reports
    [{ filled: 1, submitted: false }], whatever its fill did. *)
Theorem partial_strategies_report_one (message : Message) (w w' : World) (res : FillResult) :
  onMessage hostQuery autoSubmit provider message w = Returned w' (Some (Success res)) ->
  res = filledOne
  \/ exists req, last (sent w') = Some req /\ strategyOf req = FullPage.
Proof.
  unfold onMessage. destruct (Str.eqb (msgType message) "captureAndFill"); [|discriminate].
  unfold tryCatch, bind.
  destruct (runStrategies hostQuery autoSubmit provider message w) as [w1 r|w1 err] eqn:Hrun;
    [|discriminate].
  intros [= <- ->].
  destruct (runStrategies_report message w w1 _ Hrun) as [[= ->]|(res' & req & [= ->] & Hl & Hk)].
  - now left.
  - right. exists req. split; assumption.
Qed.

(** X24. For a focused input or textarea and an accepted reply, the focus
    strategy tags the control, writes the answer of the reply, or the empty
    text when the answer is missing or falsy, and always notifies [input]
    and [change]. *)
Theorem focused_fill_writes_answer (w : World) (t : nat) (e : Element) (reply : JSON) :
  activeElement (wPage w) = Some t ->
  Dom.node (wPage w) t = Some e ->
  Dom.tagIn ["textarea"; "input"] e = true ->
  (forall req, provider (sent w) req = Replied (Some reply)) ->
  Js.truthy' (Js.prop reply "ok") = true ->
  exists w',
    fillFocusedFieldIfAny provider w = Returned w' true
    /\ valueOf (wPage w') t = focusedText reply
    /\ trace (wPage w')
       = trace (wPage w)
         ++ [SetAttribute t "data-autoanswer-id" (generateFieldId e 0);
             SetValue t (focusedText reply);
             DispatchEvent t "input"; DispatchEvent t "change"].
Proof.
  intros Hact He Htag Hprov Hok.
  assert (Hfocus : focusTarget (wPage w) = Some t).
  { unfold focusTarget. rewrite Hact. unfold Dom.matches, Dom.either. rewrite He.
    pose proof Htag as Htag'. unfold Dom.tagIn in *. cbn [existsb] in *.
    destruct (Str.eqb (tagName e) "input"), (Str.eqb (tagName e) "textarea");
      first [reflexivity|discriminate Htag']. }
  unfold fillFocusedFieldIfAny. eff_run. rewrite Hfocus. eff_run.
  rewrite bind_liftWorld_modify. eff_run. cbn [wPage]. rewrite He.
  set (p1 := Dom.setAttribute t "data-autoanswer-id" (generateFieldId e 0) (wPage w)).
  unfold bind at 1. unfold sendMessage. cbn [sent wPage]. rewrite Hprov.
  unfold bind at 1. unfold requireOk, propOf. rewrite Hok. unfold ret at 1.
  rewrite bind_liftWorld_modify. cbn [wPage sent]. unfold ret.
  assert (He1 : Dom.node p1 t = Some (Dom.withAttr "data-autoanswer-id" (generateFieldId e 0) e)).
  { unfold p1, Dom.setAttribute. rewrite node_touch, decide_True by reflexivity.
    rewrite He. reflexivity. }
  destruct (setElementValue_input p1 t _ (Js.or_ (Js.prop reply "answer") (Some (JStr ""))) false
              He1 Htag) as [Htr Hval].
  eexists. split; [reflexivity|]. cbn [wPage]. split.
  - rewrite Hval. unfold focusedText.
    destruct (renderValue_or_some (Js.prop reply "answer")) as [s ->]. reflexivity.
  - rewrite Htr. unfold p1. cbn [trace Dom.setAttribute Dom.touch].
    rewrite <- !app_assoc. cbn [app]. do 2 f_equal. unfold focusedText.
    destruct (renderValue_or_some (Js.prop reply "answer")) as [s ->]. reflexivity.
Qed.

End Reports.

Lemma partial_strategies_report_one_witness :
  filledOne = filledOne
  \/ exists req,
       last (sent (outWorld (onMessage Sample.noQuery None Sample.answering
                               Sample.captureMessage Sample.focused))) = Some req
       /\ strategyOf req = FullPage.
Proof.
  apply (partial_strategies_report_one Sample.noQuery None Sample.answering
           Sample.captureMessage Sample.focused).
  vm_compute. reflexivity.
Defined.

Lemma focused_fill_writes_answer_witness :
  exists w',
    fillFocusedFieldIfAny Sample.silent Sample.focused = Returned w' true
    /\ valueOf (wPage w') 1 = ""
    /\ trace (wPage w')
       = [SetAttribute 1 "data-autoanswer-id" "name:who|type:text|idx:0";
          SetValue 1 ""; DispatchEvent 1 "input"; DispatchEvent 1 "change"].
Proof.
  apply (focused_fill_writes_answer Sample.silent Sample.focused 1
           (Sample.elem "input" [("type", "text"); ("name", "who")] (Some 0) "")
           (JObj [("ok", JBool true)])); try reflexivity.
Defined.

(** ** The background page *)

Lemma assoc_absent (k : string) (l : list (string * JSON)) :
  k ∉ map fst l -> Js.assoc k l = None.
Proof.
  induction l as [|[k' v] l IH]; [reflexivity|]. cbn [map fst Js.assoc]. intros H.
  apply not_elem_of_cons in H as [Hne H].
  destruct (Str.eqb k k') eqn:E; [apply eqb_true in E; contradiction|]. apply IH, H.
Qed.

Lemma storageSet_lookup (items : list (string * JSON)) (st : gmap string JSON) (k : string) :
  NoDup (map fst items) ->
  Background.storageSet items st !! k
  = match Js.assoc k items with Some v => Some v | None => st !! k end.
Proof.
  unfold Background.storageSet. revert st.
  induction items as [|[k' v] items IH]; intros st Hnd; [reflexivity|].
  cbn [map fst] in Hnd. apply NoDup_cons in Hnd as [Hnotin Hnd].
  cbn [fold_left fst snd Js.assoc]. rewrite (IH _ Hnd).
  destruct (Str.eqb k k') eqn:E.
  - apply eqb_true in E. subst k'. rewrite (assoc_absent k items Hnotin).
    apply lookup_insert_eq.
  - assert (Hne : k' <> k).
    { intros ->. unfold Str.eqb in E. rewrite bool_decide_eq_true_2 in E; congruence. }
    rewrite lookup_insert_ne by exact Hne. reflexivity.
Qed.

Lemma assoc_filter (f : string -> bool) (k : string) (l : list (string * JSON)) :
  Js.assoc k (List.filter (fun kv => f (fst kv)) l) = if f k then Js.assoc k l else None.
Proof.
  induction l as [|[k' v] l IH]; [destruct (f k); reflexivity|].
  cbn [List.filter fst]. destruct (f k') eqn:Hf; cbn [Js.assoc].
  - destruct (Str.eqb k k') eqn:E; [|exact IH].
    apply eqb_true in E. subst k'. rewrite Hf. reflexivity.
  - rewrite IH. destruct (Str.eqb k k') eqn:E; [|reflexivity].
    apply eqb_true in E. subst k'. rewrite Hf. reflexivity.
Qed.

Lemma NoDup_filter_keys (f : string * JSON -> bool) (l : list (string * JSON)) :
  NoDup (map fst l) -> NoDup (map fst (List.filter f l)).
Proof.
  induction l as [|x l IH]; [intros _; constructor|].
  cbn [map List.filter]. intros H. apply NoDup_cons in H as [Hnotin H].
  destruct (f x); [|apply IH, H]. cbn [map]. apply NoDup_cons. split; [|apply IH, H].
  intros Hin. apply Hnotin. apply list_elem_of_In in Hin. apply list_elem_of_In.
  apply in_map_iff in Hin as (y & Hy & Hin). apply filter_In in Hin as [Hin _].
  apply in_map_iff. exists y. split; assumption.
Qed.

Lemma defaults_NoDup : NoDup (map fst Background.defaults).
Proof. apply NoDup_ListNoDup. cbn. repeat constructor; cbn; intuition discriminate. Qed.

(** X25. Installing or updating keeps every stored setting and gives each
    missing one its default; nothing else is written. *)
Theorem onInstalled_keeps_settings (st : gmap string JSON) (k : string) :
  Background.onInstalled st !! k
  = match st !! k with
    | Some v => Some v
    | None => Js.assoc k Background.defaults
    end.
Proof.
  assert (H : Background.storageSet (Background.missingDefaults st) st !! k
              = match st !! k with Some v => Some v | None => Js.assoc k Background.defaults end).
  { rewrite storageSet_lookup by apply NoDup_filter_keys, defaults_NoDup.
    unfold Background.missingDefaults.
    rewrite (assoc_filter (fun k => match st !! k with Some _ => false | None => true end)).
    destruct (st !! k); [reflexivity|]. destruct (Js.assoc k Background.defaults); reflexivity. }
  unfold Background.onInstalled.
  destruct (Background.missingDefaults st); exact H.
Qed.


Section ExtractFacts.

Variable parse : string -> option JSON.

Lemma parsedObject_sound (s : string) (v : JSON) :
  Background.parsedObject parse s = Some v ->
  parse s = Some v /\ Js.truthy v = true /\ Js.isObjectType v = true.
Proof.
  unfold Background.parsedObject. destruct (parse s) as [x|]; [|discriminate].
  destruct (Js.truthy x && Js.isObjectType x) eqn:E; [|discriminate].
  intros [= ->]. apply andb_true_iff in E. tauto.
Qed.

Lemma balancedSlice_prefix (s : string) (depth : Z) (c : string) :
  Background.balancedSlice depth s = Some c -> exists post, s = (c ++ post)%string.
Proof.
  revert depth c. induction s as [|ch s IH]; intros depth c; [discriminate|].
  cbn [Background.balancedSlice]. cbv zeta.
  destruct (_ =? 0)%Z.
  - intros [= <-]. exists s. reflexivity.
  - destruct (Background.balancedSlice _ s) as [c'|] eqn:E; [|discriminate].
    intros [= <-]. destruct (IH _ _ E) as [post ->]. exists post. reflexivity.
Qed.

Lemma searchObject_sound (s : string) (v : JSON) :
  Background.searchObject parse s = Some v ->
  exists pre candidate post,
    s = (pre ++ candidate ++ post)%string
    /\ Background.balancedSlice 0 (candidate ++ post) = Some candidate
    /\ String.prefix "{" candidate = true
    /\ Background.parsedObject parse candidate = Some v.
Proof.
  induction s as [|ch s IH]; [discriminate|].
  cbn [Background.searchObject].
  assert (Hrec : Background.searchObject parse s = Some v ->
                 exists pre candidate post,
                   String ch s = (pre ++ candidate ++ post)%string
                   /\ Background.balancedSlice 0 (candidate ++ post) = Some candidate
                   /\ String.prefix "{" candidate = true
                   /\ Background.parsedObject parse candidate = Some v).
  { intros H. destruct (IH H) as (pre & c & post & -> & Hb & Hp & Hv).
    exists (String ch pre), c, post. repeat split; assumption. }
  destruct (Str.code ch =? 123) eqn:Hch; [|exact Hrec].
  destruct (Background.balancedSlice 0 (String ch s)) as [c|] eqn:Hb; [|exact Hrec].
  destruct (Background.parsedObject parse c) as [x|] eqn:Hv; [|exact Hrec].
  intros [= ->]. destruct (balancedSlice_prefix _ _ _ Hb) as [post Hs].
  exists "", c, post. split; [exact Hs|]. split; [rewrite <- Hs; exact Hb|].
  split; [|exact Hv].
  destruct c as [|c0 c]; [cbn in Hb; destruct (_ =? 0)%Z in Hb;
                          [discriminate|destruct (Background.balancedSlice _ s); discriminate]|].
  injection Hs as <- _. apply Nat.eqb_eq in Hch.
  assert (ch = "{"%char) as ->.
  { unfold Str.code in Hch. rewrite <- (ascii_nat_embedding ch), Hch. reflexivity. }
  destruct c; reflexivity.
Qed.

(** X27. What [extractJsonObjectFromText] returns is an object or an array,
    parsed from the whole text or from a slice of it that runs from an
    opening brace to the brace that closes it. *)
Theorem extract_returns_parsed_object (text : string) (v : JSON) :
  Background.extractJsonObjectFromText parse text = Some v ->
  Js.truthy v = true /\ Js.isObjectType v = true
  /\ exists pre candidate post,
       text = (pre ++ candidate ++ post)%string
       /\ parse candidate = Some v
       /\ ((pre = "" /\ post = "")
           \/ (String.prefix "{" candidate = true
               /\ Background.balancedSlice 0 (candidate ++ post) = Some candidate)).
Proof.
  unfold Background.extractJsonObjectFromText.
  destruct (Str.isEmpty text); [discriminate|].
  destruct (Background.parsedObject parse text) as [x|] eqn:Hwhole.
  - intros [= ->]. destruct (parsedObject_sound _ _ Hwhole) as (Hp & Ht & Ho).
    split; [exact Ht|]. split; [exact Ho|].
    exists "", text, "". split; [|split; [exact Hp|left; split; reflexivity]].
    clear. induction text as [|c t IH]; [reflexivity|].
    change (String c t = String c (t ++ "")%string). f_equal. exact IH.
  - intros H. destruct (searchObject_sound _ _ H) as (pre & c & post & -> & Hb & Hpre & Hv).
    destruct (parsedObject_sound _ _ Hv) as (Hp & Ht & Ho).
    split; [exact Ht|]. split; [exact Ho|].
    exists pre, c, post. split; [reflexivity|]. split; [exact Hp|]. right. split; assumption.
Qed.

Lemma searchObject_skips (pre s : string) :
  noOpeningBrace pre = true ->
  Background.searchObject parse (pre ++ s) = Background.searchObject parse s.
Proof.
  induction pre as [|c pre IH]; [reflexivity|]. cbn [noOpeningBrace]. intros H.
  apply andb_true_iff in H as [Hc H]. apply negb_true_iff in Hc.
  change (Background.searchObject parse (String c (pre ++ s))
          = Background.searchObject parse s).
  cbn [Background.searchObject]. rewrite Hc. apply IH, H.
Qed.

Lemma balancedSlice_app (c : string) (depth : Z) (post : string) :
  Background.balancedSlice depth c = Some c ->
  Background.balancedSlice depth (c ++ post) = Some c.
Proof.
  revert depth. induction c as [|ch c IH]; intros depth; [discriminate|].
  change (Background.balancedSlice depth (String ch c) = Some (String ch c) ->
          Background.balancedSlice depth (String ch (c ++ post)) = Some (String ch c)).
  cbn [Background.balancedSlice]. cbv zeta.
  destruct (_ =? 0)%Z.
  - intros [= <-]. reflexivity.
  - destruct (Background.balancedSlice _ c) as [c'|] eqn:E; [|discriminate].
    intros [= ->]. rewrite (IH _ E). reflexivity.
Qed.

(** X28. An object wrapped in prose is found: when no brace opens before
    it, the text as a whole does not parse and the braced slice does, the
    slice's object is the result. *)
Theorem extract_finds_wrapped_object (pre candidate post : string) (v : JSON) :
  noOpeningBrace pre = true ->
  braced candidate ->
  Background.parsedObject parse candidate = Some v ->
  Background.parsedObject parse (pre ++ candidate ++ post) = None ->
  Background.extractJsonObjectFromText parse (pre ++ candidate ++ post) = Some v.
Proof.
  intros Hpre [Hopen Hb] Hv Hwhole. unfold Background.extractJsonObjectFromText.
  rewrite Hwhole.
  destruct candidate as [|ch c]; [discriminate Hb|].
  assert (Hne : Str.isEmpty (pre ++ String ch c ++ post) = false).
  { destruct pre; reflexivity. }
  rewrite Hne, (searchObject_skips _ _ Hpre).
  assert (Hch : (Str.code ch =? 123) = true).
  { unfold String.prefix in Hopen.
    destruct (ascii_dec "{" ch) as [<-|]; [reflexivity|discriminate]. }
  change (Background.searchObject parse (String ch (c ++ post)) = Some v).
  cbn [Background.searchObject]. rewrite Hch.
  change (String ch (c ++ post)) with (String ch c ++ post)%string.
  rewrite (balancedSlice_app _ _ post Hb), Hv. reflexivity.
Qed.

End ExtractFacts.

Lemma index_last_identifier_witness :
  byId (buildFieldIndex (collectSchema Sample.quiz).2).1 !! "type:radio|idx:0" = Some 7.
Proof.
  rewrite (index_last_identifier (collectSchema Sample.quiz).2 "type:radio|idx:0" eq_refl).
  vm_compute. reflexivity.
Defined.

Lemma extract_returns_parsed_object_witness :
  Js.truthy (JObj []) = true /\ Js.isObjectType (JObj []) = true
  /\ exists pre candidate post,
       "Sure: {} done" = (pre ++ candidate ++ post)%string
       /\ Sample.bracesOnly candidate = Some (JObj [])
       /\ ((pre = "" /\ post = "")
           \/ (String.prefix "{" candidate = true
               /\ Background.balancedSlice 0 (candidate ++ post) = Some candidate)).
Proof.
  apply (extract_returns_parsed_object Sample.bracesOnly "Sure: {} done" (JObj [])).
  vm_compute. reflexivity.
Defined.

Lemma extract_finds_wrapped_object_witness :
  Background.extractJsonObjectFromText Sample.bracesOnly ("Sure: " ++ "{}" ++ " done")%string
  = Some (JObj []).
Proof.
  apply (extract_finds_wrapped_object Sample.bracesOnly "Sure: " "{}" " done" (JObj [])).
  - reflexivity.
  - split; reflexivity.
  - reflexivity.
  - vm_compute. reflexivity.
Defined.
